(** * go-radius: the packet codec, the dictionary loader and the obscuring
      primitives, embedded from the Go sources and checked against the
      written specification.

    Layout: Go's run-time conventions (bytes, integers, slices, panics);
    one module per Go package the sources call ([md5], [hmac], [strings],
    [strconv], [net]) or define ([tools], [protocol], [client], [server]);
    the statements of the specification that the theorems compare the code
    with; then the proofs, one section per component, each followed by its
    claims (C1 to C10), and after them further properties of the code (X1 to
    X30). *)

From Stdlib.Strings Require Import String Ascii Byte.
From Stdlib Require Import DecimalString.
From Stdlib Require Import ZArith NArith Bool Lia List.
Import ListNotations.

Local Open Scope Z_scope.

(* ===================================================================== *)
(** ** Go run-time conventions *)
(* ===================================================================== *)

Abbreviation byte := Byte.byte.

(** [uint8(n)]: conversion of an integer to a byte keeps the low 8 bits. *)
Definition uint8 (n : Z) : byte :=
  match Byte.of_N (Z.to_N (n mod 256)) with
  | Some b => b
  | None => x00
  end.

(** [int(b)] for a byte [b]. *)
Definition int (b : byte) : Z := Z.of_N (Byte.to_N b).

(** [a ^ b] on bytes. *)
Definition xor8 (a b : byte) : byte :=
  match Byte.of_N (N.lxor (Byte.to_N a) (Byte.to_N b)) with
  | Some c => c
  | None => x00
  end.

(** A Go [error] value. *)
Inductive numError := ErrSyntax | ErrRange.

Inductive error :=
| errorString (msg : string)
| NumError (func num : string) (err : numError).

(** The run-time panics the embedded code can raise. *)
Inductive fault :=
| IndexOutOfRange (i length : Z)        (* s[i] with i < 0 or len(s) <= i *)
| SliceOutOfRange (lo hi capacity : Z)  (* s[lo:hi] outside 0 <= lo <= hi <= cap(s) *)
| PanicError (e : error)                (* panic(err) *)
| OutOfFuel.                            (* the model's loop bound was too small;
                                           shown unreachable where it matters *)

(** What a call does: return a value, return a non-nil [error], or panic. *)
Inductive outcome (A : Type) :=
| Ok (a : A)
| Err (e : error)
| Panic (f : fault).
Arguments Ok {A} a.
Arguments Err {A} e.
Arguments Panic {A} f.

Definition bind {A B} (m : outcome A) (k : A -> outcome B) : outcome B :=
  match m with
  | Ok a => k a
  | Err e => Err e
  | Panic f => Panic f
  end.

Declare Scope go_scope.
Delimit Scope go_scope with go.
Notation "x <- m ;; k" := (bind m (fun x => k))
  (at level 61, m at next level, right associativity) : go_scope.
Notation "' pat <- m ;; k" := (bind m (fun x => match x with pat => k end))
  (at level 61, pat pattern, m at next level, right associativity) : go_scope.
Local Open Scope go_scope.

(** [len(s)] *)
Definition len {A} (s : list A) : Z := Z.of_nat (length s).

(** [s[i]]: checked against [len(s)]. *)
Definition index {A} (s : list A) (i : Z) : outcome A :=
  if (0 <=? i) && (i <? len s) then
    match nth_error s (Z.to_nat i) with
    | Some x => Ok x
    | None => Panic (IndexOutOfRange i (len s))
    end
  else Panic (IndexOutOfRange i (len s)).

(** The elements [lo .. hi-1] of [s]. *)
Definition sub {A} (s : list A) (lo hi : Z) : list A :=
  firstn (Z.to_nat (hi - lo)) (skipn (Z.to_nat lo) s).

(** [s[lo:hi]] on a slice of which only the contents matter (its capacity is
    taken to be its length; the places where this is used index the slice up
    to [hi - 1] first, so the check against the capacity never decides). *)
Definition slice {A} (s : list A) (lo hi : Z) : outcome (list A) :=
  if (0 <=? lo) && (lo <=? hi) && (hi <=? len s) then Ok (sub s lo hi)
  else Panic (SliceOutOfRange lo hi (len s)).

(** A byte slice with its spare capacity: [elems] are the [len] visible
    elements, [spare] the elements of the backing array between [len] and
    [cap].  Go checks an index expression against [len] and a slice
    expression against [cap]. *)
Record Slice := mkSlice { elems : list byte; spare : list byte }.

Definition cap (s : Slice) : Z := len (elems s) + len (spare s).

(** [s[lo:hi]] for a slice with spare capacity; the result's contents. *)
Definition reslice (s : Slice) (lo hi : Z) : outcome (list byte) :=
  if (0 <=? lo) && (lo <=? hi) && (hi <=? cap s)
  then Ok (sub (elems s ++ spare s) lo hi)
  else Panic (SliceOutOfRange lo hi (cap s)).

(** [make([]uint8, n)] *)
Definition make (n : Z) : list byte := repeat x00 (Z.to_nat n).

(** [copy(dst, src)]: overwrites the first [min(len(dst), len(src))] elements
    of [dst]; the result is the new contents of [dst]. *)
Definition copy (dst src : list byte) : list byte :=
  firstn (length dst) src ++ skipn (length src) dst.

(** [fmt.Sprintf("%d", n)] for a non-negative [n]. *)
Definition itoa (n : Z) : string := NilEmpty.string_of_uint (N.to_uint (Z.to_N n)).

(** Byte strings from Go string literals. *)
Definition bytes_of (s : string) : list byte := list_byte_of_string s.
Definition bytes_of_ints (l : list Z) : list byte := map uint8 l.

(** [string(b)] for a byte slice. *)
Definition string_of (b : list byte) : string := string_of_list_byte b.

(** [s[lo:]] for a slice with spare capacity: the upper bound is [len(s)],
    so the lower one is checked against it. *)
Definition reslice_from (s : Slice) (lo : Z) : outcome (list byte) :=
  if (0 <=? lo) && (lo <=? len (elems s))
  then Ok (sub (elems s) lo (len (elems s)))
  else Panic (SliceOutOfRange lo (len (elems s)) (cap s)).

(* ===================================================================== *)
(** ** crypto/md5 (Go standard library; here after RFC 1321) *)
(* ===================================================================== *)

Module md5.

Local Open Scope N_scope.

Definition mask32 : N := 4294967295.

Definition add32 (a b : N) : N := N.land (a + b) mask32.
Definition not32 (a : N) : N := N.lxor a mask32.
Definition rotl32 (x s : N) : N :=
  N.lor (N.land (N.shiftl x s) mask32) (N.shiftr x (32 - s)).

Definition shifts : list N :=
  [ 7; 12; 17; 22; 7; 12; 17; 22; 7; 12; 17; 22; 7; 12; 17; 22;
    5;  9; 14; 20; 5;  9; 14; 20; 5;  9; 14; 20; 5;  9; 14; 20;
    4; 11; 16; 23; 4; 11; 16; 23; 4; 11; 16; 23; 4; 11; 16; 23;
    6; 10; 15; 21; 6; 10; 15; 21; 6; 10; 15; 21; 6; 10; 15; 21 ].

Definition sines : list N :=
  [ 3614090360; 3905402710; 606105819; 3250441966;
    4118548399; 1200080426; 2821735955; 4249261313;
    1770035416; 2336552879; 4294925233; 2304563134;
    1804603682; 4254626195; 2792965006; 1236535329;
    4129170786; 3225465664; 643717713; 3921069994;
    3593408605; 38016083; 3634488961; 3889429448;
    568446438; 3275163606; 4107603335; 1163531501;
    2850285829; 4243563512; 1735328473; 2368359562;
    4294588738; 2272392833; 1839030562; 4259657740;
    2763975236; 1272893353; 4139469664; 3200236656;
    681279174; 3936430074; 3572445317; 76029189;
    3654602809; 3873151461; 530742520; 3299628645;
    4096336452; 1126891415; 2878612391; 4237533241;
    1700485571; 2399980690; 4293915773; 2240044497;
    1873313359; 4264355552; 2734768916; 1309151649;
    4149444226; 3174756917; 718787259; 3951481745 ].

Definition state := (N * N * N * N)%type.

Definition init : state := (1732584193, 4023233417, 2562383102, 271733878).

Definition word_of_bytes (bs : list byte) : N :=
  fold_right (fun b acc => Byte.to_N b + 256 * acc) 0 bs.

Definition byte_of_N (n : N) : byte :=
  match Byte.of_N (n mod 256) with Some b => b | None => x00 end.

Definition bytes_of_word (w : N) : list byte :=
  [ byte_of_N w; byte_of_N (N.shiftr w 8);
    byte_of_N (N.shiftr w 16); byte_of_N (N.shiftr w 24) ].

Fixpoint words (n : nat) (bs : list byte) : list N :=
  match n with
  | O => []
  | S n' => word_of_bytes (firstn 4 bs) :: words n' (skipn 4 bs)
  end.

Definition round (M : list N) (st : state) (i : N) : state :=
  let '(a, b, c, d) := st in
  let '(f, g) :=
    if i <? 16 then (N.lor (N.land b c) (N.land (not32 b) d), i)
    else if i <? 32 then (N.lor (N.land d b) (N.land (not32 d) c), (5 * i + 1) mod 16)
    else if i <? 48 then (N.lxor (N.lxor b c) d, (3 * i + 5) mod 16)
    else (N.lxor c (N.lor b (not32 d)), (7 * i) mod 16) in
  let f' := add32 (add32 (add32 f a) (nth (N.to_nat i) sines 0))
                  (nth (N.to_nat g) M 0) in
  (d, add32 b (rotl32 f' (nth (N.to_nat i) shifts 0)), b, c).

Definition block (st : state) (chunk : list byte) : state :=
  let M := words 16 chunk in
  let '(a, b, c, d) := st in
  let '(a', b', c', d') :=
    fold_left (round M) (map N.of_nat (seq 0 64)) st in
  (add32 a a', add32 b b', add32 c c', add32 d d').

Fixpoint blocks (n : nat) (st : state) (bs : list byte) : state :=
  match n with
  | O => st
  | S n' => blocks n' (block st (firstn 64 bs)) (skipn 64 bs)
  end.

Definition length_le64 (bits : N) : list byte :=
  bytes_of_word (bits mod 4294967296) ++ bytes_of_word (N.shiftr bits 32).

Definition pad (msg : list byte) : list byte :=
  let n := N.of_nat (length msg) in
  let zeros := ((119 - n mod 64) mod 64)%N in
  msg ++ [x80] ++ repeat x00 (N.to_nat zeros) ++ length_le64 (8 * n).

(** The digest of everything written to a fresh [md5.New()]:
    [h.Write(m); h.Sum(nil)]. *)
Definition Sum (msg : list byte) : list byte :=
  let p := pad msg in
  let '(a, b, c, d) := blocks (length p / 64) init p in
  bytes_of_word a ++ bytes_of_word b ++ bytes_of_word c ++ bytes_of_word d.

End md5.

(* ===================================================================== *)
(** ** crypto/hmac with MD5 (Go standard library; here after RFC 2104) *)
(* ===================================================================== *)

Module hmac.

Definition blocksize : nat := 64.

Definition key_block (key : list byte) : list byte :=
  let k := if (blocksize <? length key)%nat then md5.Sum key else key in
  k ++ repeat x00 (blocksize - length k).

(** [h := hmac.New(md5.New, key); h.Write(msg); h.Sum(nil)] *)
Definition Sum (key msg : list byte) : list byte :=
  let k := key_block key in
  md5.Sum (map (xor8 x5c) k ++ md5.Sum (map (xor8 x36) k ++ msg)).

Fixpoint bytes_eqb (a b : list byte) : bool :=
  match a, b with
  | [], [] => true
  | x :: a', y :: b' => Byte.eqb x y && bytes_eqb a' b'
  | _, _ => false
  end.

(** [hmac.Equal(a, b)]: a comparison of the contents in constant time. *)
Definition Equal (a b : list byte) : bool := bytes_eqb a b.

End hmac.

(* ===================================================================== *)
(** ** strings and strconv (Go standard library) *)
(* ===================================================================== *)

Module strings.

(** [strings.Split(s, sep)] for a separator of one byte, as the sources call
    it ([sep = "/"]): the pieces between the occurrences of [sep]; one piece,
    [s] itself, when there is none (also for the empty [s]). *)
Fixpoint Split (s : string) (sep : ascii) : list string :=
  match s with
  | EmptyString => [EmptyString]
  | String c s' =>
      if Ascii.eqb c sep then EmptyString :: Split s' sep
      else match Split s' sep with
           | piece :: pieces => String c piece :: pieces
           | [] => [String c EmptyString]
           end
  end.

(** [strings.HasPrefix(s, prefix)] *)
Definition HasPrefix (s prefix : string) : bool := String.prefix prefix s.

Definition mem_nat (n : nat) (l : list nat) : bool := existsb (Nat.eqb n) l.

(** Width in bytes of the white-space rune ([unicode.IsSpace]) that starts
    [s] in UTF-8, or 0 when [s] does not start with one: the six ASCII
    spaces, U+0085, U+00A0, U+1680, U+2000..U+200A, U+2028, U+2029, U+202F,
    U+205F and U+3000. *)
Definition space_width (s : string) : nat :=
  match s with
  | EmptyString => 0
  | String c r =>
      let n := nat_of_ascii c in
      if mem_nat n [9; 10; 11; 12; 13; 32] then 1
      else match r with
      | String c1 r1 =>
          let n1 := nat_of_ascii c1 in
          if Nat.eqb n 194 then (if mem_nat n1 [133; 160] then 2 else 0)
          else match r1 with
          | String c2 _ =>
              let n2 := nat_of_ascii c2 in
              if Nat.eqb n 225 then
                (if Nat.eqb n1 154 && Nat.eqb n2 128 then 3 else 0)
              else if Nat.eqb n 226 then
                (if Nat.eqb n1 128 &&
                    ((Nat.leb 128 n2 && Nat.leb n2 138) || mem_nat n2 [168; 169; 175])
                 then 3
                 else if Nat.eqb n1 129 && Nat.eqb n2 159 then 3 else 0)
              else if Nat.eqb n 227 then
                (if Nat.eqb n1 128 && Nat.eqb n2 128 then 3 else 0)
              else 0
          | EmptyString => 0
          end
      | EmptyString => 0
      end
  end%nat.

Definition flush (field : string) : list string :=
  match field with EmptyString => [] | _ => [field] end.

(** [skip] counts the bytes still to drop of the white-space rune being
    read; [field] is the field read so far. *)
Fixpoint fields_from (s : string) (skip : nat) (field : string) : list string :=
  match s with
  | EmptyString => flush field
  | String c r =>
      match skip with
      | S k => fields_from r k field
      | O =>
          match space_width s with
          | O => fields_from r 0 (field ++ String c EmptyString)%string
          | S k => flush field ++ fields_from r k EmptyString
          end
      end
  end.

(** [strings.Fields(s)]: the maximal runs of non-white-space of [s]. *)
Definition Fields (s : string) : list string := fields_from s 0 EmptyString.

End strings.

Module strconv.

Definition digit (c : ascii) : option Z :=
  let n := Z.of_nat (nat_of_ascii c) in
  if (48 <=? n) && (n <=? 57) then Some (n - 48) else None.

(** The loop of [ParseUint] in base 10 for 8 bits: a non-digit is a syntax
    error, a value above 255 a range error, whichever comes first from the
    left. *)
Fixpoint parse_digits (s : string) (n : Z) : numError + Z :=
  match s with
  | EmptyString => inr n
  | String c r =>
      match digit c with
      | None => inl ErrSyntax
      | Some d =>
          let n1 := 10 * n + d in
          if 255 <? n1 then inl ErrRange else parse_digits r n1
      end
  end.

(** [strconv.ParseUint(s, 10, 8)] *)
Definition ParseUint8 (s : string) : outcome Z :=
  match s with
  | EmptyString => Err (NumError "ParseUint" s ErrSyntax)
  | _ => match parse_digits s 0 with
         | inl e => Err (NumError "ParseUint" s e)
         | inr n => Ok n
         end
  end.

End strconv.

(* ===================================================================== *)
(** ** net (Go standard library) *)
(* ===================================================================== *)

Module net.

(** The dotted-decimal part of [ParseIP]: four decimal fields of one to
    three digits, none above 255, none with a leading zero; the result is
    the 16-byte form of the IPv4 address, and the nil slice for any other
    text (textual IPv6 is left out). *)
Definition ParseIPv4 (s : string) : list byte :=
  let field (f : string) : option Z :=
    match f with
    | EmptyString => None
    | String "0" (String _ _) => None
    | _ => match strconv.parse_digits f 0 with inr n => Some n | inl _ => None end
    end in
  match map field (strings.Split s ".") with
  | [Some a; Some b; Some c; Some d] =>
      repeat x00 10 ++ [xff; xff; uint8 a; uint8 b; uint8 c; uint8 d]
  | _ => []
  end.

End net.

(* ===================================================================== *)
(** ** package tools *)
(* ===================================================================== *)

Module tools.

(** [for i := 0; i < n; i++ { body }] on a state [s]; a panic or an error
    of the body ends the loop. *)
Fixpoint for_range {State : Type} (n : nat) (i : Z)
    (body : Z -> State -> outcome State) (s : State) : outcome State :=
  match n with
  | O => Ok s
  | S n' => s' <- body i s ;; for_range n' (i + 1) body s'
  end.

(** [s[i] = x] after [s[i]] has been read. *)
Fixpoint set_nth (s : list byte) (i : nat) (x : byte) : list byte :=
  match s, i with
  | [], _ => []
  | _ :: s', O => x :: s'
  | y :: s', S i' => y :: set_nth s' i' x
  end.

(** [binary.BigEndian.Uint32(b)], [Uint16], [Uint64]: the big-endian value
    of the bytes. *)
Definition BigEndian (b : list byte) : Z :=
  fold_left (fun acc x => 256 * acc + int x) b 0.

(** [binary.BigEndian.PutUint32(make([]uint8, n), v)] *)
Fixpoint PutBigEndian (n : nat) (v : Z) : list byte :=
  match n with
  | O => []
  | S n' => uint8 (Z.shiftr v (8 * Z.of_nat n')) :: PutBigEndian n' v
  end.

Section IP.

(** [net.ParseIP] of Go's standard library: the 16 bytes of the address, or
    the nil slice when the text is not an IP address. *)
Variable ParseIP : string -> list byte.

(** [net.IP.String] of Go's standard library, on 16 bytes. *)
Variable IPString : list byte -> string.

Definition IPv6StringToBytes (ipv6 : string) : outcome (list byte) :=
  let ipv6Bytes : list byte := [] in
  let processedIPv6 := strings.Split ipv6 "/" in
  ipv6Bytes <-
    (if len processedIPv6 =? 2 then
       p <- index processedIPv6 1 ;;
       value <- strconv.ParseUint8 p ;;
       Ok (ipv6Bytes ++ [x00; uint8 value])
     else Ok ipv6Bytes) ;;
  a <- index processedIPv6 0 ;;
  Ok (ipv6Bytes ++ ParseIP a).

Definition BytesToIPv6String (ipv6 : list byte) : string * bool :=
  if len ipv6 =? 18 then
    (IPString (sub ipv6 2 18) ++ "/" ++ itoa (int (nth 1 ipv6 x00)), true)%string
  else if len ipv6 =? 16 then (IPString ipv6, true)
  else (EmptyString, false).

Definition IPv4StringToBytes (ipv4 : string) : outcome (list byte) :=
  let ipv4Bytes : list byte := [] in
  let processedIPv4 := strings.Split ipv4 "/" in
  ipv4Bytes <-
    (if len processedIPv4 =? 2 then
       p <- index processedIPv4 1 ;;
       value <- strconv.ParseUint8 p ;;
       if 32 <? value then
         Err (errorString ("IPv4 Subnet must be no greater than 32, you provided "
                           ++ itoa value))
       else Ok (ipv4Bytes ++ [x00; uint8 value])
     else Ok ipv4Bytes) ;;
  a <- index processedIPv4 0 ;;
  let ip := ParseIP a in
  tail <- slice ip 12 (len ip) ;;
  Ok (ipv4Bytes ++ tail).

End IP.

(** [net.IPv4(a, b, c, d).String()] *)
Definition dotted (a b c d : byte) : string :=
  (itoa (int a) ++ "." ++ itoa (int b) ++ "." ++ itoa (int c) ++ "." ++ itoa (int d))%string.

(** [fmt.Sprintf("%v", b)] for a byte slice. *)
Definition show_bytes (b : list byte) : string :=
  ("[" ++ String.concat " " (map (fun x => itoa (int x)) b) ++ "]")%string.

Definition BytesToIPv4String (ipv4 : list byte) : string * option error :=
  match ipv4 with
  | [s0; s1; a; b; c; d] =>
      let subnet := BigEndian [s0; s1] in
      ((dotted a b c d ++ "/" ++ itoa subnet)%string, None)
  | [a; b; c; d] => (dotted a b c d, None)
  | _ => (EmptyString, Some (errorString ("Malformed IPv4: " ++ show_bytes ipv4)))
  end.

Definition IntegerToBytes (integer : Z) : list byte := PutBigEndian 4 integer.

Definition BytesToInteger (integer : list byte) : Z * bool :=
  if negb (len integer =? 4) then (0, false)
  else (BigEndian integer, true).

Definition Integer64ToBytes (integer : Z) : list byte := PutBigEndian 8 integer.

Definition BytesToInteger64 (integer : list byte) : Z * bool :=
  if negb (len integer =? 8) then (0, false)
  else (BigEndian integer, true).

Definition TimestampToBytes (timestamp : Z) : outcome (list byte) :=
  if 4294967295 <? timestamp then
    Err (errorString "Provided integer won't fit into uint32")
  else Ok (PutBigEndian 4 (timestamp mod 4294967296)).

Definition BytesToTimestamp (timestamp : list byte) : Z * bool :=
  if negb (len timestamp =? 4) then (0, false)
  else (BigEndian timestamp, true).

(** [for i := 0; i < len(hash); i++ { data[i] ^= hash[i] }]; the new [data]. *)
Definition xor_into_data (data hash : list byte) : outcome (list byte) :=
  for_range (length hash) 0
    (fun i data =>
       d <- index data i ;;
       h <- index hash i ;;
       Ok (set_nth data (Z.to_nat i) (xor8 d h)))
    data.

(** [for i := 0; i < len(hash); i++ { hash[i] ^= data[i] }]; the new [hash]. *)
Definition xor_into_hash (hash data : list byte) : outcome (list byte) :=
  for_range (length hash) 0
    (fun i hash =>
       h <- index hash i ;;
       d <- index data i ;;
       Ok (set_nth hash (Z.to_nat i) (xor8 h d)))
    hash.

(** The loop of [encryptHelper], one iteration per unit of [fuel]; the state
    is what the loop updates: [*output], [*data], [*hash], [tmp] and
    [iteration].  Returns [*output], [*data] and [*hash] at the [break]. *)
Fixpoint encryptLoop (fuel : nat)
    (output data authenticator hash secret tmp : list byte) (iteration : Z)
    : outcome (list byte * list byte * list byte) :=
  match fuel with
  | O => Panic OutOfFuel
  | S fuel' =>
      let written :=
        secret ++ (if iteration =? 1 then authenticator else tmp) in
      let hash := copy hash (md5.Sum written) in
      let iteration := iteration + 1 in
      data <- xor_into_data data hash ;;
      block <- slice data 0 16 ;;
      let output := output ++ block in
      let tmp := copy tmp block in
      data <- (if len data =? 16 then slice data 0 0
               else slice data 16 (len data)) ;;
      if len data =? 0 then Ok (output, data, hash)
      else encryptLoop fuel' output data authenticator hash secret tmp iteration
  end.

(** [encryptHelper(output, data, authenticator, hash, secret)]: every
    iteration drops 16 bytes of [*data] or panics, so as many iterations as
    the data has bytes are enough. *)
Definition encryptHelper (output data authenticator hash secret : list byte)
    : outcome (list byte * list byte * list byte) :=
  let tmp := make 16 in
  encryptLoop (S (length data)) output data authenticator hash secret tmp 1.

Definition EncryptData (data authenticator secret : list byte)
    : outcome (list byte) :=
  let result : list byte := [] in
  let hash := make 16 in
  let padding := 16 - len data mod 16 in
  let initialData := make (len data + padding) in
  let initialData := copy (sub initialData 0 (len data)) data
                     ++ sub initialData (len data) (len initialData) in
  pad <- slice hash 0 padding ;;
  let initialData := sub initialData 0 (len data)
                     ++ copy (sub initialData (len data) (len initialData)) pad in
  '(result, _, _) <- encryptHelper result initialData authenticator hash secret ;;
  Ok result.

(** The first loop of [DecryptData]; returns [result] at the [break]. *)
Fixpoint decryptLoop (fuel : nat) (result data prevResult hash secret : list byte)
    : outcome (list byte) :=
  match fuel with
  | O => Panic OutOfFuel
  | S fuel' =>
      let hash := copy hash (md5.Sum (secret ++ prevResult)) in
      hash <- xor_into_hash hash data ;;
      let result := result ++ hash in
      block <- slice data 0 16 ;;
      let prevResult := copy prevResult block in
      data <- slice data 16 (len data) ;;
      if len data =? 0 then Ok result
      else decryptLoop fuel' result data prevResult hash secret
  end.

(** The second loop of [DecryptData]: drop the zero bytes at the end. *)
Fixpoint stripLoop (fuel : nat) (result : list byte) : outcome (list byte) :=
  match fuel with
  | O => Panic OutOfFuel
  | S fuel' =>
      last <- index result (len result - 1) ;;
      if Byte.eqb last x00 then
        result <- slice result 0 (len result - 1) ;;
        stripLoop fuel' result
      else Ok result
  end.

(** [DecryptData(data, authenticator, secret)]: the slice returned.  (The
    call also moves the caller's [*data] to its end.) *)
Definition DecryptData (data authenticator secret : list byte)
    : outcome (list byte) :=
  let result : list byte := [] in
  let prevResult := make 16 in
  let hash := make 16 in
  let prevResult := copy prevResult authenticator in
  result <- decryptLoop (S (length data)) result data prevResult hash secret ;;
  stripLoop (S (length result)) result.

Definition SaltEncryptData (data authenticator salt secret : list byte)
    : outcome (list byte) :=
  if len data =? 0 then Ok []
  else
    let result : list byte := [] in
    let initialData : list byte := [] in
    let hash := make 16 in
    let padding := 15 - len data mod 16 in
    let saltedAuthenticator := make 18 in
    let result := result ++ salt in
    let initialData := initialData ++ [uint8 (len data)] in
    let initialData := initialData ++ data in
    pad <- slice hash 0 padding ;;
    let initialData := initialData ++ pad in
    a16 <- slice authenticator 0 16 ;;
    let saltedAuthenticator :=
      copy (sub saltedAuthenticator 0 16) a16 ++ sub saltedAuthenticator 16 18 in
    s2 <- slice salt 0 2 ;;
    let saltedAuthenticator :=
      sub saltedAuthenticator 0 16 ++ copy (sub saltedAuthenticator 16 18) s2 in
    '(result, _, _) <-
      encryptHelper result initialData saltedAuthenticator hash secret ;;
    Ok result.

(** The loop of [SaltDecryptData]; returns [result] at the [break]. *)
Fixpoint saltDecryptLoop (fuel : nat) (result data prevResult hash secret : list byte)
    : outcome (list byte) :=
  match fuel with
  | O => Panic OutOfFuel
  | S fuel' =>
      let hash := copy hash (md5.Sum (secret ++ prevResult)) in
      hash <- xor_into_hash hash data ;;
      let result := result ++ hash in
      prevResult <- slice data 0 16 ;;
      data <- slice data 16 (len data) ;;
      if len data =? 0 then Ok result
      else saltDecryptLoop fuel' result data prevResult hash secret
  end.

(** [SaltDecryptData(data, authenticator, secret)].  For an authenticator
    shorter than 16 bytes the slice expression [authenticator[:16]] is checked
    against its capacity, taken here to be its length. *)
Definition SaltDecryptData (data authenticator secret : list byte)
    : outcome (list byte) :=
  let initialLen := uint8 (len data) in
  if int initialLen <=? 1 then
    Err (errorString "salt encrypted attribute too short")
  else if int initialLen <=? 17 then Ok []
  else
    let result : list byte := [] in
    let hash := make 16 in
    let prevResult := make 18 in
    a16 <- slice authenticator 0 16 ;;
    let prevResult := copy (sub prevResult 0 16) a16 ++ sub prevResult 16 18 in
    s2 <- slice data 0 2 ;;
    let prevResult := sub prevResult 0 16 ++ copy (sub prevResult 16 18) s2 in
    data <- slice data 2 (len data) ;;
    result <- saltDecryptLoop (S (length data)) result data prevResult hash secret ;;
    targetLen <- index result 0 ;;
    result <- slice result 1 (len result) ;;
    if int (uint8 (int initialLen - 3)) <? int targetLen then
      Err (errorString "Tunnel Password is too long (shared secret might be wrong)")
    else slice result 0 (int targetLen).

End tools.

(* ===================================================================== *)
(** ** package protocol *)
(* ===================================================================== *)

Module protocol.

Local Open Scope string_scope.
Local Open Scope list_scope.

(** *** dictionary

    The fields of a struct keep their Go names behind a short prefix
    ([da_], [dv_], [dvn_], [dict_], [attr_], [pkt_]): the projections of all
    records of a module share one name space. *)

Definition COMMENT_PREFIX : string := "#".

Inductive SupportedAttributeTypes :=
| AsciiString | ByteString | Integer | Integer64 | Date
| IPv4Addr | IPv4Prefix | IPv6Addr | IPv6Prefix | InterfaceId.

Record DictionaryAttribute := mkDictionaryAttribute {
  da_name : string;
  da_vendorName : string;
  da_code : byte;
  da_codeType : SupportedAttributeTypes }.

Record DictionaryValue := mkDictionaryValue {
  dv_attributeName : string;
  dv_valueName : string;
  dv_vendorName : string;
  dv_value : string }.

Record DictionaryVendor := mkDictionaryVendor {
  dvn_name : string;
  dvn_id : byte }.

Record Dictionary := mkDictionary {
  dict_attributes : list DictionaryAttribute;
  dict_values : list DictionaryValue;
  dict_vendors : list DictionaryVendor }.

(** What [os.Open(filePath)] and the [bufio.Scanner] on the file deliver:
    the error of [Open], the lines [scanner.Text()] returns one after the
    other, and [scanner.Err()] once [Scan] has returned false. *)
Record File := mkFile {
  open_error : option error;
  lines : list string;
  scan_error : option error }.

(** The unknown type is also logged as a warning. *)
Definition assignAttributeType (codeType : string) : SupportedAttributeTypes * bool :=
  if String.eqb codeType "text" then (AsciiString, true)
  else if String.eqb codeType "string" then (ByteString, true)
  else if String.eqb codeType "integer" then (Integer, true)
  else if String.eqb codeType "integer64" then (Integer64, true)
  else if String.eqb codeType "time" then (Date, true)
  else if String.eqb codeType "ipv4addr" || String.eqb codeType "ipaddr" then (IPv4Addr, true)
  else if String.eqb codeType "ipv4prefix" then (IPv4Prefix, true)
  else if String.eqb codeType "ipv6addr" then (IPv6Addr, true)
  else if String.eqb codeType "ipv6prefix" then (IPv6Prefix, true)
  else if String.eqb codeType "ifid" then (InterfaceId, true)
  else (AsciiString, false).

(** [value, err := strconv.ParseUint(s, 10, 8); if err != nil { panic(err) }] *)
Definition mustParseUint8 (s : string) : outcome Z :=
  match strconv.ParseUint8 s with
  | Err e => Panic (PanicError e)
  | r => r
  end.

(** [parseAttribute(parsedLine, vendorName, &attributes)]; the new
    [attributes]. *)
Definition parseAttribute (parsedLine : list string) (vendorName : string)
    (attributes : list DictionaryAttribute) : outcome (list DictionaryAttribute) :=
  code <- index parsedLine 2 ;;
  value <- mustParseUint8 code ;;
  codeType <- index parsedLine 3 ;;
  let '(attrType, ok) := assignAttributeType codeType in
  if ok then
    name <- index parsedLine 1 ;;
    Ok (attributes ++ [mkDictionaryAttribute name vendorName (uint8 value) attrType])
  else Ok attributes.

Definition parseValue (parsedLine : list string) (vendorName : string)
    (values : list DictionaryValue) : outcome (list DictionaryValue) :=
  attributeName <- index parsedLine 1 ;;
  valueName <- index parsedLine 2 ;;
  value <- index parsedLine 3 ;;
  Ok (values ++ [mkDictionaryValue attributeName valueName vendorName value]).

Definition parseVendor (parsedLine : list string)
    (vendors : list DictionaryVendor) : outcome (list DictionaryVendor) :=
  id <- index parsedLine 2 ;;
  value <- mustParseUint8 id ;;
  name <- index parsedLine 1 ;;
  Ok (vendors ++ [mkDictionaryVendor name (uint8 value)]).

(** What the loop of [DictionaryFromFile] carries from line to line. *)
Record loading := mkLoading {
  attributes : list DictionaryAttribute;
  values : list DictionaryValue;
  vendors : list DictionaryVendor;
  vendorName : string }.

(** The body of [for scanner.Scan() { ... }] on one line. *)
Definition scanLine (line : string) (st : loading) : outcome loading :=
  if negb (String.eqb line EmptyString) && negb (strings.HasPrefix line COMMENT_PREFIX) then
    let parsedLine := strings.Fields line in
    directive <- index parsedLine 0 ;;
    if String.eqb directive "ATTRIBUTE" then
      a <- parseAttribute parsedLine (vendorName st) (attributes st) ;;
      Ok (mkLoading a (values st) (vendors st) (vendorName st))
    else if String.eqb directive "VALUE" then
      v <- parseValue parsedLine (vendorName st) (values st) ;;
      Ok (mkLoading (attributes st) v (vendors st) (vendorName st))
    else if String.eqb directive "VENDOR" then
      v <- parseVendor parsedLine (vendors st) ;;
      Ok (mkLoading (attributes st) (values st) v (vendorName st))
    else if String.eqb directive "BEGIN-VENDOR" then
      name <- index parsedLine 1 ;;
      Ok (mkLoading (attributes st) (values st) (vendors st) name)
    else if String.eqb directive "END-VENDOR" then
      Ok (mkLoading (attributes st) (values st) (vendors st) EmptyString)
    else Ok st
  else Ok st.

Fixpoint scanLines (ls : list string) (st : loading) : outcome loading :=
  match ls with
  | [] => Ok st
  | line :: rest => st' <- scanLine line st ;; scanLines rest st'
  end.

Definition DictionaryFromFile (file : File) : outcome Dictionary :=
  match open_error file with
  | Some err => Err err
  | None =>
      st <- scanLines (lines file) (mkLoading [] [] [] EmptyString) ;;
      match scan_error file with
      | Some err => Err err
      | None => Ok (mkDictionary (attributes st) (values st) (vendors st))
      end
  end.

(** *** attributes *)

Record RadiusAttribute := mkRadiusAttribute {
  attr_id : byte;
  attr_name : string;
  attr_value : list byte }.

(** [RadiusAttribute{}] *)
Definition zeroRadiusAttribute : RadiusAttribute := mkRadiusAttribute x00 EmptyString [].

Fixpoint byName (attrs : list DictionaryAttribute) (attributeName : string)
    (value : list byte) : RadiusAttribute * bool :=
  match attrs with
  | [] => (zeroRadiusAttribute, false)
  | attr :: rest =>
      if String.eqb (da_name attr) attributeName
      then (mkRadiusAttribute (da_code attr) attributeName value, true)
      else byName rest attributeName value
  end.

Definition CreateRadAttributeByName (dictionary : Dictionary)
    (attributeName : string) (value : list byte) : RadiusAttribute * bool :=
  byName (dict_attributes dictionary) attributeName value.

Fixpoint byID (attrs : list DictionaryAttribute) (attributeID : byte)
    (value : list byte) : RadiusAttribute * bool :=
  match attrs with
  | [] => (zeroRadiusAttribute, false)
  | attr :: rest =>
      if Byte.eqb (da_code attr) attributeID
      then (mkRadiusAttribute attributeID (da_name attr) value, true)
      else byID rest attributeID value
  end.

Definition CreateRadAttributeByID (dictionary : Dictionary)
    (attributeID : byte) (value : list byte) : RadiusAttribute * bool :=
  byID (dict_attributes dictionary) attributeID value.

Definition OverrideValue (radAttr : RadiusAttribute) (newValue : list byte)
    : RadiusAttribute :=
  mkRadiusAttribute (attr_id radAttr) (attr_name radAttr) newValue.

Section Verify.

(** [utf8.Valid] and [net.IP.String] of Go's standard library. *)
Variable utf8_Valid : list byte -> bool.
Variable IPString : list byte -> string.

Definition VerifyOriginalValue (radAttr : RadiusAttribute)
    (allowedType : SupportedAttributeTypes) : bool :=
  match allowedType with
  | AsciiString => utf8_Valid (attr_value radAttr)
  | ByteString =>
      if negb (len (attr_value radAttr) =? 0)%Z then true else false
  | Integer =>
      let '(_, ok) := tools.BytesToInteger (attr_value radAttr) in
      if ok then true else false
  | Date =>
      let '(_, ok) := tools.BytesToTimestamp (attr_value radAttr) in
      if ok then true else false
  | IPv4Addr =>
      let '(value, _) := tools.BytesToIPv4String (attr_value radAttr) in
      if negb (String.eqb value EmptyString) then true else false
  | IPv6Addr =>
      let '(_, ok) := tools.BytesToIPv6String IPString (attr_value radAttr) in
      if ok then true else false
  | IPv6Prefix =>
      let '(_, ok) := tools.BytesToIPv6String IPString (attr_value radAttr) in
      if ok then true else false
  | _ => false
  end.

End Verify.

(** [toBytes]: type, length, value. *)
Definition toBytes (radAttr : RadiusAttribute) : list byte :=
  let output : list byte := [] in
  let output := output ++ [attr_id radAttr] in
  let output := output ++ [uint8 (2 + len (attr_value radAttr))] in
  let output := output ++ attr_value radAttr in
  output.

(** *** packets *)

(** [TypeCode] is a Go [int]; the named codes are [iota] constants. *)
Definition TypeCode := Z.

Definition AccessRequest : TypeCode := 0.
Definition AccessAccept : TypeCode := 1.
Definition AccessReject : TypeCode := 2.
Definition AccountingRequest : TypeCode := 3.
Definition AccountingResponse : TypeCode := 4.
Definition AccessChallenge : TypeCode := 5.
Definition StatusServer : TypeCode := 6.
Definition StatusClient : TypeCode := 7.
Definition DisconnectRequest : TypeCode := 8.
Definition DisconnectACK : TypeCode := 9.
Definition DisconnectNAK : TypeCode := 10.
Definition CoARequest : TypeCode := 11.
Definition CoAACK : TypeCode := 12.
Definition CoANAK : TypeCode := 13.

Definition typeCodeFromUint8 (code : byte) : TypeCode * bool :=
  match int code with
  | 1 => (AccessRequest, true)
  | 2 => (AccessAccept, true)
  | 3 => (AccessReject, true)
  | 4 => (AccountingRequest, true)
  | 5 => (AccountingResponse, true)
  | 11 => (AccessChallenge, true)
  | 12 => (StatusServer, true)
  | 13 => (StatusClient, true)
  | 40 => (DisconnectRequest, true)
  | 41 => (DisconnectACK, true)
  | 42 => (DisconnectNAK, true)
  | 43 => (CoARequest, true)
  | 44 => (CoAACK, true)
  | 45 => (CoANAK, true)
  | _ => (0, false)
  end%Z.

Definition typeCodeToUint8 (code : TypeCode) : byte * bool :=
  match code with
  | 0 => (uint8 1, true)
  | 1 => (uint8 2, true)
  | 2 => (uint8 3, true)
  | 3 => (uint8 4, true)
  | 4 => (uint8 5, true)
  | 5 => (uint8 11, true)
  | 6 => (uint8 12, true)
  | 7 => (uint8 13, true)
  | 8 => (uint8 40, true)
  | 9 => (uint8 41, true)
  | 10 => (uint8 42, true)
  | 11 => (uint8 43, true)
  | 12 => (uint8 44, true)
  | 13 => (uint8 45, true)
  | _ => (x00, false)
  end%Z.

Record RadiusPacket := mkRadiusPacket {
  pkt_id : byte;
  pkt_code : TypeCode;
  pkt_authenticator : list byte;
  pkt_attributes : list RadiusAttribute }.

(** The process-wide generator of [math/rand], as the sequence of numbers
    its successive calls draw from. *)
Definition Rand := nat -> Z.

(** [rand.Intn(n)] *)
Definition Intn (n : Z) (r : Rand) : Z * Rand :=
  ((r O mod n)%Z, fun k => r (S k)).

Definition createPacketId (r : Rand) : byte * Rand :=
  let '(v, r) := Intn 256 r in (uint8 v, r).

Fixpoint authenticatorLoop (n : nat) (authenticator : list byte) (r : Rand)
    : list byte * Rand :=
  match n with
  | O => (authenticator, r)
  | S n' =>
      let '(v, r) := Intn 256 r in
      authenticatorLoop n' (authenticator ++ [uint8 v]) r
  end.

Definition createPacketAuthenticator (r : Rand) : list byte * Rand :=
  authenticatorLoop 16 [] r.

Definition packetLengthToBytes (length : Z) : list byte :=
  tools.PutBigEndian 2 length.

Definition InitialiseRadiusPacket (code : TypeCode) (r : Rand) : RadiusPacket * Rand :=
  let '(id, r) := createPacketId r in
  let '(authenticator, r) := createPacketAuthenticator r in
  (mkRadiusPacket id code authenticator [], r).

(** The attribute loop of [InitialiseRadiusPacketFromBytes], one iteration
    per unit of [fuel]. *)
Fixpoint attributesLoop (fuel : nat) (dictionary : Dictionary) (bytes : Slice)
    (lastIndex : Z) (attributes : list RadiusAttribute)
    : outcome (list RadiusAttribute) :=
  match fuel with
  | O => Panic OutOfFuel
  | S fuel' =>
      if (lastIndex =? len (elems bytes))%Z then Ok attributes
      else
        attrID <- index (elems bytes) lastIndex ;;
        l <- index (elems bytes) (lastIndex + 1) ;;
        let attrLength := int l in
        attrValue <- reslice bytes (lastIndex + 2) (lastIndex + attrLength) ;;
        let '(_tmpAttr, ok) := CreateRadAttributeByID dictionary attrID attrValue in
        if negb ok then
          Err (errorString ("attribute with ID: " ++ itoa (int attrID)
                            ++ " is not found in dictionary")%string)
        else
          attributesLoop fuel' dictionary bytes (lastIndex + attrLength)
                         (attributes ++ [_tmpAttr])
  end.

(** Every iteration that goes on moves [lastIndex] forward by two or more
    and stops past the end, so [len(bytes) + 1] iterations are enough. *)
Definition InitialiseRadiusPacketFromBytes (dictionary : Dictionary)
    (bytes : Slice) : outcome RadiusPacket :=
  b0 <- index (elems bytes) 0 ;;
  let '(code, ok) := typeCodeFromUint8 b0 in
  if negb ok then Err (errorString "Invalid TypeCode")
  else
    id <- index (elems bytes) 1 ;;
    authenticator <- reslice bytes 4 20 ;;
    attributes <- attributesLoop (S (length (elems bytes))) dictionary bytes 20 [] ;;
    Ok (mkRadiusPacket id code authenticator attributes).

Definition SetAttributes (radPacket : RadiusPacket) (attr : list RadiusAttribute)
    : RadiusPacket :=
  mkRadiusPacket (pkt_id radPacket) (pkt_code radPacket)
                 (pkt_authenticator radPacket) attr.

Definition OverrideID (radPacket : RadiusPacket) (id : byte) : RadiusPacket :=
  mkRadiusPacket id (pkt_code radPacket) (pkt_authenticator radPacket)
                 (pkt_attributes radPacket).

Definition OverrideAuthenticator (radPacket : RadiusPacket)
    (authenticator : list byte) : RadiusPacket :=
  mkRadiusPacket (pkt_id radPacket) (pkt_code radPacket) authenticator
                 (pkt_attributes radPacket).

(** The loop of [OverrideMessageAuthenticator]: the new attributes when one
    is called Message-Authenticator. *)
Fixpoint overrideFirst (attrs : list RadiusAttribute) (newMessageAuth : list byte)
    : option (list RadiusAttribute) :=
  match attrs with
  | [] => None
  | attr :: rest =>
      if String.eqb (attr_name attr) "Message-Authenticator"
      then Some (OverrideValue attr newMessageAuth :: rest)
      else option_map (cons attr) (overrideFirst rest newMessageAuth)
  end.

(** [radPacket.OverrideMessageAuthenticator(newMessageAuth)]: the packet
    after the call and the error returned. *)
Definition OverrideMessageAuthenticator (radPacket : RadiusPacket)
    (newMessageAuth : list byte) : RadiusPacket * option error :=
  match overrideFirst (pkt_attributes radPacket) newMessageAuth with
  | Some attrs => (SetAttributes radPacket attrs, None)
  | None =>
      (radPacket,
       Some (errorString "Message-Authenticator attribute not found in packet"))
  end.

Fixpoint firstMessageAuthenticator (attrs : list RadiusAttribute)
    : outcome (list byte) :=
  match attrs with
  | [] => Err (errorString "Message-Authenticator attribute not found in packet")
  | attr :: rest =>
      if String.eqb (attr_name attr) "Message-Authenticator"
      then Ok (attr_value attr)
      else firstMessageAuthenticator rest
  end.

Definition MessageAuthenticator (radPacket : RadiusPacket) : outcome (list byte) :=
  firstMessageAuthenticator (pkt_attributes radPacket).

(** [radPacket.ToBytes()]: the bytes and the flag returned, the packet after
    the call (an empty authenticator is replaced by a random one) and the
    generator after the call.  The invalid code is also logged. *)
Definition ToBytes (radPacket : RadiusPacket) (r : Rand)
    : (list byte * bool) * RadiusPacket * Rand :=
  let packetBytes : list byte := [] in
  let packetAttr : list byte := [] in
  let '(radPacket, r) :=
    if (len (pkt_authenticator radPacket) =? 0)%Z then
      let '(a, r) := createPacketAuthenticator r in
      (OverrideAuthenticator radPacket a, r)
    else (radPacket, r) in
  let packetAttr :=
    fold_left (fun acc attr => acc ++ toBytes attr) (pkt_attributes radPacket)
              packetAttr in
  let '(code, ok) := typeCodeToUint8 (pkt_code radPacket) in
  if negb ok then (([], false), radPacket, r)
  else
    let packetBytes := packetBytes ++ [code] in
    let packetBytes := packetBytes ++ [pkt_id radPacket] in
    let packetBytes :=
      packetBytes ++ packetLengthToBytes ((20 + len packetAttr) mod 65536) in
    let packetBytes := packetBytes ++ pkt_authenticator radPacket in
    let packetBytes := packetBytes ++ packetAttr in
    ((packetBytes, true), radPacket, r).

(** [radPacket.GenerateMessageAuthenticator(secret)]: the error returned,
    the packet after the call and the generator after the call. *)
Definition GenerateMessageAuthenticator (radPacket : RadiusPacket)
    (secret : string) (r : Rand) : option error * RadiusPacket * Rand :=
  let zeroedAuthenticator := make 16 in
  let '(radPacket, err) := OverrideMessageAuthenticator radPacket zeroedAuthenticator in
  match err with
  | Some e => (Some e, radPacket, r)
  | None =>
      let '((packetBytes, ok), radPacket, r) := ToBytes radPacket r in
      if negb ok then
        (Some (errorString "failed to convert RadiusPacket to bytes"), radPacket, r)
      else
        let hash := hmac.Sum (bytes_of secret) packetBytes in
        let '(radPacket, err) := OverrideMessageAuthenticator radPacket hash in
        match err with
        | Some e => (Some e, radPacket, r)
        | None => (None, radPacket, r)
        end
  end.

(** *** host *)

Definition IGNORE_VERIFY_ATTRIBUTE : string := "Message-Authenticator".

Record Host := mkHost {
  authPort : Z;
  acctPort : Z;
  coaPort : Z;
  dictionary : Dictionary }.

Definition InitialiseHost (authPort acctPort coaPort : Z) (dictionary : Dictionary)
    : Host := mkHost authPort acctPort coaPort dictionary.

Fixpoint attributeByID (attrs : list DictionaryAttribute) (packetAttrID : byte)
    : DictionaryAttribute * bool :=
  match attrs with
  | [] => (mkDictionaryAttribute EmptyString EmptyString x00 AsciiString, false)
  | attr :: rest =>
      if Byte.eqb (da_code attr) packetAttrID then (attr, true)
      else attributeByID rest packetAttrID
  end.

Definition DictionaryAttributeByID (host : Host) (packetAttrID : byte)
    : DictionaryAttribute * bool :=
  attributeByID (dict_attributes (dictionary host)) packetAttrID.

Section HostVerify.

Variable utf8_Valid : list byte -> bool.
Variable IPString : list byte -> string.

Fixpoint verifyAttributes (host : Host) (attrs : list RadiusAttribute)
    : outcome unit :=
  match attrs with
  | [] => Ok tt
  | packetAttr :: rest =>
      if negb (String.eqb (attr_name packetAttr) IGNORE_VERIFY_ATTRIBUTE) then
        let '(dictAttribute, ok) := DictionaryAttributeByID host (attr_id packetAttr) in
        if negb ok then
          Err (errorString ("Attribute with ID " ++ itoa (int (attr_id packetAttr))
            ++ " may not exist in provided dictionary file, thus verification failed")%string)
        else
          let dictAttrDataType := da_codeType dictAttribute in
          if negb (VerifyOriginalValue utf8_Valid IPString packetAttr dictAttrDataType) then
            Err (errorString ("Cannot verify original value of attribute with ID "
                              ++ itoa (int (attr_id packetAttr)))%string)
          else verifyAttributes host rest
      else verifyAttributes host rest
  end.

Definition VerifyPacketAttributes (host : Host) (packet : Slice) : outcome unit :=
  radPacket <- InitialiseRadiusPacketFromBytes (dictionary host) packet ;;
  verifyAttributes host (pkt_attributes radPacket).

End HostVerify.

(** [host.VerifyMessageAuthenticator(secret, packet)]: [Ok tt] is the nil
    error.  The generator is threaded through the call of [ToBytes]. *)
Definition VerifyMessageAuthenticator (host : Host) (secret : string)
    (packet : Slice) (r : Rand) : outcome unit * Rand :=
  match InitialiseRadiusPacketFromBytes (dictionary host) packet with
  | Err e => (Err e, r)
  | Panic f => (Panic f, r)
  | Ok radPacket =>
      match MessageAuthenticator radPacket with
      | Err e => (Err e, r)
      | Panic f => (Panic f, r)
      | Ok originalMsgAuth =>
          let zeroedAuthenticator := make 16 in
          let '(radPacket, _) :=
            OverrideMessageAuthenticator radPacket zeroedAuthenticator in
          let '((packetBytes, ok), radPacket, r) := ToBytes radPacket r in
          if negb ok then
            (Err (errorString "Failed to convert RadiusPacket to bytes"), r)
          else
            let calculatedHash := hmac.Sum (bytes_of secret) packetBytes in
            if hmac.Equal originalMsgAuth calculatedHash then (Ok tt, r)
            else (Err (errorString "Packet Message-Authenticator mismatch"), r)
      end
  end.

(** *** reading values back, and the rest of the packet and host interface *)

Section Original.

Variable utf8_Valid : list byte -> bool.
Variable IPString : list byte -> string.

Definition OriginalStringValue (radAttr : RadiusAttribute)
    (allowedType : SupportedAttributeTypes) : string * bool :=
  match allowedType with
  | AsciiString =>
      let ok := utf8_Valid (attr_value radAttr) in
      if negb ok then (EmptyString, false)
      else (string_of (attr_value radAttr), true)
  | IPv4Addr =>
      let '(value, err) := tools.BytesToIPv4String (attr_value radAttr) in
      match err with
      | Some _ => (EmptyString, false)
      | None => (value, true)
      end
  | IPv6Addr => tools.BytesToIPv6String IPString (attr_value radAttr)
  | IPv6Prefix => tools.BytesToIPv6String IPString (attr_value radAttr)
  | _ => (EmptyString, false)
  end.

End Original.

Definition OriginalIntegerValue (radAttr : RadiusAttribute)
    (allowedType : SupportedAttributeTypes) : Z * bool :=
  match allowedType with
  | Integer => tools.BytesToInteger (attr_value radAttr)
  | Date => tools.BytesToTimestamp (attr_value radAttr)
  | _ => (0%Z, false)
  end.

Fixpoint attributeNamed (attrs : list RadiusAttribute) (attrName : string)
    : RadiusAttribute :=
  match attrs with
  | [] => zeroRadiusAttribute
  | attr :: rest =>
      if String.eqb (attr_name attr) attrName then attr
      else attributeNamed rest attrName
  end.

Definition AttributeByName (radPacket : RadiusPacket) (attrName : string)
    : RadiusAttribute :=
  attributeNamed (pkt_attributes radPacket) attrName.

Fixpoint attributeWithID (attrs : list RadiusAttribute) (attrID : byte)
    : RadiusAttribute :=
  match attrs with
  | [] => zeroRadiusAttribute
  | attr :: rest =>
      if Byte.eqb (attr_id attr) attrID then attr
      else attributeWithID rest attrID
  end.

Definition AttributeByID (radPacket : RadiusPacket) (attrID : byte)
    : RadiusAttribute :=
  attributeWithID (pkt_attributes radPacket) attrID.

(** [RadiusMsgType] is a Go [int]; [AUTH], [ACCT] and [COA] are [iota]
    constants. *)
Definition RadiusMsgType := Z.

Definition AUTH : RadiusMsgType := 0.
Definition ACCT : RadiusMsgType := 1.
Definition COA : RadiusMsgType := 2.

Definition CreateHostWithDictionary (dictionary : Dictionary) : Host :=
  mkHost 0 0 0 dictionary.

(** [host.SetPort(port, radMsgType)]: the host after the call and the flag
    returned. *)
Definition SetPort (host : Host) (port : Z) (radMsgType : RadiusMsgType)
    : Host * bool :=
  if (radMsgType =? AUTH)%Z then
    (mkHost port (acctPort host) (coaPort host) (dictionary host), true)
  else if (radMsgType =? ACCT)%Z then
    (mkHost (authPort host) port (coaPort host) (dictionary host), true)
  else if (radMsgType =? COA)%Z then
    (mkHost (authPort host) (acctPort host) port (dictionary host), true)
  else (host, false).

Definition Port (host : Host) (code : TypeCode) : Z * bool :=
  if (code =? AccessRequest)%Z then (authPort host, true)
  else if (code =? AccountingRequest)%Z then (acctPort host, true)
  else if (code =? CoARequest)%Z then (coaPort host, true)
  else (0%Z, false).

Definition CreateAttributeByName (host : Host) (attributeName : string)
    (value : list byte) : outcome RadiusAttribute :=
  let '(radAttribute, ok) :=
    CreateRadAttributeByName (dictionary host) attributeName value in
  if negb ok then
    Err (errorString ("Failed to create: " ++ attributeName
      ++ " attribute. Check if attribute exists in provided dictionary file"))
  else Ok radAttribute.

Definition CreateAttributeByID (host : Host) (attributeID : byte)
    (value : list byte) : outcome RadiusAttribute :=
  let '(radAttribute, ok) :=
    CreateRadAttributeByID (dictionary host) attributeID value in
  if negb ok then
    Err (errorString ("Failed to create: " ++ itoa (int attributeID)
      ++ " attribute. Check if attribute exists in provided dictionary file"))
  else Ok radAttribute.

Fixpoint valueByNames (vals : list DictionaryValue) (attrName valueName : string)
    : DictionaryValue * bool :=
  match vals with
  | [] => (mkDictionaryValue EmptyString EmptyString EmptyString EmptyString, false)
  | value :: rest =>
      if String.eqb (dv_valueName value) valueName
         && String.eqb (dv_attributeName value) attrName
      then (value, true)
      else valueByNames rest attrName valueName
  end.

Definition DictionaryValueByAttrAndValueName (host : Host)
    (attrName valueName : string) : DictionaryValue * bool :=
  valueByNames (dict_values (dictionary host)) attrName valueName.

Fixpoint attributeByName (attrs : list DictionaryAttribute) (packetAttrName : string)
    : DictionaryAttribute * bool :=
  match attrs with
  | [] => (mkDictionaryAttribute EmptyString EmptyString x00 AsciiString, false)
  | attr :: rest =>
      if String.eqb (da_name attr) packetAttrName then (attr, true)
      else attributeByName rest packetAttrName
  end.

Definition DictionaryAttributeByName (host : Host) (packetAttrName : string)
    : DictionaryAttribute * bool :=
  attributeByName (dict_attributes (dictionary host)) packetAttrName.

End protocol.

(* ===================================================================== *)
(** ** package client *)
(* ===================================================================== *)

Module client.

Local Open Scope string_scope.
Local Open Scope list_scope.

Record Client := mkClient {
  host : protocol.Host;
  server : string;
  secret : string;
  retries : Z;
  timeout : Z }.

Definition InitialiseClient (dictionary : protocol.Dictionary)
    (server secret : string) (retries timeout : Z) : Client :=
  let host := protocol.CreateHostWithDictionary dictionary in
  mkClient host server secret retries timeout.

(** [client.SetPort(msgType, port)]: the client after the call. *)
Definition SetPort (client : Client) (msgType : protocol.RadiusMsgType) (port : Z)
    : Client :=
  mkClient (fst (protocol.SetPort (host client) port msgType))
           (server client) (secret client) (retries client) (timeout client).

Definition Port (client : Client) (typeCode : protocol.TypeCode) : Z * bool :=
  protocol.Port (host client) typeCode.

Definition CreateAttributeByName (client : Client) (attrName : string)
    (value : list byte) : outcome protocol.RadiusAttribute :=
  protocol.CreateAttributeByName (host client) attrName value.

Definition CreateAttributeByID (client : Client) (attrID : byte)
    (value : list byte) : outcome protocol.RadiusAttribute :=
  protocol.CreateAttributeByID (host client) attrID value.

Section Original.

Variable utf8_Valid : list byte -> bool.
Variable IPString : list byte -> string.

Definition RadiusAttrOriginalStringValue (client : Client)
    (attribute : protocol.RadiusAttribute) : outcome string :=
  let '(dictAttr, ok) :=
    protocol.DictionaryAttributeByID (host client) (protocol.attr_id attribute) in
  if negb ok then
    Err (errorString ("No attribute with ID: "
                      ++ itoa (int (protocol.attr_id attribute))
                      ++ " found in dictionary"))
  else
    let '(attrOrigValue, ok) :=
      protocol.OriginalStringValue utf8_Valid IPString attribute
        (protocol.da_codeType dictAttr) in
    if negb ok then
      Err (errorString ("Error while decoding original value of attribute with ID: "
                        ++ itoa (int (protocol.attr_id attribute))))
    else Ok attrOrigValue.

End Original.

Definition RadiusAttrOriginalIntegerValue (client : Client)
    (attribute : protocol.RadiusAttribute) : outcome Z :=
  let '(dictAttr, ok) :=
    protocol.DictionaryAttributeByID (host client) (protocol.attr_id attribute) in
  if negb ok then
    Err (errorString ("No attribute with ID: "
                      ++ itoa (int (protocol.attr_id attribute))
                      ++ " found in dictionary"))
  else
    let '(attrOrigValue, ok) :=
      protocol.OriginalIntegerValue attribute (protocol.da_codeType dictAttr) in
    if negb ok then
      Err (errorString ("Error while decoding original value of attribute with ID: "
                        ++ itoa (int (protocol.attr_id attribute))))
    else Ok attrOrigValue.

(** [client.VerifyReply(request, reply)]: [Ok true] is the pair of [true]
    and the nil error, [Err e] the pair of [false] and the error [e]. *)
Definition VerifyReply (client : Client) (request : protocol.RadiusPacket)
    (reply : Slice) : outcome bool :=
  if (len (elems reply) =? 0)%Z then Err (errorString "Empty reply")
  else
    id <- index (elems reply) 1 ;;
    if negb (Byte.eqb (protocol.pkt_id request) id) then
      Err (errorString "Packet identifier mismatch")
    else
      head <- reslice reply 0 4 ;;
      rest <- reslice_from reply 20 ;;
      let written :=
        head ++ protocol.pkt_authenticator request ++ rest
        ++ bytes_of (secret client) in
      authenticator <- reslice reply 4 20 ;;
      if hmac.Equal authenticator (md5.Sum written) then Ok true
      else Err (errorString "Packet authenticator mismatch").

Definition VerifyMessageAuthenticator (client : Client) (packet : Slice)
    (r : protocol.Rand) : outcome unit * protocol.Rand :=
  protocol.VerifyMessageAuthenticator (host client) (secret client) packet r.

End client.

(* ===================================================================== *)
(** ** package server *)
(* ===================================================================== *)

Module server.

Local Open Scope list_scope.

Definition createReplyAuthenticator (secret : string) (replyBytes : Slice)
    (requestAuth : list byte) : outcome (list byte) :=
  head <- reslice replyBytes 0 4 ;;
  rest <- reslice_from replyBytes 20 ;;
  Ok (md5.Sum (head ++ requestAuth ++ rest ++ bytes_of secret)).

(** [server.CreateReplyPacket(replyCode, attributes, request, secret)]; the
    method does not read its receiver.  The server file calls the packet
    functions as an earlier revision of the packet file named them:
    [InitialiseRadPacket] has the body of [InitialiseRadiusPacket], and
    [ToBytes] is called for its bytes.  The slice [ToBytes] returns is empty
    or has 20 bytes or more, so the capacity [append] left it with does not
    decide a bounds check. *)
Definition CreateReplyPacket (replyCode : protocol.TypeCode)
    (attributes : list protocol.RadiusAttribute) (request : Slice)
    (secret : string) (r : protocol.Rand)
    : outcome protocol.RadiusPacket * protocol.Rand :=
  let '(replyPacket, r) := protocol.InitialiseRadiusPacket replyCode r in
  let replyPacket := protocol.SetAttributes replyPacket attributes in
  match index (elems request) 1 with
  | Err e => (Err e, r)
  | Panic f => (Panic f, r)
  | Ok id =>
      let replyPacket := protocol.OverrideID replyPacket id in
      let '((replyBytes, _), replyPacket, r) := protocol.ToBytes replyPacket r in
      (requestAuth <- reslice request 4 20 ;;
       authenticator <-
         createReplyAuthenticator secret (mkSlice replyBytes []) requestAuth ;;
       Ok (protocol.OverrideAuthenticator replyPacket authenticator), r)
  end.

End server.

(* ===================================================================== *)
(** ** The obscuring schemes in the words of the specification *)
(* ===================================================================== *)

(** Bytewise [a ^ b] of two sequences, as long as the shorter one. *)
Fixpoint xorl (a b : list byte) : list byte :=
  match a, b with
  | x :: a', y :: b' => xor8 x y :: xorl a' b'
  | _, _ => []
  end.

(** Encryption of [n] blocks of 16 bytes: [c = p ^ MD5(secret || prev)],
    where [prev] is the authenticator for the first block and the previous
    block of ciphertext after it. *)
Fixpoint encryptChain (n : nat) (secret prev data : list byte) : list byte :=
  match n with
  | O => []
  | S n' =>
      let c := xorl (firstn 16 data) (md5.Sum (secret ++ prev)) in
      c ++ encryptChain n' secret c (skipn 16 data)
  end.

(** Decryption of [n] blocks: [p = MD5(secret || prev) ^ c], with the same
    [prev]. *)
Fixpoint decryptChain (n : nat) (secret prev data : list byte) : list byte :=
  match n with
  | O => []
  | S n' =>
      xorl (md5.Sum (secret ++ prev)) (firstn 16 data)
      ++ decryptChain n' secret (firstn 16 data) (skipn 16 data)
  end.

(** The smallest multiple of 16 that is at least [n]: [ceil(n/16) * 16]. *)
Definition ceil16 (n : Z) : Z := ((n + 15) / 16) * 16.

(* ===================================================================== *)
(** ** Dictionary lines with a bad numeric field *)
(* ===================================================================== *)

(** A line the loop of [DictionaryFromFile] does not skip, that starts with
    [ATTRIBUTE] or [VENDOR] and whose third field, the code or the id, is not
    a decimal number in 0..255. *)
Definition bad_numeric_line (line : string) : bool :=
  negb (String.eqb line EmptyString)
  && negb (strings.HasPrefix line protocol.COMMENT_PREFIX)
  && match strings.Fields line with
     | directive :: _ :: number :: _ =>
         (String.eqb directive "ATTRIBUTE" || String.eqb directive "VENDOR")
         && match strconv.ParseUint8 number with Ok _ => false | _ => true end
     | _ => false
     end.

(** The third field of a line: the code of an [ATTRIBUTE] line, the id of a
    [VENDOR] line. *)
Definition numeric_field (line : string) : string :=
  nth 2 (strings.Fields line) EmptyString.

(** A call that returns a value or panics, but never an error. *)
Definition no_error {A} (o : outcome A) : Prop :=
  match o with Err _ => False | _ => True end.

(* ===================================================================== *)
(** ** Well-formed packets and malformed buffers *)
(* ===================================================================== *)

(** The dictionary has an attribute with this id. *)
Definition known (dictionary : protocol.Dictionary) (id : byte) : bool :=
  snd (protocol.CreateRadAttributeByID dictionary id []).

(** The attribute's id resolves in the dictionary and its name is the one of
    the first dictionary attribute with that id. *)
Definition resolves (dictionary : protocol.Dictionary)
    (a : protocol.RadiusAttribute) : Prop :=
  protocol.CreateRadAttributeByID dictionary (protocol.attr_id a)
    (protocol.attr_value a) = (a, true).

(** ... and its value fits the length byte. *)
Definition wellFormedAttribute (dictionary : protocol.Dictionary)
    (a : protocol.RadiusAttribute) : Prop :=
  resolves dictionary a /\ len (protocol.attr_value a) <= 253.

(** A known type code, an authenticator of 16 bytes, well-formed
    attributes. *)
Definition wellFormedPacket (dictionary : protocol.Dictionary)
    (P : protocol.RadiusPacket) : Prop :=
  snd (protocol.typeCodeToUint8 (protocol.pkt_code P)) = true /\
  len (protocol.pkt_authenticator P) = 16 /\
  Forall (wellFormedAttribute dictionary) (protocol.pkt_attributes P).

(** The attribute header that starts [bad] cannot be decoded from a buffer
    that ends with [bad] and has [spare] as spare capacity: its length byte
    is less than 2, or it runs past the end of the buffer, and then also
    past the capacity unless the id is known. *)
Definition malformed_header (dictionary : protocol.Dictionary)
    (bad spare : list byte) : Prop :=
  match bad with
  | id :: l :: rest =>
      int l < 2 \/
      (2 + len rest < int l /\
       (2 + len rest + len spare < int l \/ known dictionary id = true))
  | _ => False
  end.

(** An index or a slice out of range. *)
Definition bounds_fault (f : fault) : Prop :=
  match f with
  | IndexOutOfRange _ _ | SliceOutOfRange _ _ _ => True
  | _ => False
  end.

(** Generate, serialise, verify, as a caller chains them: the error of
    [GenerateMessageAuthenticator], the flag of [ToBytes] and the outcome of
    [VerifyMessageAuthenticator]. *)
Definition sign_and_verify (dictionary : protocol.Dictionary)
    (P : protocol.RadiusPacket) (secret : string) (r : protocol.Rand)
    : option error * bool * outcome unit :=
  let generated := protocol.GenerateMessageAuthenticator P secret r in
  let serialised := protocol.ToBytes (snd (fst generated)) (snd generated) in
  (fst (fst generated), snd (fst (fst serialised)),
   fst (protocol.VerifyMessageAuthenticator
          (protocol.InitialiseHost 1812 1813 3799 dictionary) secret
          (mkSlice (fst (fst (fst serialised))) []) (snd serialised))).

(* ===================================================================== *)
(** ** Values of the repository's tests and inputs of the examples *)
(* ===================================================================== *)

(** The ciphertext of the repository's test of [SaltDecryptData]. *)
Definition salted_password : list byte :=
  bytes_of_ints [133; 154; 227; 136; 52; 73; 242; 30; 20; 76; 118; 200; 178; 26;
                 29; 79; 12; 220].

(** The one-line dictionary [ATTRIBUTE User-Name abc text]. *)
Definition bad_code_file : protocol.File :=
  protocol.mkFile None ["ATTRIBUTE User-Name abc text"%string] None.

(** A dictionary with the attributes of the packets in the repository's
    tests, and the host of those tests. *)
Definition test_dictionary : protocol.Dictionary :=
  let attribute name code type :=
    protocol.mkDictionaryAttribute name EmptyString (uint8 code) type in
  protocol.mkDictionary
    [ attribute "User-Name"%string 1 protocol.AsciiString;
      attribute "User-Password"%string 2 protocol.ByteString;
      attribute "NAS-IP-Address"%string 4 protocol.IPv4Addr;
      attribute "NAS-Port-Id"%string 5 protocol.Integer;
      attribute "Service-Type"%string 6 protocol.Integer;
      attribute "Framed-IP-Address"%string 8 protocol.IPv4Addr;
      attribute "Called-Station-Id"%string 30 protocol.AsciiString;
      attribute "Calling-Station-Id"%string 31 protocol.AsciiString;
      attribute "NAS-Identifier"%string 32 protocol.AsciiString;
      attribute "Message-Authenticator"%string 80 protocol.ByteString ]
    [] [].

Definition test_host : protocol.Host :=
  protocol.InitialiseHost 1812 1813 3799 test_dictionary.

(** The Accounting-Request of the repository's tests, without its last
    three attributes. *)
Definition test_packet : protocol.RadiusPacket :=
  protocol.mkRadiusPacket (uint8 43) protocol.AccountingRequest
    (bytes_of_ints [215; 189; 213; 172; 57; 94; 141; 70; 134; 121; 101; 57; 187;
                    220; 227; 73])
    [ protocol.mkRadiusAttribute (uint8 4) "NAS-IP-Address"
        (bytes_of_ints [192; 168; 1; 10]);
      protocol.mkRadiusAttribute (uint8 5) "NAS-Port-Id" (bytes_of_ints [0; 0; 0; 0]);
      protocol.mkRadiusAttribute (uint8 32) "NAS-Identifier" (bytes_of "trillian") ].

(** The same packet with an empty Message-Authenticator to fill. *)
Definition test_packet_to_sign : protocol.RadiusPacket :=
  protocol.SetAttributes test_packet
    (protocol.pkt_attributes test_packet
     ++ [protocol.mkRadiusAttribute (uint8 80) "Message-Authenticator" []]).

(** A packet with a value of 254 bytes, one more than the length byte can
    hold, and a Message-Authenticator. *)
Definition long_value_packet : protocol.RadiusPacket :=
  protocol.mkRadiusPacket (uint8 1) protocol.AccessRequest (make 16)
    [ protocol.mkRadiusAttribute (uint8 1) "User-Name" (make 254);
      protocol.mkRadiusAttribute (uint8 80) "Message-Authenticator" [] ].

(** Random numbers for the examples: 0, 1, 2, ... *)
Definition counting : protocol.Rand := fun n => Z.of_nat n.

(** The Access-Request with a Message-Authenticator of the repository's
    test of [VerifyMessageAuthenticator]. *)
Definition signed_request : list byte :=
  bytes_of_ints
    [1; 120; 0; 185; 49; 79; 108; 150; 27; 203; 166; 51; 193; 68; 15; 76; 208;
     114; 171; 48; 1; 9; 116; 101; 115; 116; 105; 110; 103; 80; 18; 164; 201;
     132; 0; 209; 101; 200; 189; 252; 251; 120; 224; 74; 190; 232; 197; 2; 66;
     85; 125; 163; 190; 40; 210; 235; 231; 112; 96; 7; 94; 27; 95; 241; 63; 23;
     81; 25; 136; 36; 209; 238; 119; 131; 113; 118; 14; 160; 16; 94; 184; 143;
     37; 193; 138; 124; 238; 85; 197; 21; 17; 206; 158; 87; 132; 239; 59; 82;
     183; 175; 54; 124; 138; 5; 245; 166; 195; 181; 106; 41; 31; 129; 183; 4;
     6; 192; 168; 1; 10; 5; 6; 0; 0; 0; 0; 6; 6; 0; 0; 0; 2; 32; 10; 116; 114;
     105; 108; 108; 105; 97; 110; 30; 19; 48; 48; 45; 48; 52; 45; 53; 70; 45;
     48; 48; 45; 48; 70; 45; 68; 49; 31; 19; 48; 48; 45; 48; 49; 45; 50; 52;
     45; 56; 48; 45; 66; 51; 45; 57; 67; 8; 6; 10; 0; 0; 100].

(** A dictionary in which a vendor attribute with code 80 comes before
    Message-Authenticator. *)
Definition shadowing_dictionary : protocol.Dictionary :=
  protocol.mkDictionary
    (protocol.mkDictionaryAttribute "Vendor-Auth" "Somevendor" (uint8 80)
       protocol.ByteString
     :: protocol.dict_attributes test_dictionary)
    [] [].

(* ===================================================================== *)
(** ** Notions the further properties are stated with *)
(* ===================================================================== *)

(** The buffer [SaltEncryptData] encrypts: the length byte, the data, and
    zero bytes up to the next multiple of 16. *)
Definition saltedPlaintext (data : list byte) : list byte :=
  uint8 (len data) :: data ++ repeat x00 (15 - length data mod 16).

(** The text has no [/]. *)
Fixpoint slashFree (s : string) : bool :=
  match s with
  | EmptyString => true
  | String c r => negb (Ascii.eqb c "/") && slashFree r
  end.


(** The fields a directive needs after its keyword: [ATTRIBUTE] and [VALUE]
    read three, [VENDOR] two, [BEGIN-VENDOR] one. *)
Definition fields_needed (directive : string) : nat :=
  if String.eqb directive "ATTRIBUTE" then 3
  else if String.eqb directive "VALUE" then 3
  else if String.eqb directive "VENDOR" then 2
  else if String.eqb directive "BEGIN-VENDOR" then 1
  else 0.

(** The Accounting-Request of the repository's test of [CreateReplyPacket]. *)
Definition accounting_request : list byte :=
  bytes_of_ints
    [4; 43; 0; 83; 215; 189; 213; 172; 57; 94; 141; 70; 134; 121; 101; 57; 187;
     220; 227; 73; 4; 6; 192; 168; 1; 10; 5; 6; 0; 0; 0; 0; 32; 10; 116; 114;
     105; 108; 108; 105; 97; 110; 30; 19; 48; 48; 45; 48; 52; 45; 53; 70; 45;
     48; 48; 45; 48; 70; 45; 68; 49; 31; 19; 48; 48; 45; 48; 49; 45; 50; 52;
     45; 56; 48; 45; 66; 51; 45; 57; 67; 8; 6; 10; 0; 0; 100].

(* ---- end of the embedding; what follows are the proofs ---- *)

Local Open Scope string_scope.
Local Open Scope list_scope.
Local Open Scope Z_scope.
Local Open Scope go_scope.

(* ===================================================================== *)
(** * Checks of the library models on known values *)
(* ===================================================================== *)

Example md5_empty :
  map int (md5.Sum []) =
  [212; 29; 140; 217; 143; 0; 178; 4; 233; 128; 9; 152; 236; 248; 66; 126].
Proof. vm_compute. reflexivity. Qed.

Example md5_abc :
  map int (md5.Sum (bytes_of "abc")) =
  [144; 1; 80; 152; 60; 210; 79; 176; 214; 150; 63; 125; 40; 225; 127; 114].
Proof. vm_compute. reflexivity. Qed.

Lemma md5_Sum_length (msg : list byte) : length (md5.Sum msg) = 16%nat.
Proof.
  unfold md5.Sum.
  destruct (md5.blocks _ _ _) as [[[a b] c] d]. reflexivity.
Qed.

Example Fields_attribute_line :
  strings.Fields "ATTRIBUTE   User-Name           1   text"
  = ["ATTRIBUTE"; "User-Name"; "1"; "text"]%string.
Proof. reflexivity. Qed.

Example Split_prefix : strings.Split "fc66::1/64" "/" = ["fc66::1"; "64"]%string.
Proof. reflexivity. Qed.

Example Split_empty : strings.Split EmptyString "/" = [EmptyString].
Proof. reflexivity. Qed.

Example ParseUint8_examples :
  strconv.ParseUint8 "255" = Ok 255 /\
  strconv.ParseUint8 "007" = Ok 7 /\
  strconv.ParseUint8 "256" = Err (NumError "ParseUint" "256" ErrRange) /\
  strconv.ParseUint8 "1x" = Err (NumError "ParseUint" "1x" ErrSyntax) /\
  strconv.ParseUint8 EmptyString = Err (NumError "ParseUint" EmptyString ErrSyntax).
Proof. repeat split; reflexivity. Qed.

(* ===================================================================== *)
(** * Bytes, slices and loops *)
(* ===================================================================== *)

Section Bytes.

Lemma int_range (b : byte) : 0 <= int b < 256.
Proof.
  unfold int. pose proof (Byte.to_N_bounded b). lia.
Qed.

Lemma uint8_int (b : byte) : uint8 (int b) = b.
Proof.
  unfold uint8. pose proof (int_range b) as Hr.
  rewrite Z.mod_small by exact Hr.
  unfold int. rewrite N2Z.id, Byte.of_to_N. reflexivity.
Qed.

Lemma int_uint8 (n : Z) : int (uint8 n) = n mod 256.
Proof.
  unfold uint8, int.
  pose proof (Z.mod_pos_bound n 256 ltac:(lia)) as Hr.
  destruct (Byte.of_N (Z.to_N (n mod 256))) as [b|] eqn:E.
  - apply Byte.to_of_N in E. rewrite E. lia.
  - apply Byte.of_N_None_iff in E. lia.
Qed.

Lemma int_inj (a b : byte) : int a = int b -> a = b.
Proof.
  intros H. rewrite <- (uint8_int a), <- (uint8_int b), H. reflexivity.
Qed.

Lemma lxor_byte_bound (x y : N) : (x <= 255 -> y <= 255 -> N.lxor x y <= 255)%N.
Proof.
  intros Hx Hy.
  destruct (N.eq_dec (N.lxor x y) 0) as [E|E]; [rewrite E; lia|].
  assert (N.lxor x y < 2 ^ 8)%N; [|simpl in *; lia].
  apply N.log2_lt_pow2; [lia|].
  eapply N.le_lt_trans; [apply N.log2_lxor|].
  apply N.max_lub_lt.
  - destruct (N.eq_dec x 0) as [->|]; [simpl; lia|].
    apply N.log2_lt_pow2; simpl; lia.
  - destruct (N.eq_dec y 0) as [->|]; [simpl; lia|].
    apply N.log2_lt_pow2; simpl; lia.
Qed.

Lemma to_N_xor8 (a b : byte) :
  Byte.to_N (xor8 a b) = N.lxor (Byte.to_N a) (Byte.to_N b).
Proof.
  unfold xor8.
  destruct (Byte.of_N _) as [c|] eqn:E.
  - apply Byte.to_of_N in E. exact E.
  - apply Byte.of_N_None_iff in E.
    pose proof (lxor_byte_bound _ _ (Byte.to_N_bounded a) (Byte.to_N_bounded b)).
    lia.
Qed.

Lemma to_N_inj (a b : byte) : Byte.to_N a = Byte.to_N b -> a = b.
Proof.
  intros H. pose proof (Byte.of_to_N a) as Ha. rewrite H, Byte.of_to_N in Ha.
  congruence.
Qed.

(** Decryption undoes encryption byte by byte: [h ^ (p ^ h) = p]. *)
Lemma xor8_cancel (h p : byte) : xor8 h (xor8 p h) = p.
Proof.
  apply to_N_inj. rewrite !to_N_xor8.
  rewrite N.lxor_comm, N.lxor_assoc, N.lxor_nilpotent, N.lxor_0_r. reflexivity.
Qed.

Lemma xor8_zero_l (h : byte) : xor8 x00 h = h.
Proof.
  apply to_N_inj. rewrite to_N_xor8. simpl (Byte.to_N x00). apply N.lxor_0_l.
Qed.

Lemma xor8_self (h : byte) : xor8 h h = x00.
Proof.
  apply to_N_inj. rewrite to_N_xor8, N.lxor_nilpotent. reflexivity.
Qed.

Lemma byte_eqb_eq (a b : byte) : Byte.eqb a b = true <-> a = b.
Proof.
  split; [apply Byte.byte_dec_bl | apply Byte.byte_dec_lb].
Qed.

Lemma byte_eqb_neq (a b : byte) : Byte.eqb a b = false <-> a <> b.
Proof.
  split.
  - apply Byte.eqb_false.
  - intros H. destruct (Byte.eqb a b) eqn:E; [|reflexivity].
    apply byte_eqb_eq in E. contradiction.
Qed.

Lemma bytes_eqb_refl (a : list byte) : hmac.bytes_eqb a a = true.
Proof.
  induction a as [|x a IH]; simpl; [reflexivity|].
  rewrite IH, (proj2 (byte_eqb_eq x x) eq_refl). reflexivity.
Qed.

End Bytes.

Section Slices.

Context {A : Type}.

Lemma len_nonneg (s : list A) : 0 <= len s.
Proof. unfold len. lia. Qed.

Lemma len_app (s t : list A) : len (s ++ t) = len s + len t.
Proof. unfold len. rewrite length_app. lia. Qed.

Lemma index_app_head (s t : list A) (x : A) :
  index (s ++ x :: t) (len s) = Ok x.
Proof.
  unfold index. rewrite len_app.
  assert (H : (0 <=? len s) && (len s <? len s + len (x :: t)) = true).
  { unfold len. simpl length.
    apply andb_true_iff; split; [apply Z.leb_le | apply Z.ltb_lt]; lia. }
  rewrite H. unfold len.
  rewrite Nat2Z.id, nth_error_app2, Nat.sub_diag by lia. reflexivity.
Qed.

Lemma index_out (s : list A) (i : Z) :
  i < 0 \/ len s <= i -> index s i = Panic (IndexOutOfRange i (len s)).
Proof.
  intros H. unfold index.
  destruct (0 <=? i) eqn:E1; simpl; [|reflexivity].
  destruct (i <? len s) eqn:E2; [|reflexivity].
  apply Z.leb_le in E1. apply Z.ltb_lt in E2. lia.
Qed.

Lemma index_in (s : list A) (i : Z) :
  0 <= i < len s -> exists x, index s i = Ok x /\ nth_error s (Z.to_nat i) = Some x.
Proof.
  intros H. unfold index.
  replace (0 <=? i) with true by (symmetry; apply Z.leb_le; lia).
  replace (i <? len s) with true by (symmetry; apply Z.ltb_lt; lia).
  simpl. destruct (nth_error s (Z.to_nat i)) as [x|] eqn:E.
  - exists x. split; reflexivity.
  - apply nth_error_None in E. unfold len in H. lia.
Qed.

Lemma slice_ok (s : list A) (lo hi : Z) :
  0 <= lo <= hi -> hi <= len s -> slice s lo hi = Ok (sub s lo hi).
Proof.
  intros H1 H2. unfold slice.
  replace (0 <=? lo) with true by (symmetry; apply Z.leb_le; lia).
  replace (lo <=? hi) with true by (symmetry; apply Z.leb_le; lia).
  replace (hi <=? len s) with true by (symmetry; apply Z.leb_le; lia).
  reflexivity.
Qed.

Lemma slice_out (s : list A) (lo hi : Z) :
  lo < 0 \/ hi < lo \/ len s < hi ->
  slice s lo hi = Panic (SliceOutOfRange lo hi (len s)).
Proof.
  intros H. unfold slice.
  destruct (0 <=? lo) eqn:E1; simpl; [|reflexivity].
  destruct (lo <=? hi) eqn:E2; simpl; [|reflexivity].
  destruct (hi <=? len s) eqn:E3; simpl; [|reflexivity].
  apply Z.leb_le in E1, E2, E3. lia.
Qed.

Lemma sub_prefix (s : list A) (n : Z) :
  0 <= n -> sub s 0 n = firstn (Z.to_nat n) s.
Proof.
  intros H. unfold sub. rewrite Z.sub_0_r. reflexivity.
Qed.

Lemma sub_suffix (s : list A) (n : Z) :
  0 <= n -> sub s n (len s) = skipn (Z.to_nat n) s.
Proof.
  intros H. unfold sub, len.
  apply firstn_all2. rewrite length_skipn. lia.
Qed.

Lemma sub_app_l (s t : list A) : sub (s ++ t) 0 (len s) = s.
Proof.
  unfold sub, len. rewrite Z.sub_0_r, Nat2Z.id. simpl.
  rewrite firstn_app, Nat.sub_diag, firstn_all. simpl. apply app_nil_r.
Qed.

Lemma sub_app_r (s t : list A) : sub (s ++ t) (len s) (len s + len t) = t.
Proof.
  unfold sub, len. rewrite Nat2Z.id.
  replace (Z.to_nat (Z.of_nat (length s) + Z.of_nat (length t) - Z.of_nat (length s)))
    with (length t) by lia.
  rewrite skipn_app, skipn_all, Nat.sub_diag. simpl. apply firstn_all.
Qed.

End Slices.

Section Loops.

Import tools.

Lemma xorl_length (a b : list byte) :
  length (xorl a b) = Nat.min (length a) (length b).
Proof.
  revert b. induction a as [|x a IH]; intros [|y b]; simpl; auto.
Qed.

Lemma xorl_cancel (h p : list byte) :
  length p = length h -> xorl h (xorl p h) = p.
Proof.
  revert h. induction p as [|x p IH]; intros [|y h] H; simpl in *; try discriminate.
  - reflexivity.
  - rewrite xor8_cancel, IH by lia. reflexivity.
Qed.

Lemma xorl_zeros_l (h : list byte) (n : nat) :
  (length h <= n)%nat -> xorl (repeat x00 n) h = h.
Proof.
  revert n. induction h as [|y h IH]; intros [|n] H; simpl in *; try lia; try reflexivity.
  rewrite xor8_zero_l, IH by lia. reflexivity.
Qed.

Lemma xorl_self (h : list byte) : xorl h h = repeat x00 (length h).
Proof.
  induction h as [|y h IH]; simpl; [reflexivity|].
  rewrite xor8_self, IH. reflexivity.
Qed.

Lemma set_nth_app (s t : list byte) (y x : byte) :
  set_nth (s ++ y :: t) (length s) x = s ++ x :: t.
Proof.
  induction s as [|z s IH]; simpl; [reflexivity|]. rewrite IH. reflexivity.
Qed.

(** The loop [data[i] ^= hash[i]] from position [len d1] on. *)
Lemma for_range_xor_data (h2 h1 d1 d2 : list byte) :
  length d1 = length h1 -> (length h2 <= length d2)%nat ->
  for_range (length h2) (len h1)
    (fun i data =>
       d <- index data i ;;
       h <- index (h1 ++ h2) i ;;
       Ok (set_nth data (Z.to_nat i) (xor8 d h)))
    (d1 ++ d2)
  = Ok (d1 ++ xorl d2 h2 ++ skipn (length h2) d2).
Proof.
  revert h1 d1 d2. induction h2 as [|h h2 IH]; intros h1 d1 d2 Hl Hle.
  - simpl. destruct d2; reflexivity.
  - destruct d2 as [|d d2]; [simpl in Hle; lia|].
    simpl for_range.
    assert (Hlen : len h1 = len d1) by (unfold len; lia).
    rewrite index_app_head. rewrite Hlen, index_app_head. simpl bind.
    replace (Z.to_nat (len d1)) with (length d1) by (unfold len; lia).
    rewrite set_nth_app.
    specialize (IH (h1 ++ [h]) (d1 ++ [xor8 d h]) d2).
    rewrite len_app in IH. change (len [h]) with 1 in IH.
    rewrite <- !app_assoc in IH. simpl app in IH.
    rewrite Hlen in IH. rewrite IH.
    + reflexivity.
    + rewrite !length_app. simpl. lia.
    + simpl in Hle. lia.
Qed.

Lemma xor_into_data_ok (data hash : list byte) :
  (length hash <= length data)%nat ->
  xor_into_data data hash = Ok (xorl data hash ++ skipn (length hash) data).
Proof.
  intros H. unfold xor_into_data.
  apply (for_range_xor_data hash [] [] data eq_refl H).
Qed.

(** The loop [hash[i] ^= data[i]] from position [len h1] on. *)
Lemma for_range_xor_hash (h2 h1 d1 d2 : list byte) :
  length d1 = length h1 -> (length h2 <= length d2)%nat ->
  for_range (length h2) (len h1)
    (fun i hash =>
       h <- index hash i ;;
       d <- index (d1 ++ d2) i ;;
       Ok (set_nth hash (Z.to_nat i) (xor8 h d)))
    (h1 ++ h2)
  = Ok (h1 ++ xorl h2 d2).
Proof.
  revert h1 d1 d2. induction h2 as [|h h2 IH]; intros h1 d1 d2 Hl Hle.
  - reflexivity.
  - destruct d2 as [|d d2]; [simpl in Hle; lia|].
    simpl for_range.
    assert (Hlen : len h1 = len d1) by (unfold len; lia).
    rewrite index_app_head. rewrite Hlen, index_app_head. simpl bind.
    replace (Z.to_nat (len d1)) with (length h1) by (unfold len; lia).
    rewrite set_nth_app. rewrite <- Hlen.
    specialize (IH (h1 ++ [xor8 h d]) (d1 ++ [d]) d2).
    rewrite len_app in IH. change (len [xor8 h d]) with 1 in IH.
    rewrite <- !app_assoc in IH. simpl app in IH.
    rewrite IH.
    + reflexivity.
    + rewrite !length_app. simpl. lia.
    + simpl in Hle. lia.
Qed.

Lemma xor_into_hash_ok (hash data : list byte) :
  (length hash <= length data)%nat ->
  xor_into_hash hash data = Ok (xorl hash data).
Proof.
  intros H. unfold xor_into_hash.
  apply (for_range_xor_hash hash [] [] data eq_refl H).
Qed.

(** With fewer bytes of data than of hash the loop reads past the end. *)
Lemma for_range_xor_hash_short (d2 h2 h1 d1 : list byte) :
  length d1 = length h1 -> (length d2 < length h2)%nat ->
  for_range (length h2) (len h1)
    (fun i hash =>
       h <- index hash i ;;
       d <- index (d1 ++ d2) i ;;
       Ok (set_nth hash (Z.to_nat i) (xor8 h d)))
    (h1 ++ h2)
  = Panic (IndexOutOfRange (len (d1 ++ d2)) (len (d1 ++ d2))).
Proof.
  revert h2 h1 d1. induction d2 as [|d d2 IH]; intros h2 h1 d1 Hl Hlt.
  - destruct h2 as [|h h2]; [simpl in Hlt; lia|].
    simpl for_range. rewrite index_app_head. simpl bind.
    rewrite app_nil_r.
    assert (Hlen : len h1 = len d1) by (unfold len; lia).
    rewrite Hlen, index_out by lia. reflexivity.
  - destruct h2 as [|h h2]; [simpl in Hlt; lia|].
    simpl for_range.
    assert (Hlen : len h1 = len d1) by (unfold len; lia).
    rewrite index_app_head. rewrite Hlen, index_app_head. simpl bind.
    replace (Z.to_nat (len d1)) with (length h1) by (unfold len; lia).
    rewrite set_nth_app. rewrite <- Hlen.
    specialize (IH h2 (h1 ++ [xor8 h d]) (d1 ++ [d])).
    rewrite len_app in IH. change (len [xor8 h d]) with 1 in IH.
    rewrite <- !app_assoc in IH. simpl app in IH.
    rewrite IH.
    + reflexivity.
    + rewrite !length_app. simpl. lia.
    + simpl in Hlt. lia.
Qed.

Lemma xor_into_hash_short (hash data : list byte) :
  (length data < length hash)%nat ->
  xor_into_hash hash data = Panic (IndexOutOfRange (len data) (len data)).
Proof.
  intros H. unfold xor_into_hash.
  apply (for_range_xor_hash_short data hash [] [] eq_refl H).
Qed.

End Loops.

(* ===================================================================== *)
(** * User-Password obscuring: EncryptData and DecryptData *)
(* ===================================================================== *)

Section Obscuring.

Import tools.

Local Arguments firstn : simpl never.
Local Arguments skipn : simpl never.

Lemma copy_same_length (dst src : list byte) :
  length dst = length src -> copy dst src = src.
Proof.
  intros H. unfold copy. rewrite H, firstn_all, skipn_all2 by lia.
  apply app_nil_r.
Qed.

Lemma len_mod16 (l : list byte) : len l mod 16 = Z.of_nat (length l mod 16).
Proof.
  unfold len. change 16 with (Z.of_nat 16). symmetry. apply Nat2Z.inj_mod.
Qed.

Lemma make_length (n : Z) : length (make n) = Z.to_nat n.
Proof. unfold make. apply repeat_length. Qed.

Lemma slice_head (c rest : list byte) (k : Z) :
  len c = k -> slice (c ++ rest) 0 k = Ok c.
Proof.
  intros <-. rewrite slice_ok, sub_app_l; [reflexivity| |].
  - pose proof (len_nonneg c). lia.
  - rewrite len_app. pose proof (len_nonneg rest). lia.
Qed.

Lemma slice_tail (c rest : list byte) (k : Z) :
  len c = k -> slice (c ++ rest) k (len (c ++ rest)) = Ok rest.
Proof.
  intros <-. rewrite slice_ok, len_app, sub_app_r; [reflexivity| |].
  - pose proof (len_nonneg c). pose proof (len_nonneg rest). rewrite len_app. lia.
  - lia.
Qed.

Lemma slice_prefix (s : list byte) (n : Z) :
  0 <= n <= len s -> slice s 0 n = Ok (firstn (Z.to_nat n) s).
Proof.
  intros H. rewrite slice_ok, sub_prefix by lia. reflexivity.
Qed.

Lemma slice_suffix (s : list byte) (n : Z) :
  0 <= n <= len s -> slice s n (len s) = Ok (skipn (Z.to_nat n) s).
Proof.
  intros H. rewrite slice_ok, sub_suffix by lia. reflexivity.
Qed.

Lemma xorl_firstn (a b : list byte) :
  xorl a b = xorl (firstn (length b) a) b.
Proof.
  revert b. induction a as [|x a IH]; intros [|y b]; simpl; try reflexivity.
  rewrite <- IH. reflexivity.
Qed.

Lemma xorl_firstn_r (a b : list byte) :
  xorl a b = xorl a (firstn (length a) b).
Proof.
  revert b. induction a as [|x a IH]; intros [|y b]; simpl; try reflexivity.
  rewrite <- IH. reflexivity.
Qed.

Lemma encryptChain_length (n : nat) (secret prev data : list byte) :
  (16 * n <= length data)%nat ->
  length (encryptChain n secret prev data) = (16 * n)%nat.
Proof.
  revert prev data. induction n as [|n IH]; intros prev data H; [reflexivity|].
  cbn [encryptChain]. rewrite length_app, xorl_length, length_firstn, md5_Sum_length.
  rewrite IH by (rewrite length_skipn; lia). lia.
Qed.

Lemma decryptChain_length (n : nat) (secret prev data : list byte) :
  (16 * n <= length data)%nat ->
  length (decryptChain n secret prev data) = (16 * n)%nat.
Proof.
  revert prev data. induction n as [|n IH]; intros prev data H; [reflexivity|].
  cbn [decryptChain]. rewrite length_app, xorl_length, md5_Sum_length, length_firstn.
  rewrite IH by (rewrite length_skipn; lia). lia.
Qed.

(** Decryption with the same secret and authenticator undoes encryption. *)
Lemma decryptChain_encryptChain (n : nat) (secret prev data : list byte) :
  length data = (16 * n)%nat ->
  decryptChain n secret prev (encryptChain n secret prev data) = data.
Proof.
  revert prev data. induction n as [|n IH]; intros prev data H.
  - destruct data; [reflexivity | simpl in H; lia].
  - cbn [encryptChain]. cbn [decryptChain].
    set (h := md5.Sum (secret ++ prev)).
    assert (Hh : length h = 16%nat) by apply md5_Sum_length.
    assert (Hc : length (xorl (firstn 16 data) h) = 16%nat)
      by (rewrite xorl_length, length_firstn; lia).
    rewrite firstn_app, Hc, Nat.sub_diag, firstn_all2 by lia.
    rewrite firstn_O, app_nil_r.
    rewrite skipn_app, Hc, Nat.sub_diag, skipn_all2 by lia.
    rewrite skipn_O. cbn [app].
    rewrite xorl_cancel by (rewrite length_firstn; lia).
    rewrite IH by (rewrite length_skipn; lia).
    apply firstn_skipn.
Qed.

(** The loop of [encryptHelper] computes the chain, block after block. *)
Lemma encryptLoop_chain (n : nat) :
  forall fuel output data authenticator hash secret tmp iteration,
  length data = (16 * S n)%nat -> (S n <= fuel)%nat ->
  length hash = 16%nat -> length tmp = 16%nat -> 1 <= iteration ->
  exists hash',
    encryptLoop fuel output data authenticator hash secret tmp iteration
    = Ok (output ++ encryptChain (S n) secret
                      (if iteration =? 1 then authenticator else tmp) data,
          [], hash').
Proof.
  induction n as [|n IH];
    intros fuel output data authenticator hash secret tmp iteration
           Hd Hf Hh Ht Hi;
    (destruct fuel as [|fuel]; [lia|]); cbn [encryptLoop];
    set (h := md5.Sum (secret ++ (if iteration =? 1 then authenticator else tmp)));
    assert (Hlh : length h = 16%nat) by apply md5_Sum_length;
    rewrite (copy_same_length hash h) by lia;
    rewrite xor_into_data_ok by lia; simpl bind;
    rewrite Hlh, (xorl_firstn data h), Hlh;
    set (c := xorl (firstn 16 data) h);
    assert (Hc : length c = 16%nat)
      by (unfold c; rewrite xorl_length, length_firstn; lia).
  - assert (Hs : skipn 16 data = []) by (apply skipn_all2; lia).
    rewrite Hs, app_nil_r.
    rewrite (slice_ok c 0 16) by (unfold len; lia). simpl bind.
    replace (len c =? 16) with true by (symmetry; apply Z.eqb_eq; unfold len; lia).
    rewrite (slice_ok c 0 0) by (unfold len; lia). simpl bind.
    exists h. unfold encryptChain. fold h. fold c.
    rewrite app_nil_r, sub_prefix, firstn_all2 by lia.
    reflexivity.
  - assert (Hs : length (skipn 16 data) = (16 * S n)%nat)
      by (rewrite length_skipn; lia).
    assert (Hlc : len c = 16) by (unfold len; lia).
    rewrite (slice_head c _ 16 Hlc). simpl bind.
    replace (len (c ++ skipn 16 data) =? 16) with false
      by (symmetry; apply Z.eqb_neq; rewrite len_app; unfold len; lia).
    rewrite (slice_tail c _ 16 Hlc). simpl bind.
    replace (len (skipn 16 data) =? 0) with false
      by (symmetry; apply Z.eqb_neq; unfold len; lia).
    rewrite (copy_same_length tmp c) by lia.
    destruct (IH fuel (output ++ c) (skipn 16 data) authenticator h secret c
                 (iteration + 1) Hs ltac:(lia) Hlh Hc ltac:(lia)) as [hash' E].
    rewrite E. exists hash'.
    replace (iteration + 1 =? 1) with false by (symmetry; apply Z.eqb_neq; lia).
    rewrite <- app_assoc. reflexivity.
Qed.

(** The padded buffer [initialData] that [EncryptData] builds. *)
Lemma padded_copy (data : list byte) (p : nat) :
  copy (sub (repeat x00 (length data) ++ repeat x00 p) 0 (len data)) data
  ++ sub (repeat x00 (length data) ++ repeat x00 p) (len data)
         (len (repeat x00 (length data) ++ repeat x00 p))
  = data ++ repeat x00 p.
Proof.
  assert (Hr : len data = len (repeat x00 (length data)))
    by (unfold len; rewrite repeat_length; reflexivity).
  rewrite len_app, Hr, sub_app_l, sub_app_r.
  rewrite copy_same_length by apply repeat_length. reflexivity.
Qed.

Lemma padding_copy (data : list byte) (p : nat) :
  (p <= 16)%nat ->
  sub (data ++ repeat x00 p) 0 (len data)
  ++ copy (sub (data ++ repeat x00 p) (len data) (len (data ++ repeat x00 p)))
          (sub (make 16) 0 (Z.of_nat p))
  = data ++ repeat x00 p.
Proof.
  intros Hp.
  rewrite len_app, sub_app_l, sub_app_r.
  rewrite sub_prefix, Nat2Z.id by lia.
  assert (E : firstn p (make 16) = repeat x00 p).
  { unfold make. replace (Z.to_nat 16) with (p + (16 - p))%nat by lia.
    rewrite repeat_app, firstn_app, repeat_length, Nat.sub_diag, firstn_O, app_nil_r.
    apply firstn_all2. rewrite repeat_length. lia. }
  rewrite E, copy_same_length; reflexivity.
Qed.

(** [EncryptData] pads the plaintext with [16 - len mod 16] zero bytes and
    runs the chain on the blocks. *)
Lemma EncryptData_chain (data authenticator secret : list byte) :
  EncryptData data authenticator secret
  = Ok (encryptChain (S (length data / 16)) secret authenticator
          (data ++ repeat x00 (16 - length data mod 16))).
Proof.
  unfold EncryptData. cbv zeta.
  set (p := (16 - length data mod 16)%nat).
  pose proof (Nat.mod_upper_bound (length data) 16 ltac:(lia)) as Hmod.
  assert (Hp : 16 - len data mod 16 = Z.of_nat p)
    by (unfold p; rewrite len_mod16; lia).
  rewrite Hp.
  assert (Hm : make (len data + Z.of_nat p)
               = repeat x00 (length data) ++ repeat x00 p).
  { unfold make. rewrite <- repeat_app. f_equal. unfold len. lia. }
  rewrite Hm.
  rewrite (slice_ok (make 16) 0 (Z.of_nat p))
    by (unfold len; rewrite ?make_length; lia).
  cbn [bind].
  rewrite (padded_copy data p).
  rewrite (padding_copy data p) by lia.
  unfold encryptHelper.
  set (initialData := data ++ repeat x00 p).
  assert (Hlen : length initialData = (16 * S (length data / 16))%nat).
  { unfold initialData, p. rewrite length_app, repeat_length.
    pose proof (Nat.div_mod_eq (length data) 16). lia. }
  destruct (encryptLoop_chain (length data / 16) (S (length initialData)) []
              initialData authenticator (make 16) secret (make 16) 1
              Hlen ltac:(lia) (make_length 16) (make_length 16) ltac:(lia))
    as [hash' E].
  rewrite E. cbn [bind]. rewrite Z.eqb_refl. reflexivity.
Qed.

(** The first loop of [DecryptData] computes the chain. *)
Lemma decryptLoop_chain (n : nat) :
  forall fuel result data prevResult hash secret,
  length data = (16 * S n)%nat -> (S n <= fuel)%nat ->
  length hash = 16%nat -> length prevResult = 16%nat ->
  decryptLoop fuel result data prevResult hash secret
  = Ok (result ++ decryptChain (S n) secret prevResult data).
Proof.
  induction n as [|n IH];
    intros fuel result data prevResult hash secret Hd Hf Hh Hp;
    (destruct fuel as [|fuel]; [lia|]); cbn [decryptLoop];
    set (h := md5.Sum (secret ++ prevResult));
    assert (Hlh : length h = 16%nat) by apply md5_Sum_length;
    rewrite (copy_same_length hash h) by lia;
    rewrite xor_into_hash_ok by lia; cbn [bind];
    rewrite (xorl_firstn_r h data), Hlh;
    set (p := xorl h (firstn 16 data));
    rewrite (slice_prefix data 16), (slice_suffix data 16) by (unfold len; lia);
    cbn [bind]; change (Z.to_nat 16) with 16%nat.
  - assert (Hs : skipn 16 data = []) by (apply skipn_all2; lia).
    rewrite Hs. cbn [decryptChain]. fold h. fold p.
    rewrite app_nil_r. reflexivity.
  - assert (Hs : length (skipn 16 data) = (16 * S n)%nat)
      by (rewrite length_skipn; lia).
    replace (len (skipn 16 data) =? 0) with false
      by (symmetry; apply Z.eqb_neq; unfold len; lia).
    rewrite (copy_same_length prevResult) by (rewrite length_firstn; lia).
    rewrite IH by (unfold p; rewrite ?xorl_length, ?length_firstn; lia).
    cbn [decryptChain]. fold h. fold p.
    rewrite <- app_assoc. reflexivity.
Qed.

(** The second loop of [DecryptData] on a buffer that ends in a non-zero
    byte followed by [k] zero bytes. *)
Lemma stripLoop_padded (k : nat) (body : list byte) (b : byte) (fuel : nat) :
  b <> x00 -> (k < fuel)%nat ->
  stripLoop fuel (body ++ [b] ++ repeat x00 k) = Ok (body ++ [b]).
Proof.
  intros Hb. revert fuel. induction k as [|k IH]; intros fuel Hf;
    (destruct fuel as [|fuel]; [lia|]); cbn [stripLoop].
  - cbn [repeat app]. rewrite len_app. change (len [b]) with 1.
    replace (len body + 1 - 1) with (len body) by lia.
    rewrite index_app_head. cbn [bind].
    rewrite (proj2 (byte_eqb_neq b x00) Hb). reflexivity.
  - replace (body ++ [b] ++ repeat x00 (S k))
      with ((body ++ [b] ++ repeat x00 k) ++ [x00]).
    2:{ rewrite <- !app_assoc. do 2 f_equal.
        change (repeat x00 k ++ [x00] = repeat x00 (1 + k)).
        rewrite Nat.add_comm, repeat_app. reflexivity. }
    rewrite len_app. change (len [x00]) with 1.
    replace (len (body ++ [b] ++ repeat x00 k) + 1 - 1)
      with (len (body ++ [b] ++ repeat x00 k)) by lia.
    rewrite index_app_head. cbn [bind]. change (Byte.eqb x00 x00) with true.
    cbv iota.
    rewrite (slice_head _ _ _ eq_refl). cbn [bind].
    apply IH. lia.
Qed.

(** The second loop on a buffer of zero bytes only: it empties the buffer
    and then reads position -1. *)
Lemma stripLoop_zeros (k : nat) (fuel : nat) :
  (k < fuel)%nat ->
  stripLoop fuel (repeat x00 k) = Panic (IndexOutOfRange (-1) 0).
Proof.
  revert fuel. induction k as [|k IH]; intros fuel Hf;
    (destruct fuel as [|fuel]; [lia|]); cbn [stripLoop].
  - reflexivity.
  - replace (repeat x00 (S k)) with (repeat x00 k ++ [x00]).
    2:{ change (repeat x00 k ++ [x00] = repeat x00 (1 + k)).
        rewrite Nat.add_comm, repeat_app. reflexivity. }
    rewrite len_app. change (len [x00]) with 1.
    replace (len (repeat x00 k) + 1 - 1) with (len (repeat x00 k)) by lia.
    rewrite index_app_head. cbn [bind]. change (Byte.eqb x00 x00) with true.
    cbv iota.
    rewrite (slice_head _ _ _ eq_refl). cbn [bind].
    apply IH. lia.
Qed.

Lemma all_zero_repeat (l : list byte) :
  Forall (fun b => b = x00) l -> l = repeat x00 (length l).
Proof.
  induction 1 as [|b l Hb Hl IH]; [reflexivity|].
  cbn [length repeat]. rewrite <- IH, Hb. reflexivity.
Qed.

End Obscuring.

(* ===================================================================== *)
(** * Claims on EncryptData and DecryptData *)
(* ===================================================================== *)

Lemma EncryptData_length (P A K : list byte) :
  exists c, tools.EncryptData P A K = Ok c /\ len c = len P + (16 - len P mod 16).
Proof.
  rewrite EncryptData_chain. eexists; split; [reflexivity|].
  unfold len. rewrite encryptChain_length.
  - change 16 with (Z.of_nat 16) at 2. rewrite <- Nat2Z.inj_mod.
    pose proof (Nat.div_mod_eq (length P) 16).
    pose proof (Nat.mod_upper_bound (length P) 16 ltac:(lia)). lia.
  - rewrite length_app, repeat_length.
    pose proof (Nat.div_mod_eq (length P) 16).
    pose proof (Nat.mod_upper_bound (length P) 16 ltac:(lia)). lia.
Qed.

(** C3. For every plaintext [P] of one byte or more whose last byte is not
    zero, every authenticator [A] of 16 bytes and every secret [K],
    [EncryptData] returns a ciphertext and [DecryptData] of that ciphertext
    with the same [A] and [K] returns [P]. *)
Theorem C3_DecryptData_EncryptData (P A K : list byte) :
  1 <= len P -> last P x00 <> x00 -> len A = 16 ->
  exists c, tools.EncryptData P A K = Ok c /\ tools.DecryptData c A K = Ok P.
Proof.
  intros HP Hlast HA.
  rewrite EncryptData_chain. eexists; split; [reflexivity|].
  set (n := (length P / 16)%nat). set (p := (16 - length P mod 16)%nat).
  pose proof (Nat.div_mod_eq (length P) 16) as Hdm.
  pose proof (Nat.mod_upper_bound (length P) 16 ltac:(lia)) as Hmod.
  assert (Hlen : length (P ++ repeat x00 p) = (16 * S n)%nat)
    by (unfold n, p; rewrite length_app, repeat_length; lia).
  unfold tools.DecryptData.
  rewrite copy_same_length by (rewrite make_length; unfold len in HA; lia).
  rewrite (decryptLoop_chain n)
    by (rewrite ?encryptChain_length, ?make_length; unfold len in HA; lia).
  cbn [bind app].
  rewrite decryptChain_encryptChain by exact Hlen.
  assert (HP' : P <> []) by (intros ->; unfold len in HP; simpl in HP; lia).
  rewrite (app_removelast_last x00 HP') at 1 2.
  rewrite <- app_assoc.
  rewrite stripLoop_padded.
  - rewrite <- app_removelast_last by exact HP'. reflexivity.
  - exact Hlast.
  - rewrite !length_app, repeat_length. simpl. lia.
Qed.

Lemma C3_witness :
  let P := bytes_of "password" in
  let A := bytes_of_ints [1; 2; 3; 4; 5; 6; 7; 8; 9; 10; 11; 12; 13; 14; 15; 16] in
  let K := bytes_of "secret" in
  exists c, tools.EncryptData P A K = Ok c /\ tools.DecryptData c A K = Ok P.
Proof.
  intros P A K. apply (C3_DecryptData_EncryptData P A K).
  - vm_compute. discriminate.
  - vm_compute. discriminate.
  - reflexivity.
Defined.

(** C4, as stated, fails on a plaintext of 16 bytes: the ciphertext has 32
    bytes, not [ceil(16/16)*16 = 16]. *)
Lemma C4_counterexample :
  let P := bytes_of "0123456789abcdef" in
  let A := make 16 in
  let K := bytes_of "secret" in
  1 <= len P /\ len A = 16 /\ ceil16 (len P) = 16 /\
  exists c, tools.EncryptData P A K = Ok c /\ len c = 32.
Proof.
  intros P A K. repeat split.
  - vm_compute. discriminate.
  - eexists. split; [vm_compute; reflexivity | reflexivity].
Qed.

(** C4, amended. For every plaintext [P] of one byte or more, every
    authenticator of 16 bytes and every secret, [EncryptData] returns
    [|P| + (16 - |P| mod 16)] bytes: the smallest multiple of 16 that is at
    least [|P|] when [|P|] is not a multiple of 16, and [|P| + 16] when it
    is. *)
Theorem C4_EncryptData_length (P A K : list byte) :
  1 <= len P -> len A = 16 ->
  exists c, tools.EncryptData P A K = Ok c /\
    len c = len P + (16 - len P mod 16) /\
    (len P mod 16 <> 0 -> len c = ceil16 (len P)) /\
    (len P mod 16 = 0 -> len c = len P + 16).
Proof.
  intros _ _. destruct (EncryptData_length P A K) as [c [E L]].
  exists c. split; [exact E|]. split; [exact L|]. unfold ceil16.
  pose proof (Z.mod_pos_bound (len P) 16 ltac:(lia)).
  split; intros H0; rewrite L.
  - pose proof (Z.div_mod (len P) 16 ltac:(lia)).
    pose proof (Z.div_mod (len P + 15) 16 ltac:(lia)).
    pose proof (Z.mod_pos_bound (len P + 15) 16 ltac:(lia)).
    lia.
  - rewrite H0. lia.
Qed.

Lemma C4_witness :
  let P := bytes_of "0123456789abcdef" in
  exists c, tools.EncryptData P (make 16) (bytes_of "secret") = Ok c /\
    len c = len P + (16 - len P mod 16) /\
    (len P mod 16 <> 0 -> len c = ceil16 (len P)) /\
    (len P mod 16 = 0 -> len c = len P + 16).
Proof.
  intros P. apply (C4_EncryptData_length P (make 16) (bytes_of "secret")).
  - vm_compute. discriminate.
  - reflexivity.
Defined.

(** [DecryptData] on a ciphertext whose chain yields zero bytes only. *)
Lemma DecryptData_zero_chain (n : nat) (data A K : list byte) :
  length data = (16 * S n)%nat ->
  Forall (fun b => b = x00) (decryptChain (S n) K (copy (make 16) A) data) ->
  tools.DecryptData data A K = Panic (IndexOutOfRange (-1) 0).
Proof.
  intros Hd Hz. unfold tools.DecryptData.
  rewrite (decryptLoop_chain n) by
    (rewrite ?make_length; try lia;
     unfold copy; rewrite length_app, length_firstn, length_skipn, make_length; lia).
  cbn [bind app].
  rewrite (all_zero_repeat _ Hz), repeat_length.
  apply stripLoop_zeros. lia.
Qed.

(** The ciphertext of a plaintext of zero bytes is such an input: what
    [EncryptData] returns for it, [DecryptData] cannot decrypt. *)
Lemma DecryptData_zero_plaintext (P A K : list byte) :
  len A = 16 -> Forall (fun b => b = x00) P ->
  exists c, tools.EncryptData P A K = Ok c /\
            tools.DecryptData c A K = Panic (IndexOutOfRange (-1) 0).
Proof.
  intros HA HP.
  rewrite EncryptData_chain. eexists; split; [reflexivity|].
  set (n := (length P / 16)%nat). set (p := (16 - length P mod 16)%nat).
  pose proof (Nat.div_mod_eq (length P) 16) as Hdm.
  pose proof (Nat.mod_upper_bound (length P) 16 ltac:(lia)) as Hmod.
  assert (Hlen : length (P ++ repeat x00 p) = (16 * S n)%nat)
    by (unfold n, p; rewrite length_app, repeat_length; lia).
  apply (DecryptData_zero_chain n).
  - apply encryptChain_length. lia.
  - rewrite copy_same_length by (rewrite make_length; unfold len in HA; lia).
    rewrite decryptChain_encryptChain by exact Hlen.
    apply Forall_app. split; [exact HP|].
    apply Forall_forall. intros b Hb. apply repeat_spec in Hb. exact Hb.
Qed.

(** C9. [DecryptData] faults when the recovered plaintext has no non-zero
    byte: for every ciphertext of one or more blocks of 16 bytes, every
    authenticator and every secret for which the decryption chain yields
    zero bytes only, the loop that strips the trailing zeros empties the
    result and then reads position -1 (index out of range), where an empty
    plaintext or an error would be expected. *)
Theorem C9_DecryptData_all_zero_faults (n : nat) (data A K : list byte) :
  length data = (16 * S n)%nat ->
  Forall (fun b => b = x00) (decryptChain (S n) K (copy (make 16) A) data) ->
  tools.DecryptData data A K = Panic (IndexOutOfRange (-1) 0).
Proof.
  exact (DecryptData_zero_chain n data A K).
Qed.

(** The 16 bytes [MD5("secret" || 1, 2, ..., 16)] are the ciphertext of 16
    zero bytes. *)
Lemma C9_witness :
  let A := bytes_of_ints [1; 2; 3; 4; 5; 6; 7; 8; 9; 10; 11; 12; 13; 14; 15; 16] in
  let K := bytes_of "secret" in
  tools.DecryptData (md5.Sum (K ++ A)) A K = Panic (IndexOutOfRange (-1) 0).
Proof.
  intros A K. apply (C9_DecryptData_all_zero_faults 0 (md5.Sum (K ++ A)) A K).
  - apply md5_Sum_length.
  - vm_compute. repeat constructor.
Defined.

(* ===================================================================== *)
(** * Tunnel-Password: SaltDecryptData *)
(* ===================================================================== *)

Section Salted.

Import tools.

Local Arguments firstn : simpl never.
Local Arguments skipn : simpl never.

(** The loop of [SaltDecryptData] computes the chain. *)
Lemma saltDecryptLoop_chain (n : nat) :
  forall fuel result data prevResult hash secret,
  length data = (16 * S n)%nat -> (S n <= fuel)%nat ->
  length hash = 16%nat ->
  saltDecryptLoop fuel result data prevResult hash secret
  = Ok (result ++ decryptChain (S n) secret prevResult data).
Proof.
  induction n as [|n IH];
    intros fuel result data prevResult hash secret Hd Hf Hh;
    (destruct fuel as [|fuel]; [lia|]); cbn [saltDecryptLoop];
    set (h := md5.Sum (secret ++ prevResult));
    assert (Hlh : length h = 16%nat) by apply md5_Sum_length;
    rewrite (copy_same_length hash h) by lia;
    rewrite xor_into_hash_ok by lia; cbn [bind];
    rewrite (xorl_firstn_r h data), Hlh;
    set (p := xorl h (firstn 16 data));
    rewrite (slice_prefix data 16), (slice_suffix data 16) by (unfold len; lia);
    cbn [bind]; change (Z.to_nat 16) with 16%nat.
  - assert (Hs : skipn 16 data = []) by (apply skipn_all2; lia).
    rewrite Hs. cbn [decryptChain]. fold h. fold p.
    rewrite app_nil_r. reflexivity.
  - assert (Hs : length (skipn 16 data) = (16 * S n)%nat)
      by (rewrite length_skipn; lia).
    replace (len (skipn 16 data) =? 0) with false
      by (symmetry; apply Z.eqb_neq; unfold len; lia).
    rewrite IH by (unfold p; rewrite ?xorl_length, ?length_firstn; lia).
    cbn [decryptChain]. fold h. fold p.
    rewrite <- app_assoc. reflexivity.
Qed.

(** The salted authenticator [prevResult] that [SaltDecryptData] builds. *)
Lemma salted_authenticator (A s2 : list byte) :
  length A = 16%nat -> length s2 = 2%nat ->
  let prevResult := copy (sub (make 18) 0 16) A ++ sub (make 18) 16 18 in
  sub prevResult 0 16 ++ copy (sub prevResult 16 18) s2 = A ++ s2.
Proof.
  intros HA Hs prevResult.
  assert (E : prevResult = A ++ [x00; x00]).
  { unfold prevResult. rewrite copy_same_length by (rewrite HA; reflexivity).
    reflexivity. }
  rewrite E.
  assert (HlA : len A = 16) by (unfold len; lia).
  rewrite <- HlA at 1 2. rewrite sub_app_l.
  replace 18 with (len A + len [x00; x00]) by (rewrite HlA; reflexivity).
  rewrite sub_app_r, copy_same_length by (rewrite Hs; reflexivity).
  reflexivity.
Qed.

Lemma SaltDecryptData_too_short (data A K : list byte) :
  len data <= 1 ->
  SaltDecryptData data A K = Err (errorString "salt encrypted attribute too short").
Proof.
  intros H. unfold SaltDecryptData. cbv zeta. rewrite int_uint8.
  pose proof (len_nonneg data).
  rewrite Z.mod_small by lia.
  replace (len data <=? 1) with true by (symmetry; apply Z.leb_le; lia).
  reflexivity.
Qed.

Lemma SaltDecryptData_empty (data A K : list byte) :
  2 <= len data <= 17 -> SaltDecryptData data A K = Ok [].
Proof.
  intros H. unfold SaltDecryptData. cbv zeta. rewrite int_uint8.
  rewrite Z.mod_small by lia.
  replace (len data <=? 1) with false by (symmetry; apply Z.leb_gt; lia).
  replace (len data <=? 17) with true by (symmetry; apply Z.leb_le; lia).
  reflexivity.
Qed.

Lemma SaltDecryptData_blocks (data A K : list byte) :
  len A = 16 -> 18 <= len data <= 255 -> (len data - 2) mod 16 = 0 ->
  let salt := firstn 2 data in
  let recovered :=
    decryptChain (Z.to_nat ((len data - 2) / 16)) K (A ++ salt) (skipn 2 data) in
  let L := int (hd x00 recovered) in
  SaltDecryptData data A K =
    if len data - 3 <? L
    then Err (errorString "Tunnel Password is too long (shared secret might be wrong)")
    else Ok (firstn (Z.to_nat L) (tl recovered)).
Proof.
  intros HA Hn Hm salt recovered L.
  unfold SaltDecryptData. cbv zeta. rewrite !int_uint8.
  rewrite (Z.mod_small (len data)) by lia.
  replace (len data <=? 1) with false by (symmetry; apply Z.leb_gt; lia).
  replace (len data <=? 17) with false by (symmetry; apply Z.leb_gt; lia).
  rewrite (slice_prefix A 16) by lia. cbn [bind].
  rewrite firstn_all2 by (unfold len in HA; lia).
  rewrite (slice_prefix data 2) by lia. cbn [bind].
  change (Z.to_nat 2) with 2%nat. fold salt.
  rewrite salted_authenticator
    by (unfold salt; rewrite ?length_firstn; unfold len in *; lia).
  rewrite (slice_suffix data 2) by lia. cbn [bind].
  change (Z.to_nat 2) with 2%nat.
  assert (Hq : 1 <= (len data - 2) / 16).
  { pose proof (Z.div_mod (len data - 2) 16 ltac:(lia)). lia. }
  assert (Hl : length (skipn 2 data)
               = (16 * S (Nat.pred (Z.to_nat ((len data - 2) / 16))))%nat).
  { rewrite length_skipn.
    pose proof (Z.div_mod (len data - 2) 16 ltac:(lia)). unfold len in *. lia. }
  rewrite (saltDecryptLoop_chain _ _ _ _ _ _ _ Hl) by (rewrite ?make_length; lia).
  cbn [bind app].
  replace (S (Nat.pred (Z.to_nat ((len data - 2) / 16))))
    with (Z.to_nat ((len data - 2) / 16)) by lia.
  fold recovered.
  assert (Hr : length recovered = Z.to_nat (len data - 2)).
  { unfold recovered. rewrite decryptChain_length.
    - pose proof (Z.div_mod (len data - 2) 16 ltac:(lia)). lia.
    - rewrite Hl. lia. }
  destruct recovered as [|t rest] eqn:Er; [simpl in Hr; lia|].
  change (index (t :: rest) 0) with (Ok t). cbn [bind].
  rewrite (slice_suffix (t :: rest) 1) by (unfold len; simpl length; lia).
  cbn [bind]. change (skipn (Z.to_nat 1) (t :: rest)) with rest.
  unfold L. cbn [hd tl].
  rewrite (Z.mod_small (len data - 3)) by lia.
  destruct (len data - 3 <? int t) eqn:Et; [reflexivity|].
  apply Z.ltb_ge in Et. pose proof (int_range t).
  apply slice_prefix. simpl length in Hr. unfold len in *. lia.
Qed.

End Salted.

(** C5, as stated, fails on an input of 19 bytes: after the salt 17 bytes
    are left, and the second round of the loop reads past the last one. *)
Lemma C5_counterexample :
  let data := make 19 in
  18 <= len data /\
  tools.SaltDecryptData data (make 16) (bytes_of "secret")
  = Panic (IndexOutOfRange 1 1).
Proof.
  split; [vm_compute; discriminate | vm_compute; reflexivity].
Qed.

(** Above 255 bytes the length is first cut to 8 bits: 258 bytes are taken
    for 2. *)
Example SaltDecryptData_length_wraps :
  tools.SaltDecryptData (make 258) (make 16) (bytes_of "secret") = Ok [].
Proof. vm_compute. reflexivity. Qed.

(** C5, amended. For every input buffer, authenticator of 16 bytes and
    secret, [SaltDecryptData] returns a decode error when the input has at
    most 1 byte; an empty plaintext and no error when it has 2 to 17 bytes;
    and when it has [n] bytes with [18 <= n <= 255] and [n - 2] a multiple
    of 16, it takes the first 2 bytes as salt, applies the inverse chain to
    the rest, reads the first recovered byte as the length [L], and returns
    the next [L] bytes, failing exactly when [L] exceeds [n - 3]. *)
Theorem C5_SaltDecryptData (data A K : list byte) :
  len A = 16 ->
  (len data <= 1 ->
     tools.SaltDecryptData data A K
     = Err (errorString "salt encrypted attribute too short")) /\
  (2 <= len data <= 17 -> tools.SaltDecryptData data A K = Ok []) /\
  (18 <= len data <= 255 -> (len data - 2) mod 16 = 0 ->
     let salt := firstn 2 data in
     let recovered :=
       decryptChain (Z.to_nat ((len data - 2) / 16)) K (A ++ salt) (skipn 2 data) in
     let L := int (hd x00 recovered) in
     tools.SaltDecryptData data A K =
       if len data - 3 <? L
       then Err (errorString "Tunnel Password is too long (shared secret might be wrong)")
       else Ok (firstn (Z.to_nat L) (tl recovered))).
Proof.
  intros HA. split; [|split].
  - apply SaltDecryptData_too_short.
  - apply SaltDecryptData_empty.
  - apply SaltDecryptData_blocks. exact HA.
Qed.

Lemma C5_witness :
  tools.SaltDecryptData salted_password (make 16) (bytes_of "secret")
  = Ok (bytes_of "password").
Proof.
  destruct (C5_SaltDecryptData salted_password (make 16) (bytes_of "secret") eq_refl)
    as [_ [_ H]].
  rewrite H.
  - vm_compute. reflexivity.
  - vm_compute. split; discriminate.
  - vm_compute. reflexivity.
Defined.

(* ===================================================================== *)
(** * Attribute validation and the IP decoders *)
(* ===================================================================== *)

Section Validation.

Import protocol.

Variable utf8_Valid : list byte -> bool.
Variable IPString : list byte -> string.

(** For [integer] and [time] the value must have 4 bytes. *)
Lemma VerifyOriginalValue_Integer (radAttr : RadiusAttribute) :
  VerifyOriginalValue utf8_Valid IPString radAttr Integer = true
  <-> len (attr_value radAttr) = 4.
Proof.
  unfold VerifyOriginalValue, tools.BytesToInteger.
  destruct (len (attr_value radAttr) =? 4) eqn:E; simpl.
  - apply Z.eqb_eq in E. tauto.
  - apply Z.eqb_neq in E. split; [discriminate | contradiction].
Qed.

Lemma VerifyOriginalValue_Date (radAttr : RadiusAttribute) :
  VerifyOriginalValue utf8_Valid IPString radAttr Date = true
  <-> len (attr_value radAttr) = 4.
Proof.
  unfold VerifyOriginalValue, tools.BytesToTimestamp.
  destruct (len (attr_value radAttr) =? 4) eqn:E; simpl.
  - apply Z.eqb_eq in E. tauto.
  - apply Z.eqb_neq in E. split; [discriminate | contradiction].
Qed.

(** For [integer64] no value is accepted: the type has no case of its own
    and falls to the default. *)
Lemma VerifyOriginalValue_Integer64 (radAttr : RadiusAttribute) :
  VerifyOriginalValue utf8_Valid IPString radAttr Integer64 = false.
Proof. reflexivity. Qed.

End Validation.

(** C7. Validation for [integer] and for [time] accepts exactly the values
    of 4 bytes; validation for [integer64] accepts no value, also not the
    8 bytes that [Integer64ToBytes] writes and [BytesToInteger64] reads. *)
Theorem C7_VerifyOriginalValue_lengths
    (utf8_Valid : list byte -> bool) (IPString : list byte -> string)
    (radAttr : protocol.RadiusAttribute) :
  (protocol.VerifyOriginalValue utf8_Valid IPString radAttr protocol.Integer = true
     <-> len (protocol.attr_value radAttr) = 4) /\
  (protocol.VerifyOriginalValue utf8_Valid IPString radAttr protocol.Date = true
     <-> len (protocol.attr_value radAttr) = 4) /\
  protocol.VerifyOriginalValue utf8_Valid IPString radAttr protocol.Integer64 = false /\
  (let v := tools.Integer64ToBytes 1 in
   len v = 8 /\ tools.BytesToInteger64 v = (1, true) /\
   protocol.VerifyOriginalValue utf8_Valid IPString
     (protocol.mkRadiusAttribute x00 EmptyString v) protocol.Integer64 = false).
Proof.
  split; [apply VerifyOriginalValue_Integer|].
  split; [apply VerifyOriginalValue_Date|].
  split; [reflexivity|].
  repeat split.
Qed.

(** C8. On the empty string, with [net.ParseIP] of the empty string the nil slice,
    [IPv6StringToBytes] returns an empty slice and no error, and
    [IPv4StringToBytes] panics on [nil[12:]]: neither returns an error. *)
Theorem C8_empty_string (ParseIP : string -> list byte) :
  ParseIP EmptyString = [] ->
  tools.IPv6StringToBytes ParseIP EmptyString = Ok [] /\
  tools.IPv4StringToBytes ParseIP EmptyString = Panic (SliceOutOfRange 12 0 0).
Proof.
  intros H. unfold tools.IPv6StringToBytes, tools.IPv4StringToBytes.
  simpl. rewrite H. split; reflexivity.
Qed.

Lemma C8_witness :
  tools.IPv6StringToBytes net.ParseIPv4 EmptyString = Ok [] /\
  tools.IPv4StringToBytes net.ParseIPv4 EmptyString = Panic (SliceOutOfRange 12 0 0).
Proof.
  apply (C8_empty_string net.ParseIPv4). reflexivity.
Defined.

(** The decoders on the addresses of the repository's tests. *)
Example IPv4StringToBytes_address :
  tools.IPv4StringToBytes net.ParseIPv4 "192.1.10.1" = Ok (bytes_of_ints [192; 1; 10; 1]).
Proof. vm_compute. reflexivity. Qed.

Example IPv4StringToBytes_prefix :
  tools.IPv4StringToBytes net.ParseIPv4 "192.1.10.1/24"
  = Ok (bytes_of_ints [0; 24; 192; 1; 10; 1]).
Proof. vm_compute. reflexivity. Qed.

Example IPv4StringToBytes_not_an_address :
  tools.IPv4StringToBytes net.ParseIPv4 "radius" = Panic (SliceOutOfRange 12 0 0).
Proof. vm_compute. reflexivity. Qed.

(* ===================================================================== *)
(** * The dictionary loader *)
(* ===================================================================== *)

Section Loader.

Import protocol.

Lemma no_error_bind {A B} (m : outcome A) (k : A -> outcome B) :
  no_error m -> (forall a, no_error (k a)) -> no_error (bind m k).
Proof.
  destruct m; simpl; auto.
Qed.

Lemma no_error_index {A} (s : list A) (i : Z) : no_error (index s i).
Proof.
  unfold index. destruct (_ && _); [destruct (nth_error _ _)|]; exact I.
Qed.

Lemma no_error_mustParseUint8 (s : string) : no_error (mustParseUint8 s).
Proof.
  unfold mustParseUint8. destruct (strconv.ParseUint8 s); exact I.
Qed.

Create HintDb no_error.

Local Hint Resolve no_error_index no_error_mustParseUint8 : no_error.

Ltac no_error_step :=
  repeat first
    [ exact I
    | solve [auto with no_error]
    | apply no_error_bind; [solve [auto with no_error] | intros ?]
    | match goal with
      | |- no_error (if ?c then _ else _) => destruct c
      | |- no_error (let '(_, _) := ?p in _) => destruct p
      end ]; simpl.

Lemma no_error_parseAttribute parsedLine vendorName attributes :
  no_error (parseAttribute parsedLine vendorName attributes).
Proof. unfold parseAttribute. no_error_step. Qed.

Lemma no_error_parseValue parsedLine vendorName values :
  no_error (parseValue parsedLine vendorName values).
Proof. unfold parseValue. no_error_step. Qed.

Lemma no_error_parseVendor parsedLine vendors :
  no_error (parseVendor parsedLine vendors).
Proof. unfold parseVendor. no_error_step. Qed.

Local Hint Resolve no_error_parseAttribute no_error_parseValue
  no_error_parseVendor : no_error.

(** No line makes the loop return an error: it goes on or it panics. *)
Lemma no_error_scanLine line st : no_error (scanLine line st).
Proof. unfold scanLine. no_error_step. Qed.

Lemma index_first {A} (x : A) (s : list A) : index (x :: s) 0 = Ok x.
Proof. unfold index, len. cbn. reflexivity. Qed.

Lemma index_third {A} (x y z : A) (s : list A) : index (x :: y :: z :: s) 2 = Ok z.
Proof. exact (index_app_head [x; y] s z). Qed.

(** [strconv.ParseUint] itself never panics. *)
Lemma ParseUint8_fails (s : string) :
  match strconv.ParseUint8 s with Ok _ => false | _ => true end = true ->
  exists e, strconv.ParseUint8 s = Err e.
Proof.
  unfold strconv.ParseUint8.
  destruct s; [eexists; reflexivity|].
  destruct (strconv.parse_digits _ _); [eexists; reflexivity | discriminate].
Qed.

(** The loop panics with the error of [ParseUint] on a line whose numeric
    field does not parse. *)
Lemma scanLine_bad line st :
  bad_numeric_line line = true ->
  exists e, scanLine line st = Panic (PanicError e).
Proof.
  unfold bad_numeric_line, scanLine. cbv zeta. intros H.
  apply andb_true_iff in H. destruct H as [H1 H2]. rewrite H1.
  destruct (strings.Fields line) as [|directive [|name [|number rest]]];
    try discriminate.
  apply andb_true_iff in H2. destruct H2 as [Hd Hn].
  destruct (ParseUint8_fails number Hn) as [e He].
  exists e. rewrite index_first.
  cbn [bind].
  apply orb_true_iff in Hd. destruct Hd as [Hd|Hd]; apply String.eqb_eq in Hd; subst directive.
  - rewrite String.eqb_refl. unfold parseAttribute.
    rewrite index_third.
    cbn [bind]. unfold mustParseUint8. rewrite He. reflexivity.
  - change (String.eqb "VENDOR" "ATTRIBUTE") with false.
    change (String.eqb "VENDOR" "VALUE") with false.
    rewrite String.eqb_refl. cbv iota. unfold parseVendor.
    rewrite index_third.
    cbn [bind]. unfold mustParseUint8. rewrite He. reflexivity.
Qed.

Lemma scanLines_bad (ls : list string) :
  existsb bad_numeric_line ls = true ->
  forall st, exists f, scanLines ls st = Panic f.
Proof.
  induction ls as [|line rest IH]; intros H st; [discriminate|].
  cbn [existsb] in H. cbn [scanLines].
  destruct (bad_numeric_line line) eqn:Hb.
  - destruct (scanLine_bad line st Hb) as [e He]. rewrite He.
    eexists. reflexivity.
  - simpl in H. pose proof (no_error_scanLine line st) as Hn.
    destruct (scanLine line st) as [st'|e|f]; cbn [bind].
    + apply IH. exact H.
    + contradiction.
    + eexists. reflexivity.
Qed.

(** When the lines before it load, the panic is the one of the bad line. *)
Lemma scanLines_first_bad (good : list string) (line : string) (rest : list string) st st' :
  scanLines good st = Ok st' -> bad_numeric_line line = true ->
  exists e, scanLines (good ++ line :: rest) st = Panic (PanicError e).
Proof.
  revert st. induction good as [|l good IH]; intros st Hg Hb.
  - simpl in Hg. injection Hg as <-. cbn [app scanLines].
    destruct (scanLine_bad line st Hb) as [e He]. rewrite He.
    eexists. reflexivity.
  - cbn [app scanLines] in *.
    destruct (scanLine l st) as [st1|e|f]; cbn [bind] in *; try discriminate.
    apply IH; assumption.
Qed.

(** The panic of a bad line carries the error [ParseUint] returns for its
    numeric field. *)
Lemma scanLine_bad_error line st :
  bad_numeric_line line = true ->
  exists e, strconv.ParseUint8 (numeric_field line) = Err e /\
            scanLine line st = Panic (PanicError e).
Proof.
  unfold bad_numeric_line, numeric_field, scanLine. cbv zeta. intros H.
  apply andb_true_iff in H. destruct H as [H1 H2]. rewrite H1.
  destruct (strings.Fields line) as [|directive [|name [|number rest]]];
    try discriminate.
  apply andb_true_iff in H2. destruct H2 as [Hd Hn].
  destruct (ParseUint8_fails number Hn) as [e He].
  exists e. cbn [nth]. split; [exact He|].
  rewrite index_first. cbn [bind].
  apply orb_true_iff in Hd. destruct Hd as [Hd|Hd]; apply String.eqb_eq in Hd; subst directive.
  - rewrite String.eqb_refl. unfold parseAttribute.
    rewrite index_third.
    cbn [bind]. unfold mustParseUint8. rewrite He. reflexivity.
  - change (String.eqb "VENDOR" "ATTRIBUTE") with false.
    change (String.eqb "VENDOR" "VALUE") with false.
    rewrite String.eqb_refl. cbv iota. unfold parseVendor.
    rewrite index_third.
    cbn [bind]. unfold mustParseUint8. rewrite He. reflexivity.
Qed.

(** When the lines before it load, the loop panics at the bad line, with
    that error. *)
Lemma scanLines_first_bad_error (good : list string) (line : string)
    (rest : list string) st st' :
  scanLines good st = Ok st' -> bad_numeric_line line = true ->
  exists e, strconv.ParseUint8 (numeric_field line) = Err e /\
            scanLines (good ++ line :: rest) st = Panic (PanicError e).
Proof.
  revert st. induction good as [|l good IH]; intros st Hg Hb.
  - simpl in Hg. injection Hg as <-. cbn [app scanLines].
    destruct (scanLine_bad_error line st Hb) as (e & He & Hp). rewrite Hp.
    exists e. split; [exact He | reflexivity].
  - cbn [app scanLines] in *.
    destruct (scanLine l st) as [st1|e|f]; cbn [bind] in *; try discriminate.
    apply IH; assumption.
Qed.

End Loader.

(** C6, as stated, fails on the dictionary of the one line
    [ATTRIBUTE User-Name abc text]: [DictionaryFromFile] does not return an
    error, it panics with the error of [ParseUint]. *)
Lemma C6_counterexample :
  existsb bad_numeric_line (protocol.lines bad_code_file) = true /\
  protocol.DictionaryFromFile bad_code_file
  = Panic (PanicError (NumError "ParseUint" "abc" ErrSyntax)) /\
  ~ (exists e, protocol.DictionaryFromFile bad_code_file = Err e).
Proof.
  split; [reflexivity|]. split; [reflexivity|].
  intros [e H]. discriminate H.
Qed.

(** C6, amended. For every dictionary file that opens and in which the
    scanner delivers an ATTRIBUTE or VENDOR line whose numeric field (the
    attribute code or the vendor id) does not parse as a decimal number in
    0..255, [DictionaryFromFile] aborts the load with a panic: it returns no
    dictionary, partial or not, and no error.  When the lines before such a
    line load (no earlier line faults), the panic is the one of that line
    and carries the error [ParseUint] returns for its numeric field. *)
Theorem C6_DictionaryFromFile_panics (file : protocol.File) :
  protocol.open_error file = None ->
  existsb bad_numeric_line (protocol.lines file) = true ->
  (exists f, protocol.DictionaryFromFile file = Panic f) /\
  (forall good line rest st,
     protocol.lines file = good ++ line :: rest ->
     protocol.scanLines good (protocol.mkLoading [] [] [] EmptyString) = Ok st ->
     bad_numeric_line line = true ->
     exists e, strconv.ParseUint8 (numeric_field line) = Err e /\
               protocol.DictionaryFromFile file = Panic (PanicError e)).
Proof.
  intros Ho Hb. unfold protocol.DictionaryFromFile. rewrite Ho. split.
  - destruct (scanLines_bad _ Hb (protocol.mkLoading [] [] [] EmptyString)) as [f Hf].
    rewrite Hf. exists f. reflexivity.
  - intros good line rest st Hl Hg Hbad. rewrite Hl.
    destruct (scanLines_first_bad_error good line rest _ st Hg Hbad) as (e & He & Hp).
    rewrite Hp. exists e. split; [exact He | reflexivity].
Qed.

(** On the one-line dictionary [ATTRIBUTE User-Name abc text] the panic
    carries the syntax error of [ParseUint] on [abc]. *)
Lemma C6_witness :
  protocol.DictionaryFromFile bad_code_file
  = Panic (PanicError (NumError "ParseUint" "abc" ErrSyntax)).
Proof.
  destruct (C6_DictionaryFromFile_panics bad_code_file eq_refl eq_refl) as [_ H].
  destruct (H [] "ATTRIBUTE User-Name abc text" []
              (protocol.mkLoading [] [] [] EmptyString) eq_refl eq_refl eq_refl)
    as (e & He & Hp).
  rewrite Hp. vm_compute in He. injection He as <-. reflexivity.
Defined.

(** The loader on the dictionary of the specification's example. *)
Example DictionaryFromFile_example :
  protocol.DictionaryFromFile
    (protocol.mkFile None
       [ "# base attributes";
         "ATTRIBUTE   User-Name           1   text";
         "ATTRIBUTE   NAS-IP-Address      4   ipv4addr";
         "ATTRIBUTE   NAS-Port-Id         5   integer";
         "ATTRIBUTE   Unknown-Type        9   tlv";
         "VALUE       Framed-Protocol     PPP 1";
         "VENDOR      Somevendor          10";
         "BEGIN-VENDOR Somevendor";
         "ATTRIBUTE   Somevendor-Name     1   text";
         "END-VENDOR" ] None)
  = Ok (protocol.mkDictionary
          [ protocol.mkDictionaryAttribute "User-Name" EmptyString x01 protocol.AsciiString;
            protocol.mkDictionaryAttribute "NAS-IP-Address" EmptyString x04 protocol.IPv4Addr;
            protocol.mkDictionaryAttribute "NAS-Port-Id" EmptyString x05 protocol.Integer;
            protocol.mkDictionaryAttribute "Somevendor-Name" "Somevendor" x01 protocol.AsciiString ]
          [ protocol.mkDictionaryValue "Framed-Protocol" "PPP" EmptyString "1" ]
          [ protocol.mkDictionaryVendor "Somevendor" x0a ]).
Proof. vm_compute. reflexivity. Qed.

(* ===================================================================== *)
(** * The packet codec *)
(* ===================================================================== *)

Section Codec.

Import protocol.

Local Arguments firstn : simpl never.
Local Arguments skipn : simpl never.

Lemma typeCode_roundtrip (code : TypeCode) (b : byte) :
  typeCodeToUint8 code = (b, true) -> typeCodeFromUint8 b = (code, true).
Proof.
  unfold typeCodeToUint8. intros H.
  destruct code as [|p|p]; [| |discriminate].
  - injection H as <-. reflexivity.
  - do 4 (destruct p as [p|p|]; try discriminate;
          try (injection H as <-; reflexivity)).
Qed.

Lemma fold_left_toBytes (attrs : list RadiusAttribute) (acc : list byte) :
  fold_left (fun acc attr => acc ++ toBytes attr) attrs acc
  = acc ++ flat_map toBytes attrs.
Proof.
  revert acc. induction attrs as [|a attrs IH]; intros acc; cbn [fold_left flat_map].
  - rewrite app_nil_r. reflexivity.
  - rewrite IH, <- app_assoc. reflexivity.
Qed.

Lemma toBytes_eq (a : RadiusAttribute) :
  toBytes a = attr_id a :: uint8 (2 + len (attr_value a)) :: attr_value a.
Proof. reflexivity. Qed.

Lemma byID_snd (attrs : list DictionaryAttribute) (id : byte) (v w : list byte) :
  snd (byID attrs id v) = snd (byID attrs id w).
Proof.
  induction attrs as [|d attrs IH]; simpl; [reflexivity|].
  destruct (Byte.eqb (da_code d) id); [reflexivity | exact IH].
Qed.

Lemma byID_override (attrs : list DictionaryAttribute) (id : byte)
    (v w : list byte) (a : RadiusAttribute) :
  byID attrs id v = (a, true) -> byID attrs id w = (OverrideValue a w, true).
Proof.
  induction attrs as [|d attrs IH]; simpl; [discriminate|].
  destruct (Byte.eqb (da_code d) id); [|exact IH].
  intros H. injection H as <-. reflexivity.
Qed.

Lemma known_resolves dictionary a : resolves dictionary a -> known dictionary (attr_id a) = true.
Proof.
  unfold resolves, known, CreateRadAttributeByID. intros H.
  rewrite (byID_snd _ _ [] (attr_value a)), H. reflexivity.
Qed.

Lemma sub_middle {A} (a v c : list A) :
  sub (a ++ v ++ c) (len a) (len a + len v) = v.
Proof.
  unfold sub, len. rewrite Nat2Z.id.
  replace (Z.to_nat (Z.of_nat (length a) + Z.of_nat (length v) - Z.of_nat (length a)))
    with (length v) by lia.
  rewrite skipn_app, skipn_all, Nat.sub_diag, skipn_O. cbn [app].
  rewrite firstn_app, Nat.sub_diag, firstn_O, firstn_all. apply app_nil_r.
Qed.

(** The bytes of an attribute inside a buffer: where the loop finds the
    id, the length byte and the value. *)
Lemma attribute_in_buffer pre a tail sp :
  len (attr_value a) <= 253 ->
  let E := pre ++ toBytes a ++ tail in
  len pre <> len E /\
  index E (len pre) = Ok (attr_id a) /\
  index E (len pre + 1) = Ok (uint8 (2 + len (attr_value a))) /\
  int (uint8 (2 + len (attr_value a))) = 2 + len (attr_value a) /\
  reslice (mkSlice E sp) (len pre + 2) (len pre + (2 + len (attr_value a)))
  = Ok (attr_value a).
Proof.
  intros Hl E.
  pose proof (len_nonneg pre) as Hp. pose proof (len_nonneg (attr_value a)) as Hv.
  pose proof (len_nonneg tail) as Ht. pose proof (len_nonneg sp) as Hs.
  assert (Hlt : len (toBytes a) = 2 + len (attr_value a))
    by (rewrite toBytes_eq; unfold len; simpl length; lia).
  assert (HE : len E = len pre + 2 + len (attr_value a) + len tail)
    by (unfold E; rewrite !len_app; lia).
  split; [lia|].
  split; [unfold E; rewrite toBytes_eq; apply index_app_head|].
  split.
  { unfold E. rewrite toBytes_eq. cbn [app].
    replace (pre ++ attr_id a :: uint8 (2 + len (attr_value a)) :: attr_value a ++ tail)
      with ((pre ++ [attr_id a]) ++ uint8 (2 + len (attr_value a)) :: attr_value a ++ tail)
      by (rewrite <- app_assoc; reflexivity).
    replace (len pre + 1) with (len (pre ++ [attr_id a]))
      by (rewrite len_app; reflexivity).
    apply index_app_head. }
  split; [rewrite int_uint8; apply Z.mod_small; lia|].
  unfold reslice, cap. cbn [elems spare].
  replace ((0 <=? len pre + 2)
           && (len pre + 2 <=? len pre + (2 + len (attr_value a)))
           && (len pre + (2 + len (attr_value a)) <=? len E + len sp))
    with true
    by (symmetry; rewrite !andb_true_iff, !Z.leb_le; lia).
  f_equal.
  set (pre2 := pre ++ [attr_id a; uint8 (2 + len (attr_value a))]).
  assert (Hpre2 : len pre2 = len pre + 2)
    by (unfold pre2; rewrite len_app; reflexivity).
  replace (E ++ sp) with (pre2 ++ attr_value a ++ (tail ++ sp))
    by (unfold E, pre2; rewrite toBytes_eq, <- !app_assoc; reflexivity).
  rewrite <- Hpre2.
  replace (len pre + (2 + len (attr_value a))) with (len pre2 + len (attr_value a)) by lia.
  apply sub_middle.
Qed.

(** One round of the attribute loop on the bytes of an attribute whose id
    is known and whose value fits the length byte. *)
Lemma attributesLoop_step fuel dictionary pre a tail sp acc :
  known dictionary (attr_id a) = true -> len (attr_value a) <= 253 ->
  attributesLoop (S fuel) dictionary
    (mkSlice (pre ++ toBytes a ++ tail) sp) (len pre) acc
  = attributesLoop fuel dictionary
      (mkSlice (pre ++ toBytes a ++ tail) sp) (len pre + len (toBytes a))
      (acc ++ [fst (CreateRadAttributeByID dictionary (attr_id a) (attr_value a))]).
Proof.
  intros Hk Hl.
  destruct (attribute_in_buffer pre a tail sp Hl) as (F0 & F1 & F2 & F3 & F4).
  cbn [attributesLoop elems].
  replace (len pre =? len (pre ++ toBytes a ++ tail)) with false
    by (symmetry; apply Z.eqb_neq; exact F0).
  rewrite F1. cbn [bind]. rewrite F2. cbn [bind]. rewrite F3, F4. cbn [bind].
  unfold known in Hk. unfold CreateRadAttributeByID in *.
  rewrite (byID_snd _ _ _ (attr_value a)) in Hk.
  destruct (byID (dict_attributes dictionary) (attr_id a) (attr_value a)) as [t ok].
  simpl in Hk. subst ok. cbn [negb fst].
  f_equal. rewrite toBytes_eq. unfold len. simpl length. lia.
Qed.

(** The attribute loop on a run of such attributes. *)
Lemma attributesLoop_run attrs : forall fuel dictionary pre tail sp acc,
  Forall (fun a => known dictionary (attr_id a) = true
                   /\ len (attr_value a) <= 253) attrs ->
  attributesLoop (length attrs + fuel) dictionary
    (mkSlice (pre ++ flat_map toBytes attrs ++ tail) sp) (len pre) acc
  = attributesLoop fuel dictionary
      (mkSlice (pre ++ flat_map toBytes attrs ++ tail) sp)
      (len (pre ++ flat_map toBytes attrs))
      (acc ++ map (fun a => fst (CreateRadAttributeByID dictionary (attr_id a)
                                   (attr_value a))) attrs).
Proof.
  induction attrs as [|a attrs IH]; intros fuel dictionary pre tail sp acc H.
  - cbn [flat_map map length app Nat.add]. rewrite !app_nil_r. reflexivity.
  - inversion H as [|a' attrs' [Hk Hl] Hrest]; subst.
    cbn [flat_map map length Nat.add]. rewrite <- !app_assoc.
    rewrite attributesLoop_step by assumption.
    rewrite <- len_app.
    specialize (IH fuel dictionary (pre ++ toBytes a) tail sp
                   (acc ++ [fst (CreateRadAttributeByID dictionary (attr_id a)
                                   (attr_value a))]) Hrest).
    rewrite <- !app_assoc in IH. rewrite IH. cbn [app]. reflexivity.
Qed.

Lemma flat_map_toBytes_length (attrs : list RadiusAttribute) :
  (2 * length attrs <= length (flat_map toBytes attrs))%nat.
Proof.
  induction attrs as [|a attrs IH]; cbn [flat_map length]; [lia|].
  rewrite length_app, toBytes_eq. simpl length. lia.
Qed.

Lemma map_resolves dictionary attrs :
  Forall (resolves dictionary) attrs ->
  map (fun a => fst (CreateRadAttributeByID dictionary (attr_id a) (attr_value a)))
      attrs = attrs.
Proof.
  induction 1 as [|a attrs Ha _ IH]; [reflexivity|].
  cbn [map]. rewrite IH. unfold resolves in Ha. rewrite Ha. reflexivity.
Qed.

(** [ToBytes] on a packet whose authenticator is not empty: no random
    number is drawn and the packet stays as it is. *)
Lemma ToBytes_bytes (P : RadiusPacket) (r : Rand) (b : byte) :
  len (pkt_authenticator P) <> 0 ->
  typeCodeToUint8 (pkt_code P) = (b, true) ->
  ToBytes P r
  = ((b :: pkt_id P
        :: packetLengthToBytes
             ((20 + len (flat_map toBytes (pkt_attributes P))) mod 65536)
        ++ pkt_authenticator P ++ flat_map toBytes (pkt_attributes P), true),
     P, r).
Proof.
  intros Ha Hc. unfold ToBytes. cbv zeta.
  replace (len (pkt_authenticator P) =? 0) with false
    by (symmetry; apply Z.eqb_neq; exact Ha).
  rewrite Hc. cbn [negb]. rewrite fold_left_toBytes. cbn [app]. reflexivity.
Qed.

(** The header of a buffer: 4 bytes, then the authenticator. *)
Lemma header_fields (b id l1 l2 : byte) (auth body sp : list byte) :
  len auth = 16 ->
  let E := b :: id :: l1 :: l2 :: auth ++ body in
  index E 0 = Ok b /\ index E 1 = Ok id /\
  reslice (mkSlice E sp) 4 20 = Ok auth /\
  E = (b :: id :: l1 :: l2 :: auth) ++ body /\
  len (b :: id :: l1 :: l2 :: auth) = 20.
Proof.
  intros Ha E. pose proof (len_nonneg body). pose proof (len_nonneg sp).
  split; [apply (index_app_head [] _ b)|].
  split; [apply (index_app_head [b] _ id)|].
  split.
  { unfold reslice, cap. cbn [elems spare].
    replace ((0 <=? 4) && (4 <=? 20) && (20 <=? len E + len sp)) with true.
    2:{ symmetry. rewrite !andb_true_iff, !Z.leb_le.
        unfold E. change (b :: id :: l1 :: l2 :: auth ++ body)
          with ([b; id; l1; l2] ++ auth ++ body).
        rewrite !len_app. change (len [b; id; l1; l2]) with 4. lia. }
    f_equal.
    change (E ++ sp) with ([b; id; l1; l2] ++ (auth ++ body) ++ sp).
    rewrite <- app_assoc.
    change 4 with (len [b; id; l1; l2]) at 1.
    replace 20 with (len [b; id; l1; l2] + len auth)
      by (rewrite Ha; reflexivity).
    apply sub_middle. }
  split; [reflexivity|].
  change (b :: id :: l1 :: l2 :: auth) with ([b; id; l1; l2] ++ auth).
  rewrite len_app, Ha. reflexivity.
Qed.

Lemma attributesLoop_end fuel dictionary bytes acc :
  attributesLoop (S fuel) dictionary bytes (len (elems bytes)) acc = Ok acc.
Proof.
  cbn [attributesLoop]. rewrite Z.eqb_refl. reflexivity.
Qed.

(** The attribute loop on a buffer that ends with the run. *)
Lemma attributesLoop_all attrs fuel dictionary pre sp acc :
  Forall (fun a => known dictionary (attr_id a) = true
                   /\ len (attr_value a) <= 253) attrs ->
  attributesLoop (length attrs + S fuel) dictionary
    (mkSlice (pre ++ flat_map toBytes attrs) sp) (len pre) acc
  = Ok (acc ++ map (fun a => fst (CreateRadAttributeByID dictionary (attr_id a)
                                    (attr_value a))) attrs).
Proof.
  intros H.
  pose proof (attributesLoop_run attrs (S fuel) dictionary pre [] sp acc H) as E.
  rewrite !app_nil_r in E. rewrite E.
  apply (attributesLoop_end fuel dictionary
           (mkSlice (pre ++ flat_map toBytes attrs) sp)).
Qed.

Lemma packetLength_two (n : Z) :
  exists l1 l2, packetLengthToBytes n = [l1; l2].
Proof.
  unfold packetLengthToBytes. cbn [tools.PutBigEndian]. eauto.
Qed.

(** Serialise, then parse: the packet comes back. *)
Lemma roundtrip dictionary (P : RadiusPacket) (r : Rand) (sp : list byte) :
  wellFormedPacket dictionary P ->
  exists bytes,
    ToBytes P r = ((bytes, true), P, r) /\
    InitialiseRadiusPacketFromBytes dictionary (mkSlice bytes sp) = Ok P.
Proof.
  intros (Hc & Ha & Hattrs).
  destruct (typeCodeToUint8 (pkt_code P)) as [b ok] eqn:Eb.
  simpl in Hc. subst ok.
  rewrite (ToBytes_bytes P r b) by (try lia; assumption).
  eexists. split; [reflexivity|].
  destruct (packetLength_two
              ((20 + len (flat_map toBytes (pkt_attributes P))) mod 65536))
    as (l1 & l2 & El).
  rewrite El. cbn [app].
  destruct (header_fields b (pkt_id P) l1 l2 (pkt_authenticator P)
              (flat_map toBytes (pkt_attributes P)) sp Ha)
    as (F0 & F1 & F2 & F3 & F4).
  unfold InitialiseRadiusPacketFromBytes. cbn [elems].
  rewrite F0. cbn [bind]. rewrite (typeCode_roundtrip _ _ Eb). cbn [negb].
  rewrite F1. cbn [bind]. rewrite F2. cbn [bind].
  rewrite F3.
  set (hdr := b :: pkt_id P :: l1 :: l2 :: pkt_authenticator P) in *.
  set (attrs := pkt_attributes P) in *.
  pose proof (flat_map_toBytes_length attrs) as Hfl.
  replace (S (length (hdr ++ flat_map toBytes attrs)))
    with (length attrs + S (length (hdr ++ flat_map toBytes attrs) - length attrs))%nat
    by (rewrite length_app; lia).
  rewrite <- F4.
  rewrite (attributesLoop_all attrs).
  2:{ eapply Forall_impl; [|exact Hattrs]. intros a [Hr Hl].
      split; [apply known_resolves; exact Hr | exact Hl]. }
  cbn [bind app]. rewrite map_resolves.
  - destruct P. reflexivity.
  - eapply Forall_impl; [|exact Hattrs]. intros a [Hr _]. exact Hr.
Qed.

End Codec.

(** C1. For every well-formed packet [P] (a known type code, an
    authenticator of 16 bytes, every attribute resolving in the dictionary
    under the name of the first dictionary attribute with its id, every
    value of at most 253 bytes), [ToBytes] returns bytes, and
    [InitialiseRadiusPacketFromBytes] on these bytes, with the same
    dictionary and whatever the spare capacity of the buffer, returns a
    packet equal to [P] in code, id, authenticator and attributes. *)
Theorem C1_parse_serialize (dictionary : protocol.Dictionary)
    (P : protocol.RadiusPacket) (r : protocol.Rand) (sp : list byte) :
  wellFormedPacket dictionary P ->
  exists bytes,
    protocol.ToBytes P r = ((bytes, true), P, r) /\
    protocol.InitialiseRadiusPacketFromBytes dictionary (mkSlice bytes sp) = Ok P.
Proof.
  exact (roundtrip dictionary P r sp).
Qed.

Lemma C1_witness :
  exists bytes,
    protocol.ToBytes test_packet counting = ((bytes, true), test_packet, counting) /\
    protocol.InitialiseRadiusPacketFromBytes test_dictionary (mkSlice bytes [])
    = Ok test_packet.
Proof.
  apply (C1_parse_serialize test_dictionary test_packet counting []).
  repeat split; try reflexivity.
  repeat constructor; vm_compute; discriminate.
Defined.

(** The bytes of the packet are those of the repository's test. *)
Example ToBytes_test_packet :
  fst (fst (protocol.ToBytes test_packet counting))
  = (bytes_of_ints
       [4; 43; 0; 42; 215; 189; 213; 172; 57; 94; 141; 70; 134; 121; 101; 57; 187;
        220; 227; 73; 4; 6; 192; 168; 1; 10; 5; 6; 0; 0; 0; 0; 32; 10; 116; 114;
        105; 108; 108; 105; 97; 110], true).
Proof. vm_compute. reflexivity. Qed.

(* ===================================================================== *)
(** * Decoding malformed buffers *)
(* ===================================================================== *)

Section Malformed.

Import protocol.

Lemma reslice_cases (s : Slice) (lo hi : Z) :
  (reslice s lo hi = Ok (sub (elems s ++ spare s) lo hi)
   /\ 0 <= lo <= hi /\ hi <= cap s)
  \/ reslice s lo hi = Panic (SliceOutOfRange lo hi (cap s)).
Proof.
  unfold reslice.
  destruct (0 <=? lo) eqn:E1; [|right; reflexivity].
  destruct (lo <=? hi) eqn:E2; [|right; reflexivity].
  destruct (hi <=? cap s) eqn:E3; [|right; reflexivity].
  left. apply Z.leb_le in E1, E2, E3. split; [reflexivity | lia].
Qed.

(** The attribute loop at a header it cannot decode. *)
Lemma attributesLoop_malformed fuel dictionary pre bad sp acc :
  malformed_header dictionary bad sp ->
  exists f,
    attributesLoop (S (S fuel)) dictionary (mkSlice (pre ++ bad) sp) (len pre) acc
    = Panic f /\ bounds_fault f.
Proof.
  intros H. destruct bad as [|id [|l rest]]; try contradiction.
  cbn [malformed_header] in H.
  pose proof (len_nonneg pre) as Hp. pose proof (len_nonneg rest) as Hr.
  pose proof (len_nonneg sp) as Hs. pose proof (int_range l) as Hl.
  assert (HE : len (pre ++ id :: l :: rest) = len pre + 2 + len rest)
    by (rewrite len_app; unfold len; simpl length; lia).
  cbn [attributesLoop elems].
  replace (len pre =? len (pre ++ id :: l :: rest)) with false
    by (symmetry; apply Z.eqb_neq; lia).
  rewrite index_app_head. cbn [bind].
  replace (pre ++ id :: l :: rest) with ((pre ++ [id]) ++ l :: rest)
    by (rewrite <- app_assoc; reflexivity).
  replace (len pre + 1) with (len (pre ++ [id])) by (rewrite len_app; reflexivity).
  rewrite index_app_head. cbn [bind].
  set (E := (pre ++ [id]) ++ l :: rest) in *.
  assert (HE' : len E = len pre + 2 + len rest)
    by (unfold E; rewrite !len_app; unfold len; simpl length; lia).
  destruct (reslice_cases (mkSlice E sp) (len pre + 2) (len pre + int l))
    as [(Eq & Hlo & Hhi) | Eq];
    rewrite Eq; cbn [bind].
  2:{ eexists. split; [reflexivity | exact I]. }
  unfold cap in Hhi. cbn [elems spare] in Hhi.
  assert (Hpi : len (pre ++ [id]) = len pre + 1) by (rewrite len_app; reflexivity).
  destruct H as [H | [Hover [H | Hk]]]; try lia.
  unfold known in Hk. unfold CreateRadAttributeByID in *.
  rewrite (byID_snd _ _ _ (sub (E ++ sp) (len pre + 2) (len pre + int l))) in Hk.
  destruct (byID _ _ _) as [t ok]. simpl in Hk. subst ok. cbn [negb].
  replace (len pre + int l =? len E) with false
    by (symmetry; apply Z.eqb_neq; lia).
  rewrite index_out by lia. cbn [bind].
  eexists. split; [reflexivity | exact I].
Qed.

Lemma malformed_length dictionary bad sp :
  malformed_header dictionary bad sp -> (2 <= length bad)%nat.
Proof.
  destruct bad as [|id [|l rest]]; simpl; try contradiction. lia.
Qed.

(** Decoding a buffer whose attribute region leads to such a header. *)
Lemma decode_malformed dictionary (hdr : list byte)
    (attrs : list RadiusAttribute) (bad sp : list byte) :
  len hdr = 20 ->
  snd (typeCodeFromUint8 (hd x00 hdr)) = true ->
  Forall (fun a => known dictionary (attr_id a) = true
                   /\ len (attr_value a) <= 253) attrs ->
  malformed_header dictionary bad sp ->
  exists f,
    InitialiseRadiusPacketFromBytes dictionary
      (mkSlice (hdr ++ flat_map toBytes attrs ++ bad) sp) = Panic f
    /\ bounds_fault f.
Proof.
  intros Hh Hc Hattrs Hbad.
  destruct hdr as [|b [|id [|l1 [|l2 auth]]]];
    try (unfold len in Hh; simpl in Hh; lia).
  assert (Ha : len auth = 16) by (unfold len in *; simpl length in Hh; lia).
  cbn [hd] in Hc.
  set (body := flat_map toBytes attrs ++ bad).
  destruct (header_fields b id l1 l2 auth body sp Ha) as (F0 & F1 & F2 & F3 & F4).
  unfold InitialiseRadiusPacketFromBytes. cbn [elems app].
  fold body. rewrite F0. cbn [bind].
  destruct (typeCodeFromUint8 b) as [code ok]. simpl in Hc. subst ok. cbn [negb].
  rewrite F1. cbn [bind]. rewrite F2. cbn [bind]. rewrite F3.
  set (hdr := b :: id :: l1 :: l2 :: auth) in *. unfold body.
  pose proof (flat_map_toBytes_length attrs) as Hfl.
  pose proof (malformed_length _ _ _ Hbad) as Hbl.
  replace (S (length (hdr ++ flat_map toBytes attrs ++ bad)))
    with (length attrs
          + S (S (length (hdr ++ flat_map toBytes attrs ++ bad) - length attrs - 1)))%nat
    by (rewrite !length_app; lia).
  rewrite <- F4, (attributesLoop_run attrs) by exact Hattrs.
  rewrite app_assoc.
  destruct (attributesLoop_malformed
              (length ((hdr ++ flat_map toBytes attrs) ++ bad) - length attrs - 1)
              dictionary (hdr ++ flat_map toBytes attrs) bad sp
              ([] ++ map (fun a => fst (CreateRadAttributeByID dictionary (attr_id a)
                                          (attr_value a))) attrs) Hbad)
    as (f & Ef & Hf).
  rewrite Ef. cbn [bind]. exists f. split; [reflexivity | exact Hf].
Qed.

End Malformed.

(** C10, as stated, fails on buffers that are rejected before the header
    is read: with an unknown type code, or with an unknown attribute id in
    front of the header, the decoder returns an error. *)
Lemma C10_counterexample :
  let buffer1 := mkSlice (make 20 ++ bytes_of_ints [1; 0]) [] in
  let buffer2 :=
    mkSlice (bytes_of_ints [1] ++ make 19 ++ bytes_of_ints [99; 2; 1; 0]) [] in
  20 <= len (elems buffer1) /\
  index (elems buffer1) 21 = Ok x00 /\
  protocol.InitialiseRadiusPacketFromBytes test_dictionary buffer1
  = Err (errorString "Invalid TypeCode") /\
  20 <= len (elems buffer2) /\
  index (elems buffer2) 23 = Ok x00 /\
  protocol.InitialiseRadiusPacketFromBytes test_dictionary buffer2
  = Err (errorString "attribute with ID: 99 is not found in dictionary").
Proof.
  repeat split; try reflexivity; vm_compute; discriminate.
Qed.

(** C10, amended. For every buffer of 20 bytes or more whose first byte is
    a known type code: when the attribute region starts with attributes of
    known id and of length byte 2 or more that lie within the buffer, and
    these are followed by a header whose length byte is less than 2, or
    whose length byte leads past the end of the buffer (and whose id is
    known, when the spare capacity of the buffer covers the length), then
    [InitialiseRadiusPacketFromBytes] panics on an index or a slice out of
    range; it returns no error. *)
Theorem C10_decode_faults (dictionary : protocol.Dictionary) (hdr : list byte)
    (attrs : list protocol.RadiusAttribute) (bad sp : list byte) :
  len hdr = 20 ->
  snd (protocol.typeCodeFromUint8 (hd x00 hdr)) = true ->
  Forall (fun a => known dictionary (protocol.attr_id a) = true
                   /\ len (protocol.attr_value a) <= 253) attrs ->
  malformed_header dictionary bad sp ->
  exists f,
    protocol.InitialiseRadiusPacketFromBytes dictionary
      (mkSlice (hdr ++ flat_map protocol.toBytes attrs ++ bad) sp) = Panic f
    /\ bounds_fault f.
Proof.
  exact (decode_malformed dictionary hdr attrs bad sp).
Qed.

(** A User-Name of 3 bytes, then a header that announces 9 bytes where 5
    are left. *)
Lemma C10_witness :
  exists f,
    protocol.InitialiseRadiusPacketFromBytes test_dictionary
      (mkSlice (bytes_of_ints [1; 7; 0; 25] ++ make 16
                ++ bytes_of_ints [1; 5; 97; 98; 99] ++ bytes_of_ints [1; 9; 97; 98; 99])
               [])
    = Panic f /\ bounds_fault f.
Proof.
  apply (C10_decode_faults test_dictionary
           (bytes_of_ints [1; 7; 0; 25] ++ make 16)
           [protocol.mkRadiusAttribute x01 "User-Name" (bytes_of "abc")]
           (bytes_of_ints [1; 9; 97; 98; 99]) []).
  - reflexivity.
  - reflexivity.
  - repeat constructor. vm_compute. discriminate.
  - vm_compute. right. split; [reflexivity | right; reflexivity].
Defined.

Example decode_faults_short_length :
  protocol.InitialiseRadiusPacketFromBytes test_dictionary
    (mkSlice (bytes_of_ints [1; 7; 0; 22] ++ make 16 ++ bytes_of_ints [1; 0]) [])
  = Panic (SliceOutOfRange 22 20 22).
Proof. vm_compute. reflexivity. Qed.

Example decode_faults_past_the_end :
  protocol.InitialiseRadiusPacketFromBytes test_dictionary
    (mkSlice (bytes_of_ints [1; 7; 0; 25] ++ make 16 ++ bytes_of_ints [1; 9; 97; 98; 99]) [])
  = Panic (SliceOutOfRange 22 29 25).
Proof. vm_compute. reflexivity. Qed.

(** With spare capacity the slice succeeds and the fault comes one round
    later; with an unknown id the decoder returns the error instead. *)
Example decode_faults_next_round :
  protocol.InitialiseRadiusPacketFromBytes test_dictionary
    (mkSlice (bytes_of_ints [1; 7; 0; 25] ++ make 16 ++ bytes_of_ints [1; 9; 97; 98; 99])
             (make 100))
  = Panic (IndexOutOfRange 29 25).
Proof. vm_compute. reflexivity. Qed.

Example decode_error_with_spare_capacity :
  protocol.InitialiseRadiusPacketFromBytes test_dictionary
    (mkSlice (bytes_of_ints [1; 7; 0; 25] ++ make 16 ++ bytes_of_ints [99; 9; 97; 98; 99])
             (make 100))
  = Err (errorString "attribute with ID: 99 is not found in dictionary").
Proof. vm_compute. reflexivity. Qed.

(* ===================================================================== *)
(** * Message-Authenticator: generate, then verify *)
(* ===================================================================== *)

Section MessageAuthenticator.

Import protocol.

Lemma hmac_Sum_length (key msg : list byte) : length (hmac.Sum key msg) = 16%nat.
Proof. unfold hmac.Sum. apply md5_Sum_length. Qed.

Lemma authenticatorLoop_length (n : nat) (acc : list byte) (r : Rand) :
  length (fst (authenticatorLoop n acc r)) = (length acc + n)%nat.
Proof.
  revert acc r. induction n as [|n IH]; intros acc r; cbn [authenticatorLoop].
  - simpl. lia.
  - unfold Intn. rewrite IH, length_app. simpl. lia.
Qed.

Lemma createPacketAuthenticator_length (r : Rand) :
  len (fst (createPacketAuthenticator r)) = 16.
Proof.
  unfold createPacketAuthenticator, len. rewrite authenticatorLoop_length.
  reflexivity.
Qed.

(** [ToBytes] on a packet without authenticator first draws one. *)
Lemma ToBytes_draws (P : RadiusPacket) (r : Rand) :
  len (pkt_authenticator P) = 0 ->
  ToBytes P r
  = ToBytes (OverrideAuthenticator P (fst (createPacketAuthenticator r)))
            (snd (createPacketAuthenticator r)).
Proof.
  intros H. pose proof (createPacketAuthenticator_length r) as Hl.
  unfold ToBytes. cbv zeta. rewrite H. rewrite Z.eqb_refl.
  destruct (createPacketAuthenticator r) as [a r1]. cbn [fst snd] in *.
  cbn [OverrideAuthenticator pkt_authenticator pkt_attributes pkt_code pkt_id].
  rewrite Hl. reflexivity.
Qed.

Lemma overrideFirst_found (attrs : list RadiusAttribute) (v w : list byte) :
  firstMessageAuthenticator attrs = Ok v ->
  exists attrs', overrideFirst attrs w = Some attrs'.
Proof.
  induction attrs as [|a attrs IH]; cbn [firstMessageAuthenticator overrideFirst];
    [discriminate|].
  destruct (String.eqb (attr_name a) "Message-Authenticator").
  - eexists. reflexivity.
  - intros H. destruct (IH H) as [attrs' E]. rewrite E. eexists. reflexivity.
Qed.

(** The value written is the value read back. *)
Lemma overrideFirst_read (attrs attrs' : list RadiusAttribute) (w : list byte) :
  overrideFirst attrs w = Some attrs' -> firstMessageAuthenticator attrs' = Ok w.
Proof.
  revert attrs'. induction attrs as [|a attrs IH]; intros attrs';
    cbn [overrideFirst]; [discriminate|].
  destruct (String.eqb (attr_name a) "Message-Authenticator") eqn:E.
  - intros H. injection H as <-. cbn [firstMessageAuthenticator OverrideValue attr_name].
    rewrite E. reflexivity.
  - destruct (overrideFirst attrs w) as [t|]; [|discriminate].
    intros H. injection H as <-. cbn [firstMessageAuthenticator]. rewrite E.
    apply IH. reflexivity.
Qed.

(** A second write replaces the first one. *)
Lemma overrideFirst_twice (attrs attrs' : list RadiusAttribute) (v w : list byte) :
  overrideFirst attrs v = Some attrs' ->
  overrideFirst attrs' w = overrideFirst attrs w.
Proof.
  revert attrs'. induction attrs as [|a attrs IH]; intros attrs';
    cbn [overrideFirst]; [discriminate|].
  destruct (String.eqb (attr_name a) "Message-Authenticator") eqn:E.
  - intros H. injection H as <-. cbn [overrideFirst OverrideValue attr_name].
    rewrite E. reflexivity.
  - destruct (overrideFirst attrs v) as [t|]; [|discriminate].
    intros H. injection H as <-. cbn [overrideFirst]. rewrite E.
    rewrite (IH t eq_refl). reflexivity.
Qed.

Lemma wellFormed_override dictionary (a : RadiusAttribute) (w : list byte) :
  wellFormedAttribute dictionary a -> len w <= 253 ->
  wellFormedAttribute dictionary (OverrideValue a w).
Proof.
  intros [Hr Hl] Hw. split; [|exact Hw].
  unfold resolves, CreateRadAttributeByID in *.
  cbn [OverrideValue attr_id attr_value].
  rewrite (byID_override _ _ _ w _ Hr). reflexivity.
Qed.

Lemma overrideFirst_wellFormed dictionary (attrs attrs' : list RadiusAttribute)
    (w : list byte) :
  Forall (wellFormedAttribute dictionary) attrs -> len w <= 253 ->
  overrideFirst attrs w = Some attrs' ->
  Forall (wellFormedAttribute dictionary) attrs'.
Proof.
  intros H Hw. revert attrs'. induction H as [|a attrs Ha Hattrs IH]; intros attrs';
    cbn [overrideFirst]; [discriminate|].
  destruct (String.eqb (attr_name a) "Message-Authenticator").
  - intros E. injection E as <-. constructor; [|exact Hattrs].
    apply wellFormed_override; assumption.
  - destruct (overrideFirst attrs w) as [t|]; [|discriminate].
    intros E. injection E as <-. constructor; [exact Ha | apply IH; reflexivity].
Qed.

Lemma OverrideMessageAuthenticator_found (P : RadiusPacket) (w : list byte) attrs' :
  overrideFirst (pkt_attributes P) w = Some attrs' ->
  OverrideMessageAuthenticator P w = (SetAttributes P attrs', None).
Proof.
  intros H. unfold OverrideMessageAuthenticator. rewrite H. reflexivity.
Qed.

(** Generate, serialise, verify. *)
Lemma generate_then_verify (host : Host) (P : RadiusPacket) (secret : string)
    (r : Rand) (sp : list byte) :
  snd (typeCodeToUint8 (pkt_code P)) = true ->
  len (pkt_authenticator P) = 16 \/ len (pkt_authenticator P) = 0 ->
  Forall (wellFormedAttribute (dictionary host)) (pkt_attributes P) ->
  (exists v, MessageAuthenticator P = Ok v) ->
  exists P' r' bytes,
    GenerateMessageAuthenticator P secret r = (None, P', r') /\
    ToBytes P' r' = ((bytes, true), P', r') /\
    VerifyMessageAuthenticator host secret (mkSlice bytes sp) r' = (Ok tt, r').
Proof.
  intros Hc Ha Hattrs [v Hv]. unfold MessageAuthenticator in Hv.
  destruct (overrideFirst_found _ v (make 16) Hv) as [attrs0 E0].
  (* the packet with the zeroed attribute and its authenticator in place *)
  set (P0 := SetAttributes P attrs0).
  set (a1 := if len (pkt_authenticator P) =? 0
             then fst (createPacketAuthenticator r) else pkt_authenticator P).
  set (r1 := if len (pkt_authenticator P) =? 0
             then snd (createPacketAuthenticator r) else r).
  set (P1 := OverrideAuthenticator P0 a1).
  assert (Ha1 : len a1 = 16).
  { unfold a1. destruct Ha as [Ha | Ha]; rewrite Ha.
    - change (16 =? 0) with false. cbv iota. exact Ha.
    - change (0 =? 0) with true. cbv iota. apply createPacketAuthenticator_length. }
  destruct (typeCodeToUint8 (pkt_code P)) as [b ok] eqn:Eb.
  simpl in Hc. subst ok.
  assert (T0 : exists bytes0, ToBytes P0 r = ((bytes0, true), P1, r1)
                              /\ ToBytes P1 r1 = ((bytes0, true), P1, r1)).
  { assert (T1 : exists bytes0, ToBytes P1 r1 = ((bytes0, true), P1, r1)).
    { eexists. apply (ToBytes_bytes P1 r1 b).
      - cbn [P1 OverrideAuthenticator pkt_authenticator]. lia.
      - exact Eb. }
    destruct T1 as [bytes0 T1]. exists bytes0. split; [|exact T1].
    destruct Ha as [Ha | Ha].
    - assert (P1 = P0 /\ r1 = r) as [-> ->].
      { unfold P1, a1, r1, P0. rewrite Ha. split; [|reflexivity].
        destruct P. reflexivity. }
      exact T1.
    - rewrite ToBytes_draws by exact Ha.
      assert (a1 = fst (createPacketAuthenticator r)
              /\ r1 = snd (createPacketAuthenticator r)) as [Ea Er].
      { unfold a1, r1. rewrite Ha. split; reflexivity. }
      rewrite <- Ea, <- Er. exact T1. }
  destruct T0 as (bytes0 & T0 & T1).
  set (hash := hmac.Sum (bytes_of secret) bytes0).
  assert (Hh : len hash = 16) by (unfold len, hash; rewrite hmac_Sum_length; reflexivity).
  assert (E2 : exists attrs2, overrideFirst attrs0 hash = Some attrs2).
  { apply (overrideFirst_found attrs0 (make 16)).
    apply (overrideFirst_read _ _ _ E0). }
  destruct E2 as [attrs2 E2].
  set (P2 := SetAttributes P1 attrs2).
  assert (G : GenerateMessageAuthenticator P secret r = (None, P2, r1)).
  { unfold GenerateMessageAuthenticator. cbv zeta.
    rewrite (OverrideMessageAuthenticator_found P _ _ E0). fold P0.
    rewrite T0. cbn [negb]. fold hash.
    rewrite (OverrideMessageAuthenticator_found P1 hash attrs2);
      [reflexivity | exact E2]. }
  assert (W2 : wellFormedPacket (dictionary host) P2).
  { split; [|split].
    - cbn [P2 P1 P0 SetAttributes OverrideAuthenticator pkt_code]. rewrite Eb. reflexivity.
    - exact Ha1.
    - cbn [P2 SetAttributes pkt_attributes].
      apply (overrideFirst_wellFormed _ attrs0 attrs2 hash); [|lia|exact E2].
      apply (overrideFirst_wellFormed _ (pkt_attributes P) attrs0 (make 16));
        [exact Hattrs | vm_compute; discriminate | exact E0]. }
  destruct (roundtrip (dictionary host) P2 r1 sp W2) as (bytes2 & T2 & R2).
  exists P2, r1, bytes2. split; [exact G|]. split; [exact T2|].
  unfold VerifyMessageAuthenticator. rewrite R2.
  unfold MessageAuthenticator. cbn [P2 SetAttributes pkt_attributes].
  rewrite (overrideFirst_read _ _ _ E2). cbv zeta.
  assert (E3 : overrideFirst attrs2 (make 16) = Some attrs0).
  { rewrite (overrideFirst_twice attrs0 attrs2 hash (make 16) E2).
    rewrite (overrideFirst_twice (pkt_attributes P) attrs0 (make 16) (make 16) E0).
    exact E0. }
  rewrite (OverrideMessageAuthenticator_found _ (make 16) attrs0)
    by (cbn [SetAttributes pkt_attributes]; exact E3).
  replace (SetAttributes P2 attrs0) with P1
    by (unfold P2, P1, P0; destruct P; reflexivity).
  rewrite T1. cbn [negb]. fold hash.
  unfold hmac.Equal. rewrite bytes_eqb_refl. reflexivity.
Qed.

End MessageAuthenticator.

(** C2, as stated, fails on a packet with a value of 254 bytes: the
    attribute is written with the length byte [uint8(256) = 0], and the
    verification panics when it slices the value out of the bytes. *)
Lemma C2_counterexample :
  let generated :=
    protocol.GenerateMessageAuthenticator long_value_packet "secret" counting in
  let P' := snd (fst generated) in
  let serialised := protocol.ToBytes P' (snd generated) in
  let bytes := fst (fst (fst serialised)) in
  (exists v, protocol.MessageAuthenticator long_value_packet = Ok v) /\
  snd (protocol.typeCodeToUint8 (protocol.pkt_code long_value_packet)) = true /\
  forallb (fun a => known test_dictionary (protocol.attr_id a))
          (protocol.pkt_attributes long_value_packet) = true /\
  fst (fst generated) = None /\
  snd (fst (fst serialised)) = true /\
  fst (protocol.VerifyMessageAuthenticator test_host "secret" (mkSlice bytes [])
         (snd serialised))
  = Panic (SliceOutOfRange 22 20 294).
Proof.
  cbv zeta. split; [eexists; reflexivity|].
  repeat split; vm_compute; reflexivity.
Qed.

(** C2, amended. For every packet that contains a Message-Authenticator
    attribute, has a known type code, has an authenticator of 16 bytes or
    none yet, and whose attributes all resolve in the dictionary under the
    name of the first dictionary attribute with their id and have values of
    at most 253 bytes: [GenerateMessageAuthenticator] returns no error, then
    [ToBytes] returns the bytes of the packet, and then the host's
    [VerifyMessageAuthenticator] with the same secret and dictionary on
    these bytes returns no error. *)
Theorem C2_generate_verify (host : protocol.Host) (P : protocol.RadiusPacket)
    (secret : string) (r : protocol.Rand) (sp : list byte) :
  snd (protocol.typeCodeToUint8 (protocol.pkt_code P)) = true ->
  len (protocol.pkt_authenticator P) = 16 \/ len (protocol.pkt_authenticator P) = 0 ->
  Forall (wellFormedAttribute (protocol.dictionary host)) (protocol.pkt_attributes P) ->
  (exists v, protocol.MessageAuthenticator P = Ok v) ->
  exists P' r' bytes,
    protocol.GenerateMessageAuthenticator P secret r = (None, P', r') /\
    protocol.ToBytes P' r' = ((bytes, true), P', r') /\
    protocol.VerifyMessageAuthenticator host secret (mkSlice bytes sp) r'
    = (Ok tt, r').
Proof.
  exact (generate_then_verify host P secret r sp).
Qed.

Lemma C2_witness :
  exists P' r' bytes,
    protocol.GenerateMessageAuthenticator test_packet_to_sign "secret" counting
    = (None, P', r') /\
    protocol.ToBytes P' r' = ((bytes, true), P', r') /\
    protocol.VerifyMessageAuthenticator test_host "secret" (mkSlice bytes []) r'
    = (Ok tt, r').
Proof.
  apply (C2_generate_verify test_host test_packet_to_sign "secret" counting []).
  - reflexivity.
  - left. reflexivity.
  - repeat constructor; vm_compute; discriminate.
  - eexists. reflexivity.
Defined.

(** The packet of the repository's test of [VerifyMessageAuthenticator]
    verifies: the models of MD5 and HMAC agree with Go's on it. *)
Example VerifyMessageAuthenticator_test :
  fst (protocol.VerifyMessageAuthenticator test_host "secret"
         (mkSlice signed_request []) counting) = Ok tt.
Proof. vm_compute. reflexivity. Qed.

(** What the other conditions of the amended C2 are for: with an
    authenticator of 15 bytes the parser reads the attributes from the wrong
    offset; with a dictionary in which another attribute comes first under
    code 80 the parsed attribute is not called Message-Authenticator.  An
    empty authenticator is filled by [ToBytes] and verifies. *)
Example sign_and_verify_short_authenticator :
  sign_and_verify test_dictionary
    (protocol.OverrideAuthenticator test_packet_to_sign (make 15)) "secret" counting
  = (None, true, Panic (SliceOutOfRange 22 212 59)).
Proof. vm_compute. reflexivity. Qed.

Example sign_and_verify_shadowed_name :
  sign_and_verify shadowing_dictionary
    (protocol.SetAttributes test_packet
       [fst (protocol.CreateRadAttributeByName shadowing_dictionary
               "Message-Authenticator" [])])
    "secret" counting
  = (None, true,
     Err (errorString "Message-Authenticator attribute not found in packet")).
Proof. vm_compute. reflexivity. Qed.

Example sign_and_verify_empty_authenticator :
  sign_and_verify test_dictionary
    (protocol.OverrideAuthenticator test_packet_to_sign []) "secret" counting
  = (None, true, Ok tt).
Proof. vm_compute. reflexivity. Qed.

(* ===================================================================== *)
(** * Totality: where the decoders return, and that the loop bounds of the
      model are never reached *)
(* ===================================================================== *)

Section Fuel.

Import tools protocol.

Local Arguments firstn : simpl never.
Local Arguments skipn : simpl never.

Lemma copy_length (dst src : list byte) : length (copy dst src) = length dst.
Proof.
  unfold copy. rewrite length_app, length_firstn, length_skipn. lia.
Qed.

Lemma stripLoop_fuel (fuel : nat) : forall result,
  (length result < fuel)%nat -> stripLoop fuel result <> Panic OutOfFuel.
Proof.
  induction fuel as [|fuel IH]; intros result H; [lia|].
  cbn [stripLoop].
  destruct result as [|x result'] eqn:E using rev_ind; [discriminate|].
  clear IHresult'.
  rewrite len_app. change (len [x]) with 1.
  replace (len result' + 1 - 1) with (len result') by lia.
  rewrite index_app_head. cbn [bind].
  destruct (Byte.eqb x x00); [|discriminate].
  rewrite (slice_head _ _ _ eq_refl). cbn [bind].
  apply IH. rewrite length_app in H. simpl in H. lia.
Qed.

Lemma decryptLoop_fuel (fuel : nat) : forall result data prevResult hash secret,
  (length data < fuel)%nat -> length hash = 16%nat ->
  decryptLoop fuel result data prevResult hash secret <> Panic OutOfFuel.
Proof.
  induction fuel as [|fuel IH]; intros result data prevResult hash secret H Hh; [lia|].
  cbn [decryptLoop].
  set (h := copy hash (md5.Sum (secret ++ prevResult))).
  assert (Hlh : length h = 16%nat) by (unfold h; rewrite copy_length; exact Hh).
  destruct (Nat.lt_ge_cases (length data) 16) as [Hs | Hs].
  - rewrite xor_into_hash_short by lia. discriminate.
  - rewrite xor_into_hash_ok by lia. cbn [bind].
    rewrite (slice_prefix data 16), (slice_suffix data 16) by (unfold len; lia).
    cbn [bind]. change (Z.to_nat 16) with 16%nat.
    destruct (len (skipn 16 data) =? 0); [discriminate|].
    apply IH.
    + rewrite length_skipn. lia.
    + rewrite xorl_length. lia.
Qed.

Lemma saltDecryptLoop_fuel (fuel : nat) : forall result data prevResult hash secret,
  (length data < fuel)%nat -> length hash = 16%nat ->
  saltDecryptLoop fuel result data prevResult hash secret <> Panic OutOfFuel.
Proof.
  induction fuel as [|fuel IH]; intros result data prevResult hash secret H Hh; [lia|].
  cbn [saltDecryptLoop].
  set (h := copy hash (md5.Sum (secret ++ prevResult))).
  assert (Hlh : length h = 16%nat) by (unfold h; rewrite copy_length; exact Hh).
  destruct (Nat.lt_ge_cases (length data) 16) as [Hs | Hs].
  - rewrite xor_into_hash_short by lia. discriminate.
  - rewrite xor_into_hash_ok by lia. cbn [bind].
    rewrite (slice_prefix data 16), (slice_suffix data 16) by (unfold len; lia).
    cbn [bind]. change (Z.to_nat 16) with 16%nat.
    destruct (len (skipn 16 data) =? 0); [discriminate|].
    apply IH.
    + rewrite length_skipn. lia.
    + rewrite xorl_length. lia.
Qed.

(** [DecryptData] returns or faults on an index: the bound of neither of
    its loops is reached. *)
Lemma DecryptData_fuel (data authenticator secret : list byte) :
  DecryptData data authenticator secret <> Panic OutOfFuel.
Proof.
  unfold DecryptData. cbv zeta.
  pose proof (decryptLoop_fuel (S (length data)) [] data
                (copy (make 16) authenticator) (make 16) secret
                ltac:(lia) (make_length 16)) as H.
  destruct (decryptLoop _ _ _ _ _ _) as [result|e|f]; cbn [bind].
  - apply stripLoop_fuel. lia.
  - discriminate.
  - congruence.
Qed.

Lemma reslice_not_fuel (s : Slice) (lo hi : Z) : reslice s lo hi <> Panic OutOfFuel.
Proof.
  destruct (reslice_cases s lo hi) as [[E _] | E]; rewrite E; discriminate.
Qed.

Lemma index_not_fuel {A} (s : list A) (i : Z) : index s i <> Panic OutOfFuel.
Proof.
  unfold index. destruct (_ && _); [destruct (nth_error _ _)|]; discriminate.
Qed.

Lemma attributesLoop_fuel (fuel : nat) : forall dictionary bytes lastIndex acc,
  (Z.to_nat (len (elems bytes) + 1 - lastIndex) < fuel)%nat ->
  attributesLoop fuel dictionary bytes lastIndex acc <> Panic OutOfFuel.
Proof.
  induction fuel as [|fuel IH]; intros dictionary bytes lastIndex acc H; [lia|].
  cbn [attributesLoop].
  destruct (lastIndex =? len (elems bytes)) eqn:E0; [discriminate|].
  apply Z.eqb_neq in E0.
  unfold index at 1.
  destruct ((0 <=? lastIndex) && (lastIndex <? len (elems bytes))) eqn:E1;
    [|cbn [bind]; discriminate].
  apply andb_true_iff in E1. destruct E1 as [E1 E2].
  apply Z.leb_le in E1. apply Z.ltb_lt in E2.
  destruct (nth_error (elems bytes) (Z.to_nat lastIndex)) as [attrID|];
    [|cbn [bind]; discriminate].
  cbn [bind].
  pose proof (index_not_fuel (elems bytes) (lastIndex + 1)) as Hi.
  destruct (index (elems bytes) (lastIndex + 1)) as [l|e|f]; cbn [bind];
    [|discriminate|congruence].
  destruct (reslice_cases bytes (lastIndex + 2) (lastIndex + int l))
    as [(Eq & Hlo & Hhi) | Eq]; rewrite Eq; cbn [bind]; [|discriminate].
  destruct (CreateRadAttributeByID dictionary attrID _) as [t ok].
  destruct ok; cbn [negb]; [|discriminate].
  apply IH. lia.
Qed.

(** [InitialiseRadiusPacketFromBytes] returns a packet, returns an error or
    faults on an index or a slice, whatever the buffer. *)
Lemma InitialiseRadiusPacketFromBytes_fuel dictionary (bytes : Slice) :
  InitialiseRadiusPacketFromBytes dictionary bytes <> Panic OutOfFuel.
Proof.
  unfold InitialiseRadiusPacketFromBytes.
  pose proof (index_not_fuel (elems bytes) 0) as H0.
  destruct (index (elems bytes) 0) as [b0|e|f] eqn:E0; cbn [bind];
    [|discriminate|congruence].
  destruct (typeCodeFromUint8 b0) as [code ok].
  destruct ok; cbn [negb]; [|discriminate].
  pose proof (index_not_fuel (elems bytes) 1) as H1.
  destruct (index (elems bytes) 1) as [id|e|f]; cbn [bind];
    [|discriminate|congruence].
  pose proof (reslice_not_fuel bytes 4 20) as H2.
  destruct (reslice bytes 4 20) as [a|e|f]; cbn [bind];
    [|discriminate|congruence].
  pose proof (attributesLoop_fuel (S (length (elems bytes))) dictionary bytes 20 []) as H3.
  destruct (attributesLoop _ _ _ _ _) as [attrs|e|f]; cbn [bind];
    [discriminate|discriminate|].
  intros E. apply H3; [unfold len; lia | congruence].
Qed.

Lemma slice_not_fuel {A} (s : list A) (lo hi : Z) : slice s lo hi <> Panic OutOfFuel.
Proof.
  unfold slice. destruct (_ && _); discriminate.
Qed.

Lemma SaltDecryptData_fuel (data authenticator secret : list byte) :
  SaltDecryptData data authenticator secret <> Panic OutOfFuel.
Proof.
  unfold SaltDecryptData. cbv zeta.
  destruct (_ <=? 1); [discriminate|].
  destruct (_ <=? 17); [discriminate|].
  pose proof (slice_not_fuel authenticator 0 16) as H1.
  destruct (slice authenticator 0 16) as [a16|e|f]; cbn [bind];
    [|discriminate|congruence].
  pose proof (slice_not_fuel data 0 2) as H2.
  destruct (slice data 0 2) as [s2|e|f]; cbn [bind]; [|discriminate|congruence].
  pose proof (slice_not_fuel data 2 (len data)) as H3.
  destruct (slice data 2 (len data)) as [data'|e|f]; cbn [bind];
    [|discriminate|congruence].
  match goal with
  | |- bind (saltDecryptLoop ?fuel ?r ?d ?p ?h ?k) _ <> _ =>
      pose proof (saltDecryptLoop_fuel fuel r d p h k ltac:(lia) (make_length 16)) as H4;
      destruct (saltDecryptLoop fuel r d p h k) as [result|e|f]; cbn [bind];
        [|discriminate|congruence]
  end.
  pose proof (index_not_fuel result 0) as H5.
  destruct (index result 0) as [targetLen|e|f]; cbn [bind];
    [|discriminate|congruence].
  pose proof (slice_not_fuel result 1 (len result)) as H6.
  destruct (slice result 1 (len result)) as [result'|e|f]; cbn [bind];
    [|discriminate|congruence].
  destruct (_ <? _); [discriminate|].
  apply slice_not_fuel.
Qed.

(** On a ciphertext that is empty or not made of whole blocks, the first
    loop of [DecryptData] reads past the end of the data. *)
Lemma decryptLoop_ill_sized (n : nat) : forall fuel result data prevResult hash secret,
  (length data / 16 = n)%nat -> (n < fuel)%nat -> length hash = 16%nat ->
  (length data = 0%nat \/ (length data mod 16 <> 0)%nat) ->
  decryptLoop fuel result data prevResult hash secret
  = Panic (IndexOutOfRange (len data mod 16) (len data mod 16)).
Proof.
  induction n as [|n IH]; intros fuel result data prevResult hash secret Hn Hf Hh Hd;
    (destruct fuel as [|fuel]; [lia|]); cbn [decryptLoop];
    set (h := copy hash (md5.Sum (secret ++ prevResult)));
    assert (Hlh : length h = 16%nat) by (unfold h; rewrite copy_length; exact Hh);
    pose proof (Nat.div_mod_eq (length data) 16) as Hdm;
    pose proof (Nat.mod_upper_bound (length data) 16 ltac:(lia)) as Hm.
  - assert (Hsmall : (length data mod 16 = length data)%nat)
      by (apply Nat.mod_small; lia).
    rewrite xor_into_hash_short by lia.
    rewrite len_mod16, Hsmall. reflexivity.
  - rewrite xor_into_hash_ok by lia. cbn [bind].
    rewrite (slice_prefix data 16), (slice_suffix data 16) by (unfold len; lia).
    cbn [bind]. change (Z.to_nat 16) with 16%nat.
    assert (Hs : length (skipn 16 data) = (length data - 16)%nat) by apply length_skipn.
    assert (Hsm : (length (skipn 16 data) mod 16 = length data mod 16)%nat).
    { rewrite Hs. replace (length data) with (length data - 16 + 1 * 16)%nat at 2 by lia.
      rewrite Nat.Div0.mod_add. reflexivity. }
    assert (Hsd : (length (skipn 16 data) / 16 = n)%nat).
    { rewrite Hs. replace (length data) with (length data - 16 + 1 * 16)%nat in Hn by lia.
      rewrite Nat.div_add in Hn by lia. lia. }
    replace (len (skipn 16 data) =? 0) with false
      by (symmetry; apply Z.eqb_neq; unfold len; lia).
    rewrite IH; try assumption; try lia.
    + rewrite !len_mod16, Hsm. reflexivity.
    + rewrite xorl_length. lia.
Qed.

Lemma DecryptData_ill_sized (data authenticator secret : list byte) :
  (length data = 0%nat \/ (length data mod 16 <> 0)%nat) ->
  DecryptData data authenticator secret
  = Panic (IndexOutOfRange (len data mod 16) (len data mod 16)).
Proof.
  intros H. unfold DecryptData. cbv zeta.
  rewrite (decryptLoop_ill_sized (length data / 16));
    first [reflexivity | assumption | apply make_length | idtac].
  pose proof (Nat.div_mod_eq (length data) 16). lia.
Qed.

(** A byte sequence is all zero, or ends with a non-zero byte followed by
    zero bytes. *)
Lemma trailing_zeros (l : list byte) :
  Forall (fun b => b = x00) l \/
  exists body b k, b <> x00 /\ l = body ++ [b] ++ repeat x00 k.
Proof.
  induction l as [|x l IH] using rev_ind; [left; constructor|].
  destruct (Byte.byte_eq_dec x x00) as [-> | Hx].
  - destruct IH as [Hz | (body & b & k & Hb & ->)].
    + left. apply Forall_app. split; [exact Hz | repeat constructor].
    + right. exists body, b, (S k). split; [exact Hb|].
      rewrite <- !app_assoc. do 2 f_equal.
      change (repeat x00 k ++ [x00] = repeat x00 (1 + k)).
      rewrite Nat.add_comm, repeat_app. reflexivity.
  - right. exists l, x, 0%nat. split; [exact Hx | reflexivity].
Qed.

(** [DecryptData] returns exactly on the ciphertexts of one or more whole
    blocks whose chain yields some non-zero byte; it then returns the chain
    without its trailing zeros. *)
Lemma DecryptData_returns (n : nat) (data A K : list byte) :
  length data = (16 * S n)%nat ->
  ~ Forall (fun b => b = x00) (decryptChain (S n) K (copy (make 16) A) data) ->
  exists P k,
    DecryptData data A K = Ok P /\ last P x00 <> x00 /\
    decryptChain (S n) K (copy (make 16) A) data = P ++ repeat x00 k.
Proof.
  intros Hd Hz. unfold DecryptData. cbv zeta.
  rewrite (decryptLoop_chain n) by
    (rewrite ?copy_length, ?make_length; lia).
  cbn [bind app].
  destruct (trailing_zeros (decryptChain (S n) K (copy (make 16) A) data))
    as [H | (body & b & k & Hb & E)]; [contradiction|].
  rewrite E. exists (body ++ [b]), k.
  split; [|split].
  - apply stripLoop_padded; [exact Hb|].
    rewrite !length_app, repeat_length. simpl. lia.
  - rewrite last_last. exact Hb.
  - rewrite <- app_assoc. reflexivity.
Qed.

End Fuel.

(* ===================================================================== *)
(** * Integers and timestamps on the wire *)
(* ===================================================================== *)

Section Scalars.

Import tools.

Lemma PutBigEndian_length (n : nat) (v : Z) : length (PutBigEndian n v) = n.
Proof. induction n as [|n IH]; cbn [PutBigEndian length]; congruence. Qed.

Lemma BigEndian_fold (b : list byte) (acc : Z) :
  fold_left (fun acc x => 256 * acc + int x) b acc
  = acc * 256 ^ len b + BigEndian b.
Proof.
  unfold BigEndian. revert acc.
  induction b as [|x b IH]; intros acc.
  - cbn. lia.
  - cbn [fold_left]. rewrite IH, (IH (256 * 0 + int x)).
    replace (len (x :: b)) with (len b + 1) by (unfold len; cbn [length]; lia).
    rewrite Z.pow_add_r by (pose proof (len_nonneg b); lia). lia.
Qed.

Lemma BigEndian_cons (x : byte) (b : list byte) :
  BigEndian (x :: b) = int x * 256 ^ len b + BigEndian b.
Proof.
  unfold BigEndian at 1. cbn [fold_left]. rewrite BigEndian_fold. lia.
Qed.

Lemma BigEndian_range (b : list byte) : 0 <= BigEndian b < 256 ^ len b.
Proof.
  induction b as [|x b IH].
  - cbn. lia.
  - rewrite BigEndian_cons.
    replace (len (x :: b)) with (len b + 1) by (unfold len; cbn [length]; lia).
    rewrite Z.pow_add_r by (pose proof (len_nonneg b); lia).
    pose proof (int_range x). nia.
Qed.

(** The bytes written are the value modulo [256 ^ n], most significant
    byte first. *)
Lemma BigEndian_PutBigEndian (n : nat) (v : Z) :
  BigEndian (PutBigEndian n v) = v mod 256 ^ Z.of_nat n.
Proof.
  induction n as [|n IH].
  - cbn. symmetry. apply Z.mod_1_r.
  - cbn [PutBigEndian]. rewrite BigEndian_cons, IH, int_uint8.
    unfold len. rewrite PutBigEndian_length.
    rewrite Z.shiftr_div_pow2 by lia.
    replace (2 ^ (8 * Z.of_nat n)) with (256 ^ Z.of_nat n)
      by (change 256 with (2 ^ 8); rewrite <- Z.pow_mul_r by lia; reflexivity).
    replace (Z.of_nat (S n)) with (Z.of_nat n + 1) by lia.
    rewrite Z.pow_add_r by lia. change (256 ^ 1) with 256.
    assert (Hp : 0 < 256 ^ Z.of_nat n) by (apply Z.pow_pos_nonneg; lia).
    rewrite (Z.rem_mul_r v (256 ^ Z.of_nat n) 256) by lia. lia.
Qed.

Lemma BigEndian_inj (a b : list byte) :
  length a = length b -> BigEndian a = BigEndian b -> a = b.
Proof.
  revert b. induction a as [|x a IH]; intros [|y b] Hl E; try discriminate;
    [reflexivity|].
  injection Hl as Hl. rewrite !BigEndian_cons in E.
  assert (Hlen : len a = len b) by (unfold len; congruence).
  rewrite Hlen in E.
  pose proof (BigEndian_range a) as Ra. pose proof (BigEndian_range b) as Rb.
  rewrite Hlen in Ra.
  pose proof (int_range x). pose proof (int_range y).
  assert (Hx : int x = int y) by nia.
  f_equal; [apply int_inj; exact Hx|]. apply IH; [exact Hl|]. nia.
Qed.

Lemma PutBigEndian_BigEndian (b : list byte) :
  PutBigEndian (length b) (BigEndian b) = b.
Proof.
  apply BigEndian_inj; [apply PutBigEndian_length|].
  rewrite BigEndian_PutBigEndian. apply Z.mod_small. apply BigEndian_range.
Qed.

End Scalars.

(** X1. Unsigned 32-bit integers and values of four bytes correspond:
    [BytesToInteger] reads back the integer [IntegerToBytes] wrote, from
    four bytes, and [IntegerToBytes] writes back, byte for byte, any four
    bytes [BytesToInteger] has read. *)
Theorem X1_integer_round_trip (n : Z) (b : list byte) :
  0 <= n < 2 ^ 32 -> len b = 4 ->
  len (tools.IntegerToBytes n) = 4 /\
  tools.BytesToInteger (tools.IntegerToBytes n) = (n, true) /\
  snd (tools.BytesToInteger b) = true /\
  0 <= fst (tools.BytesToInteger b) < 2 ^ 32 /\
  tools.IntegerToBytes (fst (tools.BytesToInteger b)) = b.
Proof.
  intros Hn Hb. unfold tools.BytesToInteger, tools.IntegerToBytes.
  assert (L : len (tools.PutBigEndian 4 n) = 4)
    by (unfold len; rewrite PutBigEndian_length; reflexivity).
  rewrite L, Hb. cbn [Z.eqb Pos.eqb negb fst snd].
  split; [reflexivity|]. split.
  { rewrite BigEndian_PutBigEndian. rewrite Z.mod_small; [reflexivity|].
    change (256 ^ Z.of_nat 4) with (2 ^ 32). exact Hn. }
  split; [reflexivity|]. split.
  - pose proof (BigEndian_range b) as R. rewrite Hb in R. exact R.
  - replace 4%nat with (length b) by (unfold len in Hb; lia).
    apply PutBigEndian_BigEndian.
Qed.

Lemma X1_witness :
  let n := 3232235786 in
  let b := bytes_of_ints [192; 168; 1; 10] in
  len (tools.IntegerToBytes n) = 4 /\
  tools.BytesToInteger (tools.IntegerToBytes n) = (n, true) /\
  snd (tools.BytesToInteger b) = true /\
  0 <= fst (tools.BytesToInteger b) < 2 ^ 32 /\
  tools.IntegerToBytes (fst (tools.BytesToInteger b)) = b.
Proof.
  intros n b. apply (X1_integer_round_trip n b); [lia | reflexivity].
Defined.

(** X2. The same for 64 bits and eight bytes, with [Integer64ToBytes] and
    [BytesToInteger64]. *)
Theorem X2_integer64_round_trip (n : Z) (b : list byte) :
  0 <= n < 2 ^ 64 -> len b = 8 ->
  len (tools.Integer64ToBytes n) = 8 /\
  tools.BytesToInteger64 (tools.Integer64ToBytes n) = (n, true) /\
  snd (tools.BytesToInteger64 b) = true /\
  0 <= fst (tools.BytesToInteger64 b) < 2 ^ 64 /\
  tools.Integer64ToBytes (fst (tools.BytesToInteger64 b)) = b.
Proof.
  intros Hn Hb. unfold tools.BytesToInteger64, tools.Integer64ToBytes.
  assert (L : len (tools.PutBigEndian 8 n) = 8)
    by (unfold len; rewrite PutBigEndian_length; reflexivity).
  rewrite L, Hb. cbn [Z.eqb Pos.eqb negb fst snd].
  split; [reflexivity|]. split.
  { rewrite BigEndian_PutBigEndian. rewrite Z.mod_small; [reflexivity|].
    change (256 ^ Z.of_nat 8) with (2 ^ 64). exact Hn. }
  split; [reflexivity|]. split.
  - pose proof (BigEndian_range b) as R. rewrite Hb in R. exact R.
  - replace 8%nat with (length b) by (unfold len in Hb; lia).
    apply PutBigEndian_BigEndian.
Qed.

Lemma X2_witness :
  let n := 10000000000 in
  let b := bytes_of_ints [0; 0; 0; 2; 84; 11; 228; 0] in
  len (tools.Integer64ToBytes n) = 8 /\
  tools.BytesToInteger64 (tools.Integer64ToBytes n) = (n, true) /\
  snd (tools.BytesToInteger64 b) = true /\
  0 <= fst (tools.BytesToInteger64 b) < 2 ^ 64 /\
  tools.Integer64ToBytes (fst (tools.BytesToInteger64 b)) = b.
Proof.
  intros n b. apply (X2_integer64_round_trip n b); [lia | reflexivity].
Defined.

(** X3. [TimestampToBytes] on a Go [int64]: a timestamp above [0xFFFFFFFF]
    is refused with an error; every other one, the negative ones too, is
    written as four bytes, and [BytesToTimestamp] reads back the timestamp
    modulo [2^32]: the timestamp itself from 0 on, and [2^32 + t] for a
    negative [t], which is not refused. *)
Theorem X3_TimestampToBytes (t : Z) :
  - 2 ^ 63 <= t < 2 ^ 63 ->
  (4294967295 < t ->
     tools.TimestampToBytes t
     = Err (errorString "Provided integer won't fit into uint32")) /\
  (t <= 4294967295 ->
     exists b, tools.TimestampToBytes t = Ok b /\ len b = 4 /\
       tools.BytesToTimestamp b = (t mod 2 ^ 32, true)) /\
  (0 <= t <= 4294967295 -> t mod 2 ^ 32 = t) /\
  (t < 0 -> t mod 2 ^ 32 <> t).
Proof.
  intros Ht. unfold tools.TimestampToBytes. repeat split.
  - intros H. apply Z.ltb_lt in H. rewrite H. reflexivity.
  - intros H. apply Z.ltb_ge in H. rewrite H. eexists. split; [reflexivity|].
    unfold tools.BytesToTimestamp, len. rewrite PutBigEndian_length.
    split; [reflexivity|].
    cbn [Z.of_nat Pos.of_succ_nat Pos.succ Z.eqb Pos.eqb negb].
    rewrite BigEndian_PutBigEndian.
    change (256 ^ Z.of_nat 4) with 4294967296. change (2 ^ 32) with 4294967296.
    rewrite Z.mod_mod by lia. reflexivity.
  - intros H. apply Z.mod_small. lia.
  - intros H. pose proof (Z.mod_pos_bound t (2 ^ 32) ltac:(lia)). lia.
Qed.

Lemma X3_witness :
  (4294967295 < -1 ->
     tools.TimestampToBytes (-1)
     = Err (errorString "Provided integer won't fit into uint32")) /\
  (-1 <= 4294967295 ->
     exists b, tools.TimestampToBytes (-1) = Ok b /\ len b = 4 /\
       tools.BytesToTimestamp b = ((-1) mod 2 ^ 32, true)) /\
  (0 <= -1 <= 4294967295 -> (-1) mod 2 ^ 32 = -1) /\
  (-1 < 0 -> (-1) mod 2 ^ 32 <> -1).
Proof. apply (X3_TimestampToBytes (-1)). lia. Defined.

(* ===================================================================== *)
(** * Tunnel-Password: SaltEncryptData, and SaltDecryptData after it *)
(* ===================================================================== *)

Section SaltedEncryption.

Import tools.

Local Arguments firstn : simpl never.
Local Arguments skipn : simpl never.

Lemma firstn_make (p : nat) (n : Z) :
  (p <= Z.to_nat n)%nat -> firstn p (make n) = repeat x00 p.
Proof.
  intros H. unfold make.
  replace (Z.to_nat n) with (p + (Z.to_nat n - p))%nat by lia.
  rewrite repeat_app, firstn_app, repeat_length, Nat.sub_diag, firstn_O, app_nil_r.
  apply firstn_all2. rewrite repeat_length. lia.
Qed.

Lemma saltedPlaintext_length (data : list byte) :
  length (saltedPlaintext data) = (16 * S (length data / 16))%nat.
Proof.
  unfold saltedPlaintext. cbn [length]. rewrite length_app, repeat_length.
  pose proof (Nat.div_mod_eq (length data) 16).
  pose proof (Nat.mod_upper_bound (length data) 16 ltac:(lia)). lia.
Qed.

(** [SaltEncryptData] writes the salt and then the chain over that buffer,
    keyed by the authenticator followed by the salt. *)
Lemma SaltEncryptData_chain (data A salt K : list byte) :
  1 <= len data -> len A = 16 -> len salt = 2 ->
  SaltEncryptData data A salt K
  = Ok (salt ++ encryptChain (S (length data / 16)) K (A ++ salt)
                  (saltedPlaintext data)).
Proof.
  intros Hd HA Hs. unfold SaltEncryptData. cbv zeta.
  replace (len data =? 0) with false by (symmetry; apply Z.eqb_neq; lia).
  set (p := (15 - length data mod 16)%nat).
  pose proof (Nat.mod_upper_bound (length data) 16 ltac:(lia)) as Hmod.
  assert (Hp : 15 - len data mod 16 = Z.of_nat p)
    by (unfold p; rewrite len_mod16; lia).
  rewrite Hp.
  rewrite (slice_prefix (make 16) (Z.of_nat p))
    by (unfold len; rewrite make_length; lia).
  cbn [bind]. rewrite Nat2Z.id, firstn_make by (change (Z.to_nat 16) with 16%nat; lia).
  rewrite (slice_prefix A 16) by lia. cbn [bind].
  rewrite firstn_all2 by (unfold len in HA; lia).
  rewrite (slice_prefix salt 2) by lia. cbn [bind].
  rewrite (firstn_all2 salt) by (unfold len in Hs; lia).
  rewrite salted_authenticator by (unfold len in *; lia).
  cbn [app]. unfold p. fold (saltedPlaintext data).
  unfold encryptHelper.
  destruct (encryptLoop_chain (length data / 16)
              (S (length (saltedPlaintext data))) salt (saltedPlaintext data)
              (A ++ salt) (make 16) K (make 16) 1
              (saltedPlaintext_length data)
              ltac:(rewrite saltedPlaintext_length; lia)
              (make_length 16) (make_length 16) ltac:(lia))
    as [hash' E].
  rewrite E. cbn [bind]. rewrite Z.eqb_refl. reflexivity.
Qed.

End SaltedEncryption.

(** X4. [SaltEncryptData] on data of one byte or more, with an
    authenticator of 16 bytes and a salt of 2: the result starts with the
    salt and goes on with [16 * (|data| / 16 + 1)] bytes of ciphertext, so it
    has 18 bytes or more and two more than a multiple of 16.  On empty data
    the result is empty, without the salt. *)
Theorem X4_SaltEncryptData_shape (data A salt K : list byte) :
  len A = 16 -> len salt = 2 ->
  (len data = 0 -> tools.SaltEncryptData data A salt K = Ok []) /\
  (1 <= len data ->
     exists c, tools.SaltEncryptData data A salt K = Ok (salt ++ c) /\
       len c = 16 * (len data / 16 + 1) /\
       len (salt ++ c) = 2 + ceil16 (len data + 1)).
Proof.
  intros HA Hs. split.
  - intros H. unfold tools.SaltEncryptData. rewrite H. reflexivity.
  - intros Hd. rewrite SaltEncryptData_chain by assumption.
    eexists. split; [reflexivity|].
    assert (L : len (encryptChain (S (length data / 16)) K (A ++ salt)
                       (saltedPlaintext data)) = 16 * (len data / 16 + 1)).
    { unfold len. rewrite encryptChain_length
        by (rewrite saltedPlaintext_length; lia).
      pose proof (Nat2Z.inj_div (length data) 16) as Hq.
      change (Z.of_nat 16) with 16 in Hq. rewrite <- Hq. lia. }
    split; [exact L|]. rewrite len_app, L, Hs. unfold ceil16.
    pose proof (Z.div_mod (len data) 16 ltac:(lia)).
    pose proof (Z.mod_pos_bound (len data) 16 ltac:(lia)).
    replace (len data + 1 + 15) with (len data + 1 * 16) by lia.
    rewrite Z.div_add by lia. lia.
Qed.

Lemma X4_witness :
  let data := bytes_of "password" in
  let A := make 16 in
  let salt := bytes_of_ints [133; 154] in
  let K := bytes_of "secret" in
  (len data = 0 -> tools.SaltEncryptData data A salt K = Ok []) /\
  (1 <= len data ->
     exists c, tools.SaltEncryptData data A salt K = Ok (salt ++ c) /\
       len c = 16 * (len data / 16 + 1) /\
       len (salt ++ c) = 2 + ceil16 (len data + 1)).
Proof.
  intros data A salt K.
  apply (X4_SaltEncryptData_shape data A salt K); reflexivity.
Defined.

(** X5. What [SaltEncryptData] returns for data of 1 to 239 bytes,
    [SaltDecryptData] decrypts to the same data, with the same authenticator
    of 16 bytes and the same secret, whatever the 2 bytes of salt. *)
Theorem X5_SaltDecryptData_SaltEncryptData (data A salt K : list byte) :
  1 <= len data <= 239 -> len A = 16 -> len salt = 2 ->
  exists c, tools.SaltEncryptData data A salt K = Ok c /\
            tools.SaltDecryptData c A K = Ok data.
Proof.
  intros Hd HA Hs. rewrite SaltEncryptData_chain by (assumption || lia).
  eexists. split; [reflexivity|].
  set (n := (length data / 16)%nat).
  set (C := encryptChain (S n) K (A ++ salt) (saltedPlaintext data)).
  pose proof (saltedPlaintext_length data) as HD. fold n in HD.
  assert (HC : length C = (16 * S n)%nat)
    by (unfold C; apply encryptChain_length; lia).
  pose proof (Nat.div_mod_eq (length data) 16) as Hdm. fold n in Hdm.
  pose proof (Nat.mod_upper_bound (length data) 16 ltac:(lia)) as Hmod.
  assert (Hn : (n <= 14)%nat) by (unfold len in Hd; lia).
  assert (Hlen : len (salt ++ C) = 2 + 16 * Z.of_nat (S n))
    by (rewrite len_app, Hs; unfold len; lia).
  assert (Hq : (len (salt ++ C) - 2) / 16 = Z.of_nat (S n)).
  { rewrite Hlen. replace (2 + 16 * Z.of_nat (S n) - 2) with (Z.of_nat (S n) * 16) by lia.
    apply Z.div_mul. lia. }
  rewrite SaltDecryptData_blocks.
  - rewrite Hq, Nat2Z.id.
    assert (F : firstn 2 (salt ++ C) = salt).
    { rewrite firstn_app, firstn_all2 by (unfold len in Hs; lia).
      replace (2 - length salt)%nat with 0%nat by (unfold len in Hs; lia).
      rewrite firstn_O. apply app_nil_r. }
    assert (G : skipn 2 (salt ++ C) = C).
    { rewrite skipn_app, skipn_all2 by (unfold len in Hs; lia).
      replace (2 - length salt)%nat with 0%nat by (unfold len in Hs; lia).
      reflexivity. }
    rewrite F, G. unfold C.
    rewrite decryptChain_encryptChain by exact HD.
    unfold saltedPlaintext. cbn [hd tl]. rewrite int_uint8.
    rewrite Z.mod_small by lia.
    replace (len (salt ++ encryptChain (S n) K (A ++ salt)
               (uint8 (len data) :: data ++ repeat x00 (15 - length data mod 16)))
             - 3 <? len data) with false.
    + unfold len. rewrite Nat2Z.id, firstn_app, Nat.sub_diag, firstn_O, app_nil_r.
      rewrite firstn_all. reflexivity.
    + symmetry. apply Z.ltb_ge. fold (saltedPlaintext data). fold C.
      rewrite Hlen. unfold len. lia.
  - exact HA.
  - rewrite Hlen. lia.
  - rewrite Hlen. replace (2 + 16 * Z.of_nat (S n) - 2) with (Z.of_nat (S n) * 16) by lia.
    apply Z.mod_mul. lia.
Qed.

Lemma X5_witness :
  let data := bytes_of "password" in
  let A := make 16 in
  let salt := bytes_of_ints [133; 154] in
  let K := bytes_of "secret" in
  exists c, tools.SaltEncryptData data A salt K = Ok c /\
            tools.SaltDecryptData c A K = Ok data.
Proof.
  intros data A salt K.
  apply (X5_SaltDecryptData_SaltEncryptData data A salt K).
  - vm_compute. split; discriminate.
  - reflexivity.
  - reflexivity.
Defined.

(** X6. From 240 bytes on the two do not compose: for data of 240 to 255
    bytes [SaltEncryptData] returns 258 bytes, [SaltDecryptData] cuts that
    length to 8 bits, takes the input for one of 2 bytes, and returns the
    empty plaintext with no error. *)
Theorem X6_SaltDecryptData_long_data (data A salt K : list byte) :
  240 <= len data <= 255 -> len A = 16 -> len salt = 2 ->
  exists c, tools.SaltEncryptData data A salt K = Ok c /\ len c = 258 /\
            tools.SaltDecryptData c A K = Ok [].
Proof.
  intros Hd HA Hs. rewrite SaltEncryptData_chain by (assumption || lia).
  eexists. split; [reflexivity|].
  assert (Hq : (length data / 16 = 15)%nat).
  { unfold len in Hd.
    pose proof (Nat.div_mod_eq (length data) 16).
    pose proof (Nat.mod_upper_bound (length data) 16 ltac:(lia)). lia. }
  assert (L : len (salt ++ encryptChain (S (length data / 16)) K (A ++ salt)
                              (saltedPlaintext data)) = 258).
  { rewrite len_app, Hs. unfold len.
    rewrite encryptChain_length by (rewrite saltedPlaintext_length; lia).
    rewrite Hq. reflexivity. }
  split; [exact L|].
  unfold tools.SaltDecryptData. cbv zeta. rewrite L. reflexivity.
Qed.

Lemma X6_witness :
  let data := make 240 in
  let A := make 16 in
  let salt := bytes_of_ints [133; 154] in
  let K := bytes_of "secret" in
  exists c, tools.SaltEncryptData data A salt K = Ok c /\ len c = 258 /\
            tools.SaltDecryptData c A K = Ok [].
Proof.
  intros data A salt K.
  apply (X6_SaltDecryptData_long_data data A salt K).
  - vm_compute. split; discriminate.
  - reflexivity.
  - reflexivity.
Defined.

(* ===================================================================== *)
(** * DecryptData on other inputs *)
(* ===================================================================== *)

(** X7. A plaintext that ends in zero bytes does not come back whole: for a
    plaintext made of [Q], whose last byte is not zero, followed by [k] zero
    bytes, [DecryptData] of what [EncryptData] returns is [Q]; the zero bytes
    at the end are taken for padding and dropped. *)
Theorem X7_DecryptData_drops_trailing_zeros (Q A K : list byte) (k : nat) :
  1 <= len Q -> last Q x00 <> x00 -> len A = 16 ->
  exists c, tools.EncryptData (Q ++ repeat x00 k) A K = Ok c /\
            tools.DecryptData c A K = Ok Q.
Proof.
  intros HQ Hlast HA.
  rewrite EncryptData_chain. eexists; split; [reflexivity|].
  set (P := Q ++ repeat x00 k).
  set (n := (length P / 16)%nat). set (p := (16 - length P mod 16)%nat).
  pose proof (Nat.div_mod_eq (length P) 16) as Hdm.
  pose proof (Nat.mod_upper_bound (length P) 16 ltac:(lia)) as Hmod.
  assert (Hlen : length (P ++ repeat x00 p) = (16 * S n)%nat)
    by (unfold n, p; rewrite length_app, repeat_length; lia).
  unfold tools.DecryptData.
  rewrite copy_same_length by (rewrite make_length; unfold len in HA; lia).
  rewrite (decryptLoop_chain n)
    by (rewrite ?encryptChain_length, ?make_length; unfold len in HA; lia).
  cbn [bind app].
  rewrite decryptChain_encryptChain by exact Hlen.
  assert (HQ' : Q <> []) by (intros ->; unfold len in HQ; simpl in HQ; lia).
  unfold P. rewrite <- app_assoc, <- repeat_app.
  rewrite (app_removelast_last x00 HQ') at 1 2.
  rewrite <- app_assoc.
  rewrite stripLoop_padded.
  - rewrite <- app_removelast_last by exact HQ'. reflexivity.
  - exact Hlast.
  - rewrite !length_app, repeat_length. simpl. lia.
Qed.

Lemma X7_witness :
  let Q := bytes_of "password" in
  let A := make 16 in
  let K := bytes_of "secret" in
  exists c, tools.EncryptData (Q ++ repeat x00 3) A K = Ok c /\
            tools.DecryptData c A K = Ok Q.
Proof.
  intros Q A K. apply (X7_DecryptData_drops_trailing_zeros Q A K 3).
  - vm_compute. discriminate.
  - vm_compute. discriminate.
  - reflexivity.
Defined.

(** X8. [DecryptData] panics on every ciphertext that is empty or whose
    length is not a multiple of 16, whatever the authenticator and the
    secret: with [r] bytes left of the last block, the loop that combines the
    hash with the data reads index [r] of [r] bytes. *)
Theorem X8_DecryptData_ill_sized (data A K : list byte) :
  len data = 0 \/ len data mod 16 <> 0 ->
  tools.DecryptData data A K
  = Panic (IndexOutOfRange (len data mod 16) (len data mod 16)).
Proof.
  intros H. apply DecryptData_ill_sized.
  rewrite len_mod16 in H. unfold len in H. lia.
Qed.

Lemma X8_witness :
  tools.DecryptData (make 20) (make 16) (bytes_of "secret")
  = Panic (IndexOutOfRange (len (make 20) mod 16) (len (make 20) mod 16)).
Proof.
  apply (X8_DecryptData_ill_sized (make 20) (make 16) (bytes_of "secret")).
  right. vm_compute. discriminate.
Defined.

(* ===================================================================== *)
(** * IP addresses as text *)
(* ===================================================================== *)

Section Addresses.

Import tools.

Lemma Split_slashFree (s : string) :
  slashFree s = true -> strings.Split s "/" = [s].
Proof.
  induction s as [|c r IH]; intros H; [reflexivity|].
  cbn [slashFree] in H. apply andb_true_iff in H. destruct H as [Hc Hr].
  cbn [strings.Split]. apply negb_true_iff in Hc. rewrite Hc, (IH Hr). reflexivity.
Qed.

Lemma Split_slash (a b : string) :
  slashFree a = true ->
  strings.Split (a ++ String "/" b) "/" = a :: strings.Split b "/".
Proof.
  induction a as [|c r IH]; intros H.
  - reflexivity.
  - cbn [slashFree] in H. apply andb_true_iff in H. destruct H as [Hc Hr].
    apply negb_true_iff in Hc.
    cbn [String.append strings.Split]. rewrite Hc, (IH Hr). reflexivity.
Qed.

Lemma slashFree_app (a b : string) :
  slashFree (a ++ b) = slashFree a && slashFree b.
Proof.
  induction a as [|c r IH]; [reflexivity|].
  cbn [String.append slashFree]. rewrite IH. apply andb_assoc.
Qed.

Lemma slashFree_itoa (b : byte) : slashFree (itoa (int b)) = true.
Proof. destruct b; reflexivity. Qed.

Lemma ParseUint8_itoa (b : byte) : strconv.ParseUint8 (itoa (int b)) = Ok (int b).
Proof. destruct b; reflexivity. Qed.

Lemma slashFree_dotted (a b c d : byte) : slashFree (dotted a b c d) = true.
Proof.
  unfold dotted. rewrite !slashFree_app, !slashFree_itoa. reflexivity.
Qed.

Lemma Split_two (a p : string) :
  slashFree a = true -> slashFree p = true ->
  strings.Split (a ++ "/" ++ p) "/" = [a; p].
Proof.
  intros Ha Hp. change ("/" ++ p)%string with (String "/" p).
  rewrite Split_slash, Split_slashFree by assumption. reflexivity.
Qed.

End Addresses.

(** X9. An IPv4 value written as text by [BytesToIPv4String] is read back
    by [IPv4StringToBytes], given that [net.ParseIP] returns the 16-byte
    form of a dotted address: the four bytes of an address, and the six
    bytes of an address with a prefix length of 32 or less whose first byte
    is 0. *)
Theorem X9_IPv4StringToBytes_BytesToIPv4String
    (ParseIP : string -> list byte) (pre : list byte) (p a b c d : byte) :
  len pre = 12 ->
  ParseIP (tools.dotted a b c d) = pre ++ [a; b; c; d] ->
  int p <= 32 ->
  tools.IPv4StringToBytes ParseIP (fst (tools.BytesToIPv4String [a; b; c; d]))
  = Ok [a; b; c; d] /\
  tools.IPv4StringToBytes ParseIP
    (fst (tools.BytesToIPv4String [x00; p; a; b; c; d]))
  = Ok [x00; p; a; b; c; d].
Proof.
  intros Hpre HIP Hp.
  assert (Htail : slice (pre ++ [a; b; c; d]) 12 (len (pre ++ [a; b; c; d]))
                  = Ok [a; b; c; d]) by (apply slice_tail; exact Hpre).
  split; unfold tools.IPv4StringToBytes, tools.BytesToIPv4String; cbn [fst].
  - rewrite Split_slashFree by apply slashFree_dotted.
    cbn [len length Z.of_nat Z.eqb Pos.of_succ_nat Pos.eqb bind app].
    rewrite index_first. cbn [bind]. rewrite HIP, Htail. reflexivity.
  - replace (tools.BigEndian [x00; p]) with (int p)
      by (unfold tools.BigEndian; cbn [fold_left]; change (int x00) with 0; lia).
    rewrite Split_two by (apply slashFree_dotted || apply slashFree_itoa).
    change (len [tools.dotted a b c d; itoa (int p)] =? 2) with true. cbv iota.
    change (index [tools.dotted a b c d; itoa (int p)] 1) with (Ok (itoa (int p))).
    cbn [bind]. rewrite ParseUint8_itoa. cbn [bind].
    replace (32 <? int p) with false by (symmetry; apply Z.ltb_ge; exact Hp).
    cbn [bind app]. rewrite index_first. cbn [bind].
    rewrite HIP, Htail, uint8_int. reflexivity.
Qed.

Lemma X9_witness :
  let a := uint8 192 in let b := uint8 168 in let c := uint8 1 in let d := uint8 10 in
  let p := uint8 24 in
  tools.IPv4StringToBytes net.ParseIPv4 (fst (tools.BytesToIPv4String [a; b; c; d]))
  = Ok [a; b; c; d] /\
  tools.IPv4StringToBytes net.ParseIPv4
    (fst (tools.BytesToIPv4String [x00; p; a; b; c; d]))
  = Ok [x00; p; a; b; c; d].
Proof.
  intros a b c d p.
  apply (X9_IPv4StringToBytes_BytesToIPv4String net.ParseIPv4
           (repeat x00 10 ++ [xff; xff]) p a b c d).
  - reflexivity.
  - vm_compute. reflexivity.
  - vm_compute. discriminate.
Defined.

(** X10. The prefix length of an address text, the part after its one
    [/], in the two decoders.  Both return the error of [ParseUint] for a
    prefix that is not a decimal number in 0..255, whatever stands before the
    [/].  [IPv4StringToBytes] also refuses a prefix above 32, before it looks
    at the address.  [IPv6StringToBytes] has no such bound and does not check
    the address: it returns a zero byte, the prefix, and then what
    [net.ParseIP] returns for the address part, which is the nil slice for a
    text that is no address. *)
Theorem X10_prefix_length (ParseIP : string -> list byte) (a p : string) :
  slashFree a = true -> slashFree p = true ->
  (forall e, strconv.ParseUint8 p = Err e ->
     tools.IPv4StringToBytes ParseIP (a ++ "/" ++ p) = Err e /\
     tools.IPv6StringToBytes ParseIP (a ++ "/" ++ p) = Err e) /\
  (forall v, strconv.ParseUint8 p = Ok v ->
     (32 < v ->
        tools.IPv4StringToBytes ParseIP (a ++ "/" ++ p)
        = Err (errorString ("IPv4 Subnet must be no greater than 32, you provided "
                            ++ itoa v))) /\
     tools.IPv6StringToBytes ParseIP (a ++ "/" ++ p)
     = Ok ([x00; uint8 v] ++ ParseIP a)) /\
  tools.IPv6StringToBytes ParseIP a = Ok (ParseIP a).
Proof.
  intros Ha Hp.
  assert (E4 : forall s, strings.Split (a ++ "/" ++ p) "/" = s -> s = [a; p])
    by (intros s <-; apply Split_two; assumption).
  split; [|split].
  - intros e E. unfold tools.IPv4StringToBytes, tools.IPv6StringToBytes.
    rewrite Split_two by assumption.
    change (len [a; p] =? 2) with true. cbv iota.
    change (index [a; p] 1) with (Ok p). cbn [bind]. rewrite E. cbn [bind].
    split; reflexivity.
  - intros v E. unfold tools.IPv4StringToBytes, tools.IPv6StringToBytes.
    rewrite Split_two by assumption.
    change (len [a; p] =? 2) with true. cbv iota.
    change (index [a; p] 1) with (Ok p). cbn [bind]. rewrite E. cbn [bind].
    split.
    + intros Hv. apply Z.ltb_lt in Hv. rewrite Hv. reflexivity.
    + rewrite index_first. reflexivity.
  - unfold tools.IPv6StringToBytes. rewrite Split_slashFree by exact Ha.
    change (len [a] =? 2) with false. cbv iota. cbn [bind].
    rewrite index_first. reflexivity.
Qed.

Lemma X10_witness :
  let ParseIP := net.ParseIPv4 in
  let a := "no address" in
  let p := "200" in
  (forall e, strconv.ParseUint8 p = Err e ->
     tools.IPv4StringToBytes ParseIP (a ++ "/" ++ p) = Err e /\
     tools.IPv6StringToBytes ParseIP (a ++ "/" ++ p) = Err e) /\
  (forall v, strconv.ParseUint8 p = Ok v ->
     (32 < v ->
        tools.IPv4StringToBytes ParseIP (a ++ "/" ++ p)
        = Err (errorString ("IPv4 Subnet must be no greater than 32, you provided "
                            ++ itoa v))) /\
     tools.IPv6StringToBytes ParseIP (a ++ "/" ++ p)
     = Ok ([x00; uint8 v] ++ ParseIP a)) /\
  tools.IPv6StringToBytes ParseIP a = Ok (ParseIP a).
Proof.
  intros ParseIP a p. apply (X10_prefix_length ParseIP a p); reflexivity.
Defined.

(* ===================================================================== *)
(** * The dictionary loader, line by line *)
(* ===================================================================== *)

Section Lines.

Import protocol.

Lemma no_error_scanLines (ls : list string) : forall st, no_error (scanLines ls st).
Proof.
  induction ls as [|line rest IH]; intros st; [exact I|].
  cbn [scanLines]. apply no_error_bind; [apply no_error_scanLine | apply IH].
Qed.



(** The field being read, once it has a byte, starts the first field of the
    result. *)
Lemma fields_from_head (s : string) : forall (k : nat) (field : string),
  field <> EmptyString ->
  exists x rest, strings.fields_from s k field = (field ++ x)%string :: rest.
Proof.
  induction s as [|c r IH]; intros k field Hf.
  - cbn [strings.fields_from]. exists EmptyString, [].
    destruct field; [contradiction|].
    cbn [strings.flush]. f_equal. clear. induction (String a field) as [|y t IHt];
      [reflexivity | cbn; congruence].
  - cbn [strings.fields_from]. destruct k as [|k].
    + destruct (strings.space_width (String c r)) as [|w].
      * destruct (IH 0%nat (field ++ String c EmptyString)%string) as (x & rest & E).
        { destruct field; discriminate. }
        rewrite E. exists (String c x), rest. f_equal.
        clear. induction field as [|y t IHt]; [reflexivity | cbn; congruence].
      * exists EmptyString. eexists.
        destruct field; [contradiction|]. cbn [strings.flush app]. f_equal.
        clear. induction (String a field) as [|y t IHt];
          [reflexivity | cbn; congruence].
    + apply IH. exact Hf.
Qed.

Lemma space_width_comment (r : string) :
  strings.space_width (String "#" r) = 0%nat.
Proof.
  unfold strings.space_width. cbv zeta.
  change (nat_of_ascii "#") with 35%nat.
  destruct r as [|c1 [|c2 r2]]; reflexivity.
Qed.

(** A line whose first field is a directive is no comment and not empty. *)
Lemma directive_not_skipped (line directive : string) (rest : list string) :
  strings.Fields line = directive :: rest ->
  fields_needed directive <> 0%nat ->
  negb (String.eqb line EmptyString)
  && negb (strings.HasPrefix line COMMENT_PREFIX) = true.
Proof.
  intros HF Hd. destruct line as [|c r]; [discriminate HF|].
  cbn [String.eqb negb andb]. unfold strings.HasPrefix, COMMENT_PREFIX.
  cbn [String.prefix].
  destruct (ascii_dec "#" c) as [<- | _]; [|reflexivity].
  exfalso. unfold strings.Fields in HF. cbn [strings.fields_from] in HF.
  rewrite space_width_comment in HF. cbn [String.append] in HF.
  destruct (fields_from_head r 0 "#" ltac:(discriminate)) as (x & rest' & E).
  rewrite E in HF. injection HF as <- _. apply Hd. reflexivity.
Qed.

Lemma index_second {A} (x y : A) (s : list A) : index (x :: y :: s) 1 = Ok y.
Proof. exact (index_app_head [x] s y). Qed.

Lemma index_fourth {A} (x y z t : A) (s : list A) :
  index (x :: y :: z :: t :: s) 3 = Ok t.
Proof. exact (index_app_head [x; y; z] s t). Qed.

Lemma index_short {A} (s : list A) (i : Z) :
  len s <= i -> index s i = Panic (IndexOutOfRange i (len s)).
Proof.
  intros H. unfold index.
  replace (i <? len s) with false by (symmetry; apply Z.ltb_ge; exact H).
  rewrite andb_false_r. reflexivity.
Qed.

End Lines.

(** X11. [DictionaryFromFile] returns an error only when the file does not
    open or the scanner fails at the end: the error returned is that of
    [os.Open] or that of [scanner.Err].  No line of the file makes it return
    one. *)
Theorem X11_DictionaryFromFile_errors (file : protocol.File) (e : error) :
  protocol.DictionaryFromFile file = Err e ->
  protocol.open_error file = Some e \/
  (protocol.open_error file = None /\ protocol.scan_error file = Some e).
Proof.
  unfold protocol.DictionaryFromFile. intros H.
  destruct (protocol.open_error file) as [e0|]; [left; congruence|].
  right. split; [reflexivity|].
  pose proof (no_error_scanLines (protocol.lines file)
                (protocol.mkLoading [] [] [] EmptyString)) as Hn.
  destruct (protocol.scanLines _ _) as [st|e1|f]; cbn [bind] in H;
    [|contradiction|discriminate].
  destruct (protocol.scan_error file); congruence.
Qed.

Lemma X11_witness :
  let e := errorString "open dict: no such file or directory" in
  let file := protocol.mkFile (Some e) [] None in
  protocol.open_error file = Some e \/
  (protocol.open_error file = None /\ protocol.scan_error file = Some e).
Proof.
  intros e file. apply (X11_DictionaryFromFile_errors file e). reflexivity.
Defined.



(** X13. A directive line with too few fields makes the loader panic: an
    [ATTRIBUTE] or [VALUE] line with fewer than three fields after the
    keyword, a [VENDOR] line with fewer than two, a [BEGIN-VENDOR] line with
    none. *)
Theorem X13_short_directive_panics (line directive : string) (rest : list string)
    (st : protocol.loading) :
  strings.Fields line = directive :: rest ->
  (length rest < fields_needed directive)%nat ->
  exists f, protocol.scanLine line st = Panic f.
Proof.
  intros HF Hshort. unfold protocol.scanLine.
  rewrite (directive_not_skipped line directive rest HF) by lia.
  cbv zeta. rewrite HF, index_first. cbn [bind].
  unfold fields_needed in Hshort.
  destruct (String.eqb directive "ATTRIBUTE").
  { unfold protocol.parseAttribute.
    destruct rest as [|name [|code [|ty more]]]; cbn [length] in Hshort; try lia.
    - eexists. reflexivity.
    - rewrite index_short by (unfold len; cbn [length]; lia). eexists. reflexivity.
    - rewrite index_third. cbn [bind]. unfold protocol.mustParseUint8.
      destruct (strconv.ParseUint8 code); cbn [bind]; eexists; reflexivity. }
  destruct (String.eqb directive "VALUE").
  { unfold protocol.parseValue.
    destruct rest as [|name [|code [|ty more]]]; cbn [length] in Hshort; try lia.
    - eexists. reflexivity.
    - rewrite index_second. cbn [bind].
      rewrite index_short by (unfold len; cbn [length]; lia). eexists. reflexivity.
    - rewrite index_second. cbn [bind]. rewrite index_third. cbn [bind].
      rewrite index_short by (unfold len; cbn [length]; lia). eexists. reflexivity. }
  destruct (String.eqb directive "VENDOR").
  { unfold protocol.parseVendor.
    destruct rest as [|name [|code more]]; cbn [length] in Hshort; try lia.
    - eexists. reflexivity.
    - rewrite index_short by (unfold len; cbn [length]; lia). eexists. reflexivity. }
  destruct (String.eqb directive "BEGIN-VENDOR"); [|lia].
  destruct rest; cbn [length] in Hshort; [|lia].
  eexists. reflexivity.
Qed.

Lemma X13_witness :
  exists f, protocol.scanLine "ATTRIBUTE Framed-Protocol 7"
              (protocol.mkLoading [] [] [] EmptyString) = Panic f.
Proof.
  apply (X13_short_directive_panics "ATTRIBUTE Framed-Protocol 7" "ATTRIBUTE"
           ["Framed-Protocol"; "7"]).
  - reflexivity.
  - vm_compute. lia.
Defined.

(** What an [ATTRIBUTE] line with its four fields does, once its code
    parses: with a type the loader knows it adds the attribute, under the
    vendor of the enclosing [BEGIN-VENDOR], at the end of the attributes;
    with any other type the line is dropped and the load goes on with
    nothing changed.  Fields after the fourth are not read. *)
Lemma attribute_line (line name code type : string) (more : list string)
    (v : Z) (st : protocol.loading) :
  strings.Fields line = "ATTRIBUTE" :: name :: code :: type :: more ->
  strconv.ParseUint8 code = Ok v ->
  protocol.scanLine line st
  = Ok (if snd (protocol.assignAttributeType type)
        then protocol.mkLoading
               (protocol.attributes st
                ++ [protocol.mkDictionaryAttribute name (protocol.vendorName st)
                      (uint8 v) (fst (protocol.assignAttributeType type))])
               (protocol.values st) (protocol.vendors st) (protocol.vendorName st)
        else st).
Proof.
  intros HF Hv. unfold protocol.scanLine.
  rewrite (directive_not_skipped line "ATTRIBUTE" _ HF) by discriminate.
  cbv zeta. rewrite HF, index_first. cbn [bind].
  change (String.eqb "ATTRIBUTE" "ATTRIBUTE") with true. cbv iota.
  unfold protocol.parseAttribute. rewrite index_third. cbn [bind].
  unfold protocol.mustParseUint8. rewrite Hv. cbn [bind].
  rewrite index_fourth. cbn [bind].
  destruct (protocol.assignAttributeType type) as [t ok]. cbn [fst snd].
  destruct ok.
  - rewrite index_second. reflexivity.
  - destruct st. reflexivity.
Qed.

Example attribute_line_unknown_type :
  let st := protocol.mkLoading [] [] [] "Somevendor" in
  protocol.scanLine "ATTRIBUTE  Unknown-Type  9  tlv" st = Ok st.
Proof. reflexivity. Qed.

(* ===================================================================== *)
(** * Attributes: names, ids, type codes and values *)
(* ===================================================================== *)

Section Lookup.

Import protocol.

Lemma byName_found (attrs : list DictionaryAttribute) (n : string) (v : list byte)
    (a : RadiusAttribute) :
  byName attrs n v = (a, true) ->
  In (attr_id a) (map da_code attrs) /\ attr_name a = n /\ attr_value a = v.
Proof.
  induction attrs as [|d attrs IH]; cbn [byName map]; [discriminate|].
  destruct (String.eqb (da_name d) n).
  - intros H. injection H as <-. cbn. auto.
  - intros H. destruct (IH H) as (Hin & Hn & Hv). cbn [In]. auto.
Qed.

Lemma byName_byID (attrs : list DictionaryAttribute) (n : string) (v : list byte)
    (a : RadiusAttribute) :
  NoDup (map da_code attrs) ->
  byName attrs n v = (a, true) -> byID attrs (attr_id a) v = (a, true).
Proof.
  induction attrs as [|d attrs IH]; cbn [byName byID map]; [discriminate|].
  intros Hnd. inversion Hnd as [|c l Hnotin Hnd']; subst.
  destruct (String.eqb (da_name d) n) eqn:En.
  - intros H. injection H as <-. cbn [attr_id].
    rewrite (proj2 (byte_eqb_eq _ _) eq_refl).
    apply String.eqb_eq in En. rewrite En. reflexivity.
  - intros H. destruct (byName_found _ _ _ _ H) as (Hin & _ & _).
    destruct (Byte.eqb (da_code d) (attr_id a)) eqn:Ec.
    + apply byte_eqb_eq in Ec. rewrite Ec in Hnotin. contradiction.
    + apply IH; assumption.
Qed.

Lemma dotted_not_empty (a b c d : byte) (s : string) :
  String.eqb (tools.dotted a b c d ++ s) EmptyString = false.
Proof. unfold tools.dotted. destruct (itoa (int a)); reflexivity. Qed.

Lemma dotted_alone_not_empty (a b c d : byte) :
  String.eqb (tools.dotted a b c d) EmptyString = false.
Proof. unfold tools.dotted. destruct (itoa (int a)); reflexivity. Qed.

End Lookup.

(** X14. In a dictionary whose attributes have codes that differ from one
    another, an attribute created by name is the one its id creates: after
    [CreateRadAttributeByName] has found the name, [CreateRadAttributeByID]
    with the id of the result and the same value returns the same attribute,
    name included.  (With a code used twice the name can come back as that
    of another attribute.) *)
Theorem X14_by_name_then_by_id (dictionary : protocol.Dictionary)
    (name : string) (value : list byte) (a : protocol.RadiusAttribute) :
  NoDup (map protocol.da_code (protocol.dict_attributes dictionary)) ->
  protocol.CreateRadAttributeByName dictionary name value = (a, true) ->
  protocol.attr_name a = name /\ protocol.attr_value a = value /\
  protocol.CreateRadAttributeByID dictionary (protocol.attr_id a) value = (a, true).
Proof.
  unfold protocol.CreateRadAttributeByName, protocol.CreateRadAttributeByID.
  intros Hnd H. destruct (byName_found _ _ _ _ H) as (_ & Hn & Hv).
  split; [exact Hn|]. split; [exact Hv|]. apply (byName_byID _ name); assumption.
Qed.

Lemma X14_witness :
  let a := protocol.mkRadiusAttribute (uint8 32) "NAS-Identifier" (bytes_of "trillian") in
  protocol.attr_name a = "NAS-Identifier" /\
  protocol.attr_value a = bytes_of "trillian" /\
  protocol.CreateRadAttributeByID test_dictionary (protocol.attr_id a)
    (bytes_of "trillian") = (a, true).
Proof.
  intros a.
  apply (X14_by_name_then_by_id test_dictionary "NAS-Identifier" (bytes_of "trillian") a).
  - vm_compute. repeat constructor; cbn [In]; intuition discriminate.
  - reflexivity.
Defined.

(** X15. The two tables of packet codes are inverse to each other:
    [typeCodeToUint8] returns the byte [b] for the code [c] exactly when
    [typeCodeFromUint8] returns the code [c] for the byte [b]. *)
Theorem X15_type_codes (c : protocol.TypeCode) (b : byte) :
  protocol.typeCodeToUint8 c = (b, true) <->
  protocol.typeCodeFromUint8 b = (c, true).
Proof.
  split; [apply typeCode_roundtrip|].
  destruct b; cbn; intros H; inversion H; reflexivity.
Qed.

(** X16. What [VerifyOriginalValue] accepts for the types it does not
    decode to a number, whatever the bytes are: a byte string that is not
    empty; for [ipv4addr] a value of 4 or of 6 bytes; for [ipv6addr] and for
    [ipv6prefix] alike a value of 16 or of 18 bytes; and no value at all for
    [ipv4prefix] and [ifid]. *)
Theorem X16_VerifyOriginalValue_by_length
    (utf8_Valid : list byte -> bool) (IPString : list byte -> string)
    (a : protocol.RadiusAttribute) :
  let verify := protocol.VerifyOriginalValue utf8_Valid IPString a in
  let n := len (protocol.attr_value a) in
  (verify protocol.ByteString = true <-> n <> 0) /\
  (verify protocol.IPv4Addr = true <-> n = 4 \/ n = 6) /\
  (verify protocol.IPv6Addr = true <-> n = 16 \/ n = 18) /\
  (verify protocol.IPv6Prefix = true <-> n = 16 \/ n = 18) /\
  verify protocol.IPv4Prefix = false /\
  verify protocol.InterfaceId = false.
Proof.
  intros verify n. unfold verify, n, protocol.VerifyOriginalValue.
  assert (H6 : forall v, (let '(_, ok) := tools.BytesToIPv6String IPString v in
                          if ok then true else false) = true
                         <-> len v = 16 \/ len v = 18).
  { intros v. unfold tools.BytesToIPv6String.
    destruct (len v =? 18) eqn:E18; [apply Z.eqb_eq in E18; intuition|].
    destruct (len v =? 16) eqn:E16; [apply Z.eqb_eq in E16; intuition|].
    apply Z.eqb_neq in E18, E16. intuition (discriminate || lia). }
  repeat split; try apply H6; try reflexivity.
  - intros H E. rewrite E in H. discriminate.
  - intros H. apply Z.eqb_neq in H. rewrite H. reflexivity.
  - destruct (protocol.attr_value a) as [|x0 [|x1 [|x2 [|x3 [|x4 [|x5 [|x6 r]]]]]]];
      cbn [tools.BytesToIPv4String];
      rewrite ?dotted_not_empty, ?dotted_alone_not_empty;
      unfold len; cbn [length]; intros H; try discriminate H; try lia.
  - destruct (protocol.attr_value a) as [|x0 [|x1 [|x2 [|x3 [|x4 [|x5 [|x6 r]]]]]]];
      unfold len; cbn [length tools.BytesToIPv4String]; intros H; try lia.
    + rewrite dotted_alone_not_empty. reflexivity.
    + rewrite dotted_not_empty. reflexivity.
Qed.

(** X17. Validation and reading back agree, but for byte strings: for every
    type other than [string], [VerifyOriginalValue] accepts a value exactly
    when [OriginalStringValue] or [OriginalIntegerValue] returns it; a byte
    string neither of the two returns, and an [integer64], [ipv4prefix] or
    [ifid] value neither returns either. *)
Theorem X17_verify_and_read_back
    (utf8_Valid : list byte -> bool) (IPString : list byte -> string)
    (a : protocol.RadiusAttribute) (t : protocol.SupportedAttributeTypes) :
  let readable :=
    snd (protocol.OriginalStringValue utf8_Valid IPString a t)
    || snd (protocol.OriginalIntegerValue a t) in
  (t <> protocol.ByteString ->
     protocol.VerifyOriginalValue utf8_Valid IPString a t = readable) /\
  (t = protocol.ByteString \/ t = protocol.Integer64 \/ t = protocol.IPv4Prefix
   \/ t = protocol.InterfaceId -> readable = false).
Proof.
  intros readable. unfold readable. split.
  - intros Ht. destruct t; try contradiction;
      unfold protocol.VerifyOriginalValue, protocol.OriginalStringValue,
             protocol.OriginalIntegerValue; cbn [snd orb].
    + destruct (utf8_Valid _); reflexivity.
    + destruct (tools.BytesToInteger _) as [v []]; reflexivity.
    + reflexivity.
    + destruct (tools.BytesToTimestamp _) as [v []]; reflexivity.
    + rewrite orb_false_r.
      destruct (protocol.attr_value a) as [|x0 [|x1 [|x2 [|x3 [|x4 [|x5 [|x6 r]]]]]]];
        cbn [tools.BytesToIPv4String snd]; try reflexivity.
      * rewrite dotted_alone_not_empty. reflexivity.
      * rewrite dotted_not_empty. reflexivity.
    + reflexivity.
    + rewrite orb_false_r.
      destruct (tools.BytesToIPv6String _ _) as [v []]; reflexivity.
    + rewrite orb_false_r.
      destruct (tools.BytesToIPv6String _ _) as [v []]; reflexivity.
    + reflexivity.
  - intros [-> | [-> | [-> | ->]]]; reflexivity.
Qed.

(* ===================================================================== *)
(** * What the decoder returns *)
(* ===================================================================== *)

Section Decoded.

Import protocol.

Local Arguments firstn : simpl never.
Local Arguments skipn : simpl never.

Lemma index_Ok {A} (s : list A) (i : Z) (x : A) :
  index s i = Ok x -> 0 <= i < len s /\ nth_error s (Z.to_nat i) = Some x.
Proof.
  unfold index.
  destruct ((0 <=? i) && (i <? len s)) eqn:E; [|discriminate].
  apply andb_true_iff in E. destruct E as [E1 E2].
  apply Z.leb_le in E1. apply Z.ltb_lt in E2.
  destruct (nth_error s (Z.to_nat i)); [|discriminate].
  intros H. injection H as ->. auto.
Qed.

Lemma byID_found (attrs : list DictionaryAttribute) (id : byte) (v : list byte)
    (t : RadiusAttribute) :
  byID attrs id v = (t, true) -> attr_id t = id /\ attr_value t = v.
Proof.
  induction attrs as [|d attrs IH]; cbn [byID]; [discriminate|].
  destruct (Byte.eqb (da_code d) id); [|exact IH].
  intros H. injection H as <-. auto.
Qed.

(** Two neighbours in a list, and what comes before and after them. *)
Lemma two_at {A} (s : list A) (i : nat) (x y : A) :
  nth_error s i = Some x -> nth_error s (S i) = Some y ->
  exists rest, skipn i s = x :: y :: rest /\ skipn (S (S i)) s = rest.
Proof.
  revert s. induction i as [|i IH]; intros [|a s] Hx Hy; try discriminate.
  - cbn in Hx. injection Hx as ->. destruct s as [|b s]; [discriminate|].
    cbn in Hy. injection Hy as ->. exists s. split; reflexivity.
  - cbn [nth_error] in Hx, Hy. destruct (IH s Hx Hy) as (rest & E1 & E2).
    exists rest. split; assumption.
Qed.

(** The attribute loop returns only from a position inside the buffer, with
    well-formed attributes whose bytes are the bytes from that position to
    the end. *)
Lemma attributesLoop_Ok (fuel : nat) :
  forall dictionary bytes i acc attrs,
  0 <= i ->
  attributesLoop fuel dictionary bytes i acc = Ok attrs ->
  i <= len (elems bytes) /\
  exists new, attrs = acc ++ new /\
    Forall (wellFormedAttribute dictionary) new /\
    skipn (Z.to_nat i) (elems bytes) = flat_map toBytes new.
Proof.
  induction fuel as [|fuel IH]; intros dictionary bytes i acc attrs Hi H;
    [discriminate|].
  cbn [attributesLoop] in H.
  destruct (i =? len (elems bytes)) eqn:Eend.
  { apply Z.eqb_eq in Eend. injection H as <-. split; [lia|].
    exists []. rewrite app_nil_r. split; [reflexivity|]. split; [constructor|].
    rewrite Eend. unfold len. rewrite Nat2Z.id. apply skipn_all. }
  destruct (index (elems bytes) i) as [id|e|f] eqn:E0; cbn [bind] in H;
    try discriminate.
  destruct (index (elems bytes) (i + 1)) as [l|e|f] eqn:E1; cbn [bind] in H;
    try discriminate.
  destruct (reslice_cases bytes (i + 2) (i + int l)) as [(Er & Hlo & Hhi) | Er];
    rewrite Er in H; cbn [bind] in H; [|discriminate].
  destruct (CreateRadAttributeByID dictionary id _) as [t ok] eqn:Et.
  destruct ok; cbn [negb] in H; [|discriminate].
  destruct (IH dictionary bytes (i + int l) (acc ++ [t]) attrs ltac:(lia) H)
    as (Hle & new & -> & Hwf & Hbytes).
  apply index_Ok in E0, E1. destruct E0 as [R0 N0]. destruct E1 as [R1 N1].
  split; [lia|].
  replace (Z.to_nat (i + 1)) with (S (Z.to_nat i)) in N1 by lia.
  destruct (two_at _ _ _ _ N0 N1) as (rest & S0 & S2).
  pose proof (int_range l) as Rl.
  set (k := Z.to_nat (int l - 2)).
  assert (Hk : (k <= length rest)%nat).
  { assert (L : length (skipn (S (S (Z.to_nat i))) (elems bytes)) = length rest)
      by (rewrite S2; reflexivity).
    rewrite length_skipn in L. unfold len in Hle. unfold k. lia. }
  assert (Hv : sub (elems bytes ++ spare bytes) (i + 2) (i + int l) = firstn k rest).
  { unfold sub. replace (Z.to_nat (i + int l - (i + 2))) with k by (unfold k; lia).
    replace (Z.to_nat (i + 2)) with (S (S (Z.to_nat i))) by lia.
    rewrite skipn_app, S2.
    rewrite firstn_app.
    replace (k - length rest)%nat with 0%nat by lia.
    rewrite firstn_O. apply app_nil_r. }
  rewrite Hv in Et.
  unfold CreateRadAttributeByID in Et.
  destruct (byID_found _ _ _ _ Et) as [Tid Tv].
  assert (Hlv : len (attr_value t) = int l - 2).
  { rewrite Tv. unfold len. rewrite length_firstn. unfold k. lia. }
  exists (t :: new). split; [rewrite <- app_assoc; reflexivity|]. split.
  - constructor; [|exact Hwf]. split; [|lia].
    unfold resolves, CreateRadAttributeByID. rewrite Tid, Tv. exact Et.
  - cbn [flat_map]. rewrite <- Hbytes, toBytes_eq, S0, Tid, Hlv, Tv.
    replace (2 + (int l - 2)) with (int l) by lia. rewrite uint8_int.
    cbn [app]. do 2 f_equal.
    replace (Z.to_nat (i + int l)) with (k + S (S (Z.to_nat i)))%nat
      by (unfold k; lia).
    rewrite <- skipn_skipn, S2. symmetry. apply firstn_skipn.
Qed.

Lemma typeCode_inverse (b : byte) (c : TypeCode) :
  typeCodeFromUint8 b = (c, true) -> typeCodeToUint8 c = (b, true).
Proof. destruct b; cbn; intros H; inversion H; reflexivity. Qed.

(** What [InitialiseRadiusPacketFromBytes] returns, when it returns a
    packet. *)
Lemma decoded (dictionary : Dictionary) (bytes : Slice) (P : RadiusPacket) :
  InitialiseRadiusPacketFromBytes dictionary bytes = Ok P ->
  20 <= len (elems bytes) /\
  nth_error (elems bytes) 0 = Some (fst (typeCodeToUint8 (pkt_code P))) /\
  snd (typeCodeToUint8 (pkt_code P)) = true /\
  nth_error (elems bytes) 1 = Some (pkt_id P) /\
  pkt_authenticator P = firstn 16 (skipn 4 (elems bytes)) /\
  Forall (wellFormedAttribute dictionary) (pkt_attributes P) /\
  skipn 20 (elems bytes) = flat_map toBytes (pkt_attributes P).
Proof.
  unfold InitialiseRadiusPacketFromBytes. intros H.
  destruct (index (elems bytes) 0) as [b0|e|f] eqn:E0; cbn [bind] in H;
    try discriminate.
  destruct (typeCodeFromUint8 b0) as [code ok] eqn:Ec.
  destruct ok; cbn [negb] in H; [|discriminate].
  destruct (index (elems bytes) 1) as [id|e|f] eqn:E1; cbn [bind] in H;
    try discriminate.
  destruct (reslice_cases bytes 4 20) as [(Er & _ & _) | Er];
    rewrite Er in H; cbn [bind] in H; [|discriminate].
  destruct (attributesLoop _ _ _ _ _) as [attrs|e|f] eqn:El; cbn [bind] in H;
    try discriminate.
  injection H as <-. cbn [pkt_code pkt_id pkt_authenticator pkt_attributes].
  destruct (attributesLoop_Ok _ _ _ 20 [] attrs ltac:(lia) El)
    as (Hle & new & -> & Hwf & Hbytes).
  apply index_Ok in E0, E1.
  rewrite (typeCode_inverse _ _ Ec). cbn [fst snd app].
  change (Z.to_nat 20) with 20%nat in Hbytes.
  repeat split; try tauto; try lia.
  unfold sub. change (Z.to_nat (20 - 4)) with 16%nat. change (Z.to_nat 4) with 4%nat.
  rewrite skipn_app, firstn_app. rewrite length_skipn.
  replace (16 - (length (elems bytes) - 4))%nat with 0%nat by (unfold len in Hle; lia).
  rewrite firstn_O. apply app_nil_r.
Qed.

Lemma decoded_wellFormed (dictionary : Dictionary) (bytes : Slice) (P : RadiusPacket) :
  InitialiseRadiusPacketFromBytes dictionary bytes = Ok P ->
  wellFormedPacket dictionary P.
Proof.
  intros H. destruct (decoded _ _ _ H) as (Hlen & _ & Hc & _ & Ha & Hwf & _).
  split; [exact Hc|]. split; [|exact Hwf].
  rewrite Ha. unfold len. rewrite length_firstn, length_skipn.
  unfold len in Hlen. lia.
Qed.

End Decoded.

(** X18. Every packet [InitialiseRadiusPacketFromBytes] returns is
    well-formed: its code is one of the known codes, its authenticator has
    16 bytes, and each of its attributes has a value of at most 253 bytes and
    resolves in the dictionary, under the name of the first dictionary
    attribute with its id. *)
Theorem X18_decoded_packet_is_well_formed (dictionary : protocol.Dictionary)
    (bytes : Slice) (P : protocol.RadiusPacket) :
  protocol.InitialiseRadiusPacketFromBytes dictionary bytes = Ok P ->
  wellFormedPacket dictionary P.
Proof.
  exact (decoded_wellFormed dictionary bytes P).
Qed.

Lemma X18_witness : wellFormedPacket test_dictionary test_packet.
Proof.
  apply (X18_decoded_packet_is_well_formed test_dictionary
           (mkSlice (fst (fst (fst (protocol.ToBytes test_packet counting)))) [])).
  vm_compute. reflexivity.
Defined.

(** X19. Decoding and then serialising gives the buffer back, but for its
    length field: when [InitialiseRadiusPacketFromBytes] returns a packet,
    the buffer has 20 bytes or more, and [ToBytes] on that packet returns the
    first two bytes of the buffer, the length of the buffer modulo 65536 in
    two bytes, and the buffer from its fifth byte on; it draws no random
    number and leaves the packet as it is. *)
Theorem X19_serialise_after_decode (dictionary : protocol.Dictionary)
    (bytes : Slice) (P : protocol.RadiusPacket) (r : protocol.Rand) :
  protocol.InitialiseRadiusPacketFromBytes dictionary bytes = Ok P ->
  20 <= len (elems bytes) /\
  protocol.ToBytes P r
  = ((firstn 2 (elems bytes)
      ++ protocol.packetLengthToBytes (len (elems bytes) mod 65536)
      ++ skipn 4 (elems bytes), true), P, r).
Proof.
  intros H. pose proof (decoded_wellFormed _ _ _ H) as (_ & Hal & _).
  destruct (decoded _ _ _ H) as (Hlen & N0 & Hc & N1 & Ha & _ & Hb).
  split; [exact Hlen|].
  destruct (protocol.typeCodeToUint8 (protocol.pkt_code P)) as [b ok] eqn:Eb.
  cbn [fst snd] in N0, Hc. subst ok.
  rewrite (ToBytes_bytes P r b ltac:(lia) Eb).
  rewrite <- Hb, Ha.
  destruct (elems bytes) as [|e0 [|e1 [|e2 [|e3 rest]]]] eqn:EE;
    try (unfold len in Hlen; cbn [length] in Hlen; lia).
  cbn in N0, N1. injection N0 as <-. injection N1 as <-.
  change (firstn 2 (e0 :: e1 :: e2 :: e3 :: rest)) with [e0; e1].
  change (skipn 4 (e0 :: e1 :: e2 :: e3 :: rest)) with rest.
  change (skipn 20 (e0 :: e1 :: e2 :: e3 :: rest)) with (skipn 16 rest).
  rewrite firstn_skipn. cbn [app].
  replace (20 + len (skipn 16 rest)) with (len (e0 :: e1 :: e2 :: e3 :: rest));
    [reflexivity|].
  unfold len in *. rewrite length_skipn. cbn [length] in *. lia.
Qed.

Lemma X19_witness :
  let bytes := mkSlice (fst (fst (fst (protocol.ToBytes test_packet counting)))) [] in
  20 <= len (elems bytes) /\
  protocol.ToBytes test_packet counting
  = ((firstn 2 (elems bytes)
      ++ protocol.packetLengthToBytes (len (elems bytes) mod 65536)
      ++ skipn 4 (elems bytes), true), test_packet, counting).
Proof.
  intros bytes.
  apply (X19_serialise_after_decode test_dictionary bytes test_packet counting).
  vm_compute. reflexivity.
Defined.

Section LengthField.

Import protocol.

Local Arguments firstn : simpl never.
Local Arguments skipn : simpl never.

Variables (b0 b1 x y x' y' : byte) (rest sp : list byte).

Local Abbreviation E := (b0 :: b1 :: x :: y :: rest).
Local Abbreviation E' := (b0 :: b1 :: x' :: y' :: rest).

Lemma index_past_length_field (i : Z) : 4 <= i -> index E i = index E' i.
Proof.
  intros Hi. unfold index, len. cbn [length].
  replace (Z.to_nat i) with (S (S (S (S (Z.to_nat (i - 4)))))) by lia.
  reflexivity.
Qed.

Lemma reslice_past_length_field (lo hi : Z) :
  4 <= lo -> reslice (mkSlice E sp) lo hi = reslice (mkSlice E' sp) lo hi.
Proof.
  intros Hlo. unfold reslice, cap, sub, len. cbn [elems spare length].
  replace (Z.to_nat lo) with (S (S (S (S (Z.to_nat (lo - 4)))))) by lia.
  reflexivity.
Qed.

Lemma attributesLoop_past_length_field (fuel : nat) dictionary :
  forall i acc, 4 <= i ->
  attributesLoop fuel dictionary (mkSlice E sp) i acc
  = attributesLoop fuel dictionary (mkSlice E' sp) i acc.
Proof.
  induction fuel as [|fuel IH]; intros i acc Hi; [reflexivity|].
  cbn [attributesLoop elems].
  replace (len E') with (len E) by reflexivity.
  destruct (i =? len E); [reflexivity|].
  rewrite <- (index_past_length_field i), <- (index_past_length_field (i + 1)) by lia.
  destruct (index E i) as [id|e|f]; cbn [bind]; try reflexivity.
  destruct (index E (i + 1)) as [l|e|f]; cbn [bind]; try reflexivity.
  rewrite <- (reslice_past_length_field (i + 2)) by lia.
  destruct (reslice (mkSlice E sp) (i + 2) (i + int l)) as [v|e|f]; cbn [bind];
    try reflexivity.
  destruct (CreateRadAttributeByID dictionary id v) as [t ok].
  destruct ok; cbn [negb]; [|reflexivity].
  apply IH. pose proof (int_range l). lia.
Qed.

Lemma decode_past_length_field dictionary :
  InitialiseRadiusPacketFromBytes dictionary (mkSlice E sp)
  = InitialiseRadiusPacketFromBytes dictionary (mkSlice E' sp).
Proof.
  unfold InitialiseRadiusPacketFromBytes. cbn [elems].
  replace (length E') with (length E) by reflexivity.
  rewrite <- (reslice_past_length_field 4 20) by lia.
  rewrite <- (attributesLoop_past_length_field _ dictionary 20 []) by lia.
  reflexivity.
Qed.

End LengthField.

(** X20. The decoder does not read the length field of the header: two
    buffers that differ in their third and fourth byte only are decoded
    alike, to the same packet, the same error or the same fault.  The end of
    the buffer alone tells where the attributes end. *)
Theorem X20_length_field_not_read (dictionary : protocol.Dictionary)
    (b0 b1 x y x' y' : byte) (rest sp : list byte) :
  protocol.InitialiseRadiusPacketFromBytes dictionary
    (mkSlice (b0 :: b1 :: x :: y :: rest) sp)
  = protocol.InitialiseRadiusPacketFromBytes dictionary
      (mkSlice (b0 :: b1 :: x' :: y' :: rest) sp).
Proof.
  apply decode_past_length_field.
Qed.

Section ShortBuffers.

Import protocol.

Lemma reslice_fault (s : Slice) (lo hi : Z) :
  match reslice s lo hi with
  | Ok _ => True
  | Err _ => False
  | Panic f => bounds_fault f
  end.
Proof.
  destruct (reslice_cases s lo hi) as [[E _] | E]; rewrite E; exact I.
Qed.

Lemma index_fault {A} (s : list A) (i : Z) :
  match index s i with
  | Ok _ => True
  | Err _ => False
  | Panic f => bounds_fault f
  end.
Proof.
  unfold index. destruct (_ && _); [destruct (nth_error _ _)|]; exact I.
Qed.

End ShortBuffers.

(** X21. A buffer of fewer than 20 bytes is never decoded to a packet,
    whatever its spare capacity: when its first byte is no known type code,
    [InitialiseRadiusPacketFromBytes] returns the error of the invalid type
    code; when its first byte is a known code, it panics on an index or a
    slice out of range; and when the buffer is empty, it panics on index 0
    of length 0. *)
Theorem X21_short_buffer (dictionary : protocol.Dictionary) (bytes : Slice) :
  len (elems bytes) < 20 ->
  (forall b0 rest, elems bytes = b0 :: rest ->
     snd (protocol.typeCodeFromUint8 b0) = false ->
     protocol.InitialiseRadiusPacketFromBytes dictionary bytes
     = Err (errorString "Invalid TypeCode")) /\
  (forall b0 rest, elems bytes = b0 :: rest ->
     snd (protocol.typeCodeFromUint8 b0) = true ->
     exists f, protocol.InitialiseRadiusPacketFromBytes dictionary bytes = Panic f
               /\ bounds_fault f) /\
  (elems bytes = [] ->
     protocol.InitialiseRadiusPacketFromBytes dictionary bytes
     = Panic (IndexOutOfRange 0 0)).
Proof.
  intros Hlen. unfold protocol.InitialiseRadiusPacketFromBytes.
  split; [|split].
  - intros b0 rest E Hc. rewrite E, index_first. cbn [bind].
    destruct (protocol.typeCodeFromUint8 b0) as [code ok].
    cbn [snd] in Hc. subst ok. reflexivity.
  - intros b0 rest E Hc.
    assert (I0 : index (elems bytes) 0 = Ok b0) by (rewrite E; apply index_first).
    rewrite I0. cbn [bind].
    destruct (protocol.typeCodeFromUint8 b0) as [code ok].
    cbn [snd] in Hc. subst ok. cbn [negb].
    pose proof (index_fault (elems bytes) 1) as F1.
    destruct (index (elems bytes) 1) as [id|e|f]; cbn [bind];
      [|contradiction|eauto].
    pose proof (reslice_fault bytes 4 20) as F2.
    destruct (reslice bytes 4 20) as [a|e|f]; cbn [bind];
      [|contradiction|eauto].
    cbn [protocol.attributesLoop].
    replace (20 =? len (elems bytes)) with false
      by (symmetry; apply Z.eqb_neq; lia).
    rewrite index_short by lia. cbn [bind].
    eexists. split; [reflexivity | exact I].
  - intros E. rewrite E. reflexivity.
Qed.

(** Eight bytes in a buffer of 4096: with the code 2 of an Access-Accept the
    decoder panics, with the unknown code 0 it returns the error. *)
Lemma X21_witness :
  let known := mkSlice (bytes_of_ints [2; 43; 0; 20; 1; 2; 3; 4]) (make 4088) in
  let unknown := mkSlice (bytes_of_ints [0; 43; 0; 20; 1; 2; 3; 4]) (make 4088) in
  (exists f, protocol.InitialiseRadiusPacketFromBytes test_dictionary known = Panic f
             /\ bounds_fault f) /\
  protocol.InitialiseRadiusPacketFromBytes test_dictionary unknown
  = Err (errorString "Invalid TypeCode").
Proof.
  intros known unknown. split.
  - destruct (X21_short_buffer test_dictionary known) as (_ & H & _);
      [vm_compute; reflexivity|].
    apply (H (uint8 2) (bytes_of_ints [43; 0; 20; 1; 2; 3; 4])); reflexivity.
  - destruct (X21_short_buffer test_dictionary unknown) as (H & _ & _);
      [vm_compute; reflexivity|].
    apply (H (uint8 0) (bytes_of_ints [43; 0; 20; 1; 2; 3; 4])); reflexivity.
Defined.

(* ===================================================================== *)
(** * Serialising, and the Message-Authenticator attribute *)
(* ===================================================================== *)

Section Serialised.

Import protocol.


(** With an authenticator in place [ToBytes] leaves the packet and the
    generator as they are. *)
Lemma ToBytes_fixed (P : RadiusPacket) (r : Rand) :
  len (pkt_authenticator P) <> 0 ->
  snd (fst (ToBytes P r)) = P /\ snd (ToBytes P r) = r.
Proof.
  intros Ha. unfold ToBytes. cbv zeta.
  replace (len (pkt_authenticator P) =? 0) with false
    by (symmetry; apply Z.eqb_neq; exact Ha).
  destruct (typeCodeToUint8 (pkt_code P)) as [b ok].
  destruct ok; cbn [negb fst snd]; split; reflexivity.
Qed.

Lemma ToBytes_state (P : RadiusPacket) (r : Rand) :
  let a := if len (pkt_authenticator P) =? 0
           then fst (createPacketAuthenticator r) else pkt_authenticator P in
  snd (fst (ToBytes P r)) = OverrideAuthenticator P a /\
  snd (ToBytes P r) = (if len (pkt_authenticator P) =? 0
                       then snd (createPacketAuthenticator r) else r).
Proof.
  cbv zeta. destruct (len (pkt_authenticator P) =? 0) eqn:E.
  - apply Z.eqb_eq in E. rewrite (ToBytes_draws P r E).
    apply ToBytes_fixed. cbn [OverrideAuthenticator pkt_authenticator].
    rewrite createPacketAuthenticator_length. lia.
  - apply Z.eqb_neq in E. destruct (ToBytes_fixed P r E) as [E1 E2].
    rewrite E1, E2. split; [destruct P|]; reflexivity.
Qed.

Lemma ToBytes_again (P : RadiusPacket) (r : Rand) :
  ToBytes (snd (fst (ToBytes P r))) (snd (ToBytes P r)) = ToBytes P r.
Proof.
  destruct (Z.eq_dec (len (pkt_authenticator P)) 0) as [E | E].
  - rewrite (ToBytes_draws P r E).
    assert (Hl : len (pkt_authenticator
                       (OverrideAuthenticator P (fst (createPacketAuthenticator r)))) <> 0).
    { cbn [OverrideAuthenticator pkt_authenticator].
      rewrite createPacketAuthenticator_length. lia. }
    destruct (ToBytes_fixed _ (snd (createPacketAuthenticator r)) Hl) as [F1 F2].
    rewrite F1, F2. reflexivity.
  - destruct (ToBytes_fixed P r E) as [F1 F2]. rewrite F1, F2. reflexivity.
Qed.

Lemma ToBytes_unknown_code (P : RadiusPacket) (r : Rand) :
  len (pkt_authenticator P) <> 0 ->
  snd (typeCodeToUint8 (pkt_code P)) = false ->
  ToBytes P r = (([], false), P, r).
Proof.
  intros Ha Hc. unfold ToBytes. cbv zeta.
  replace (len (pkt_authenticator P) =? 0) with false
    by (symmetry; apply Z.eqb_neq; exact Ha).
  destruct (typeCodeToUint8 (pkt_code P)) as [b ok]. cbn [snd] in Hc. subst ok.
  reflexivity.
Qed.

(** The bytes returned, in terms of the packet the call leaves. *)
Lemma ToBytes_layout (P P' : RadiusPacket) (r r' : Rand) (bytes : list byte) :
  ToBytes P r = ((bytes, true), P', r') ->
  len (pkt_authenticator P') <> 0 /\
  pkt_attributes P' = pkt_attributes P /\
  exists b,
    typeCodeToUint8 (pkt_code P) = (b, true) /\
    bytes = b :: pkt_id P
              :: packetLengthToBytes
                   ((20 + len (flat_map toBytes (pkt_attributes P))) mod 65536)
              ++ pkt_authenticator P' ++ flat_map toBytes (pkt_attributes P).
Proof.
  intros H.
  pose proof (ToBytes_again P r) as A. rewrite H in A. cbn [fst snd] in A.
  destruct (ToBytes_state P r) as [S1 _]. cbv zeta in S1.
  rewrite H in S1. cbn [fst snd] in S1.
  assert (Hl : len (pkt_authenticator P') <> 0).
  { rewrite S1. cbn [OverrideAuthenticator pkt_authenticator].
    destruct (len (pkt_authenticator P) =? 0) eqn:E.
    - rewrite createPacketAuthenticator_length. lia.
    - apply Z.eqb_neq in E. exact E. }
  assert (Hattrs : pkt_attributes P' = pkt_attributes P) by (rewrite S1; reflexivity).
  assert (Hid : pkt_id P' = pkt_id P) by (rewrite S1; reflexivity).
  assert (Hcode : pkt_code P' = pkt_code P) by (rewrite S1; reflexivity).
  split; [exact Hl|]. split; [exact Hattrs|].
  destruct (typeCodeToUint8 (pkt_code P)) as [b ok] eqn:Eb.
  destruct ok.
  - exists b. split; [reflexivity|].
    rewrite <- Hcode in Eb.
    pose proof (ToBytes_bytes P' r' b Hl Eb) as T.
    rewrite Hid, Hattrs in T. congruence.
  - rewrite (ToBytes_unknown_code P' r' Hl) in A by (rewrite Hcode, Eb; reflexivity).
    discriminate A.
Qed.

Lemma flat_map_toBytes_len (attrs : list RadiusAttribute) :
  len (flat_map toBytes attrs)
  = fold_right (fun a n => 2 + len (attr_value a) + n) 0 attrs.
Proof.
  induction attrs as [|a l IH]; [reflexivity|].
  cbn [flat_map fold_right]. rewrite len_app, IH, toBytes_eq.
  unfold len. cbn [length]. lia.
Qed.

Lemma BigEndian_packetLength (n : Z) :
  tools.BigEndian (packetLengthToBytes n) = n mod 65536.
Proof.
  unfold packetLengthToBytes. rewrite BigEndian_PutBigEndian. reflexivity.
Qed.

Lemma bytes_eqb_eq (a b : list byte) : hmac.bytes_eqb a b = true <-> a = b.
Proof.
  revert b. induction a as [|x a IH]; intros [|y b]; cbn [hmac.bytes_eqb];
    try (split; [discriminate | discriminate]); [split; reflexivity|].
  rewrite andb_true_iff, byte_eqb_eq, IH. split.
  - intros [-> ->]. reflexivity.
  - intros H. injection H as -> ->. auto.
Qed.

(** Where [overrideFirst] writes: at the first attribute called
    Message-Authenticator, and nowhere when there is none. *)
Lemma overrideFirst_Some (attrs attrs' : list RadiusAttribute) (w : list byte) :
  overrideFirst attrs w = Some attrs' ->
  exists pre a post,
    attrs = pre ++ a :: post /\
    Forall (fun x => attr_name x <> "Message-Authenticator") pre /\
    attr_name a = "Message-Authenticator" /\
    attrs' = pre ++ OverrideValue a w :: post.
Proof.
  revert attrs'. induction attrs as [|x attrs IH]; intros attrs';
    cbn [overrideFirst]; [discriminate|].
  destruct (String.eqb (attr_name x) "Message-Authenticator") eqn:E.
  - intros H. injection H as <-. exists [], x, attrs.
    apply String.eqb_eq in E. repeat split; auto.
  - destruct (overrideFirst attrs w) as [t|]; [|discriminate].
    intros H. injection H as <-.
    destruct (IH t eq_refl) as (pre & a & post & -> & Hpre & Ha & ->).
    exists (x :: pre), a, post. apply String.eqb_neq in E.
    repeat split; auto.
Qed.

Lemma overrideFirst_None (attrs : list RadiusAttribute) (w : list byte) :
  overrideFirst attrs w = None ->
  Forall (fun x => attr_name x <> "Message-Authenticator") attrs.
Proof.
  induction attrs as [|x attrs IH]; cbn [overrideFirst]; [constructor|].
  destruct (String.eqb (attr_name x) "Message-Authenticator") eqn:E; [discriminate|].
  destruct (overrideFirst attrs w) as [t|] eqn:Et; [discriminate|].
  intros _. apply String.eqb_neq in E. constructor; auto.
Qed.

End Serialised.


(** X23. The bytes [ToBytes] returns: four bytes of header, the
    authenticator, the attributes, each with two bytes before its value.  The
    length field in the third and fourth byte is 20 plus the length of the
    attributes, modulo 65536: it is the length of what is returned when the
    authenticator has 16 bytes and the whole stays below 65536 bytes. *)
Theorem X23_ToBytes_length (P P' : protocol.RadiusPacket) (r r' : protocol.Rand)
    (bytes : list byte) :
  protocol.ToBytes P r = ((bytes, true), P', r') ->
  let attributes := flat_map protocol.toBytes (protocol.pkt_attributes P) in
  bytes = firstn 4 bytes ++ protocol.pkt_authenticator P' ++ attributes /\
  len (firstn 4 bytes) = 4 /\
  len attributes
  = fold_right (fun a n => 2 + len (protocol.attr_value a) + n) 0
               (protocol.pkt_attributes P) /\
  tools.BigEndian (sub bytes 2 4) = (20 + len attributes) mod 65536 /\
  (len (protocol.pkt_authenticator P') = 16 -> len bytes < 65536 ->
   tools.BigEndian (sub bytes 2 4) = len bytes).
Proof.
  intros H attributes.
  destruct (ToBytes_layout P P' r r' bytes H) as (_ & _ & b & Eb & E).
  fold attributes in E.
  destruct (packetLength_two ((20 + len attributes) mod 65536)) as (l1 & l2 & El).
  assert (Ef : tools.BigEndian [l1; l2] = (20 + len attributes) mod 65536).
  { rewrite <- El, BigEndian_packetLength. apply Z.mod_mod. lia. }
  rewrite El in E. cbn [app] in E.
  assert (E4 : firstn 4 bytes = [b; protocol.pkt_id P; l1; l2])
    by (rewrite E; reflexivity).
  assert (E24 : sub bytes 2 4 = [l1; l2]) by (rewrite E; reflexivity).
  split; [rewrite E4; exact E|]. split; [rewrite E4; reflexivity|]. split.
  { apply flat_map_toBytes_len. }
  split; [rewrite E24; exact Ef|].
  intros Ha Hlt. rewrite E24, Ef.
  assert (L : len bytes = 20 + len attributes).
  { rewrite E at 1. unfold len in *. cbn [length]. rewrite !length_app. lia. }
  rewrite <- L. apply Z.mod_small. pose proof (len_nonneg bytes). lia.
Qed.

Lemma X23_witness :
  let bytes := fst (fst (fst (protocol.ToBytes test_packet counting))) in
  let attributes := flat_map protocol.toBytes (protocol.pkt_attributes test_packet) in
  bytes = firstn 4 bytes ++ protocol.pkt_authenticator test_packet ++ attributes /\
  len (firstn 4 bytes) = 4 /\
  len attributes
  = fold_right (fun a n => 2 + len (protocol.attr_value a) + n) 0
               (protocol.pkt_attributes test_packet) /\
  tools.BigEndian (sub bytes 2 4) = (20 + len attributes) mod 65536 /\
  (len (protocol.pkt_authenticator test_packet) = 16 -> len bytes < 65536 ->
   tools.BigEndian (sub bytes 2 4) = len bytes).
Proof.
  intros bytes.
  apply (X23_ToBytes_length test_packet test_packet counting counting bytes).
  vm_compute. reflexivity.
Defined.

(** X24. [OverrideMessageAuthenticator] writes the new value into the
    first attribute called Message-Authenticator and into nothing else: the
    attributes before and after it, their number and their order, and the id,
    code and authenticator of the packet stay as they are, and
    [MessageAuthenticator] then returns the new value.  Without such an
    attribute the packet stays as it is and the call returns an error. *)
Theorem X24_OverrideMessageAuthenticator (P : protocol.RadiusPacket) (w : list byte) :
  let P' := fst (protocol.OverrideMessageAuthenticator P w) in
  let named (x : protocol.RadiusAttribute) :=
    protocol.attr_name x = "Message-Authenticator" in
  protocol.pkt_id P' = protocol.pkt_id P /\
  protocol.pkt_code P' = protocol.pkt_code P /\
  protocol.pkt_authenticator P' = protocol.pkt_authenticator P /\
  match snd (protocol.OverrideMessageAuthenticator P w) with
  | None =>
      (exists pre a post,
         protocol.pkt_attributes P = pre ++ a :: post /\
         Forall (fun x => ~ named x) pre /\ named a /\
         protocol.pkt_attributes P' = pre ++ protocol.OverrideValue a w :: post) /\
      protocol.MessageAuthenticator P' = Ok w
  | Some e =>
      e = errorString "Message-Authenticator attribute not found in packet" /\
      P' = P /\ Forall (fun x => ~ named x) (protocol.pkt_attributes P)
  end.
Proof.
  cbv zeta. unfold protocol.OverrideMessageAuthenticator.
  destruct (protocol.overrideFirst (protocol.pkt_attributes P) w) as [attrs'|] eqn:E;
    cbn [fst snd protocol.SetAttributes protocol.pkt_id protocol.pkt_code
         protocol.pkt_authenticator protocol.pkt_attributes].
  - repeat split; try reflexivity.
    + destruct (overrideFirst_Some _ _ _ E) as (pre & a & post & E1 & Hpre & Ha & E2).
      exists pre, a, post. auto.
    + unfold protocol.MessageAuthenticator. cbn [protocol.pkt_attributes].
      apply (overrideFirst_read _ _ _ E).
  - repeat split; try reflexivity. apply (overrideFirst_None _ _ E).
Qed.

(** X25. A failed [GenerateMessageAuthenticator] can leave the packet
    changed: on a packet with a Message-Authenticator attribute and an
    unknown type code the call returns the error of [ToBytes], and the value
    the attribute had is gone, replaced by 16 zero bytes. *)
Theorem X25_GenerateMessageAuthenticator_unknown_code
    (P : protocol.RadiusPacket) (secret : string) (r : protocol.Rand) (v : list byte) :
  protocol.MessageAuthenticator P = Ok v ->
  snd (protocol.typeCodeToUint8 (protocol.pkt_code P)) = false ->
  exists P' r',
    protocol.GenerateMessageAuthenticator P secret r
    = (Some (errorString "failed to convert RadiusPacket to bytes"), P', r') /\
    protocol.MessageAuthenticator P' = Ok (make 16).
Proof.
  intros Hv Hc. unfold protocol.MessageAuthenticator in Hv.
  destruct (overrideFirst_found _ v (make 16) Hv) as [attrs0 E0].
  unfold protocol.GenerateMessageAuthenticator. cbv zeta.
  rewrite (OverrideMessageAuthenticator_found P _ _ E0).
  set (P0 := protocol.SetAttributes P attrs0).
  destruct (ToBytes_state P0 r) as [S1 S2]. cbv zeta in S1.
  assert (Hok : snd (fst (fst (protocol.ToBytes P0 r))) = false).
  { unfold protocol.ToBytes. cbv zeta.
    destruct (len (protocol.pkt_authenticator P0) =? 0);
      [destruct (protocol.createPacketAuthenticator r) as [a r1]|];
      cbn [protocol.OverrideAuthenticator protocol.pkt_code P0 protocol.SetAttributes];
      destruct (protocol.typeCodeToUint8 (protocol.pkt_code P)) as [b ok];
      cbn [snd] in Hc; subst ok; reflexivity. }
  destruct (protocol.ToBytes P0 r) as [[[bytes ok] P1] r1]. cbn [fst snd] in *.
  subst ok. cbn [negb]. exists P1, r1. split; [reflexivity|].
  rewrite S1. unfold protocol.MessageAuthenticator.
  cbn [protocol.OverrideAuthenticator protocol.pkt_attributes P0 protocol.SetAttributes].
  apply (overrideFirst_read _ _ _ E0).
Qed.

Lemma X25_witness :
  let P := protocol.mkRadiusPacket (uint8 7) 99 (make 16)
             [protocol.mkRadiusAttribute (uint8 80) "Message-Authenticator"
                (bytes_of "0123456789abcdef")] in
  exists P' r',
    protocol.GenerateMessageAuthenticator P "secret" counting
    = (Some (errorString "failed to convert RadiusPacket to bytes"), P', r') /\
    protocol.MessageAuthenticator P' = Ok (make 16).
Proof.
  intros P.
  apply (X25_GenerateMessageAuthenticator_unknown_code P "secret" counting
           (bytes_of "0123456789abcdef")); reflexivity.
Defined.

(** X26. What [VerifyMessageAuthenticator] checks on the bytes of a
    well-formed packet: it succeeds when the value of the first
    Message-Authenticator attribute is the HMAC-MD5, under the secret, of the
    bytes of the packet with that value replaced by 16 zero bytes, and it
    returns the error of the mismatch for any other value. *)
Theorem X26_VerifyMessageAuthenticator (host : protocol.Host)
    (P : protocol.RadiusPacket) (secret : string) (r : protocol.Rand)
    (sp v : list byte) :
  wellFormedPacket (protocol.dictionary host) P ->
  protocol.MessageAuthenticator P = Ok v ->
  exists bytes zeroed,
    protocol.ToBytes P r = ((bytes, true), P, r) /\
    protocol.ToBytes (fst (protocol.OverrideMessageAuthenticator P (make 16))) r
    = ((zeroed, true), fst (protocol.OverrideMessageAuthenticator P (make 16)), r) /\
    protocol.VerifyMessageAuthenticator host secret (mkSlice bytes sp) r
    = (if hmac.Equal v (hmac.Sum (bytes_of secret) zeroed) then Ok tt
       else Err (errorString "Packet Message-Authenticator mismatch"), r) /\
    (hmac.Equal v (hmac.Sum (bytes_of secret) zeroed) = true
     <-> v = hmac.Sum (bytes_of secret) zeroed).
Proof.
  intros W Hv. pose proof W as (Hc & Ha & Hattrs).
  destruct (roundtrip (protocol.dictionary host) P r sp W) as (bytes & T & R).
  unfold protocol.MessageAuthenticator in Hv.
  destruct (overrideFirst_found _ v (make 16) Hv) as [attrs0 E0].
  rewrite (OverrideMessageAuthenticator_found P _ _ E0). cbn [fst].
  set (P0 := protocol.SetAttributes P attrs0).
  destruct (protocol.typeCodeToUint8 (protocol.pkt_code P)) as [b ok] eqn:Eb.
  cbn [snd] in Hc. subst ok.
  pose proof (ToBytes_bytes P0 r b ltac:(cbn; lia) Eb) as T0.
  exists bytes. eexists. split; [exact T|]. split; [exact T0|]. split.
  - unfold protocol.VerifyMessageAuthenticator. rewrite R.
    unfold protocol.MessageAuthenticator. rewrite Hv. cbv zeta.
    rewrite (OverrideMessageAuthenticator_found P _ _ E0). fold P0.
    rewrite T0. cbn [negb].
    destruct (hmac.Equal _ _); reflexivity.
  - apply bytes_eqb_eq.
Qed.

Lemma X26_witness :
  let P := protocol.SetAttributes test_packet
             (protocol.pkt_attributes test_packet
              ++ [protocol.mkRadiusAttribute (uint8 80) "Message-Authenticator"
                    (make 16)]) in
  exists bytes zeroed,
    protocol.ToBytes P counting = ((bytes, true), P, counting) /\
    protocol.ToBytes (fst (protocol.OverrideMessageAuthenticator P (make 16))) counting
    = ((zeroed, true), fst (protocol.OverrideMessageAuthenticator P (make 16)), counting) /\
    protocol.VerifyMessageAuthenticator test_host "secret" (mkSlice bytes []) counting
    = (if hmac.Equal (make 16) (hmac.Sum (bytes_of "secret") zeroed) then Ok tt
       else Err (errorString "Packet Message-Authenticator mismatch"), counting) /\
    (hmac.Equal (make 16) (hmac.Sum (bytes_of "secret") zeroed) = true
     <-> make 16 = hmac.Sum (bytes_of "secret") zeroed).
Proof.
  intros P.
  apply (X26_VerifyMessageAuthenticator test_host P "secret" counting [] (make 16)).
  - repeat split; try reflexivity.
    repeat constructor; vm_compute; discriminate.
  - reflexivity.
Defined.

(* ===================================================================== *)
(** * The host: verifying attributes, ports *)
(* ===================================================================== *)

Section HostChecks.

Import protocol.

Variable utf8_Valid : list byte -> bool.
Variable IPString : list byte -> string.

Lemma attributesLoop_Err (fuel : nat) :
  forall dictionary bytes i acc e,
  attributesLoop fuel dictionary bytes i acc = Err e ->
  exists id, e = errorString ("attribute with ID: " ++ itoa (int id)
                              ++ " is not found in dictionary").
Proof.
  induction fuel as [|fuel IH]; intros dictionary bytes i acc e H; [discriminate|].
  cbn [attributesLoop] in H.
  destruct (i =? len (elems bytes)); [discriminate|].
  pose proof (index_fault (elems bytes) i) as F0.
  destruct (index (elems bytes) i) as [id|e0|f]; cbn [bind] in H;
    [|contradiction|discriminate].
  pose proof (index_fault (elems bytes) (i + 1)) as F1.
  destruct (index (elems bytes) (i + 1)) as [l|e0|f]; cbn [bind] in H;
    [|contradiction|discriminate].
  pose proof (reslice_fault bytes (i + 2) (i + int l)) as F2.
  destruct (reslice bytes (i + 2) (i + int l)) as [v|e0|f]; cbn [bind] in H;
    [|contradiction|discriminate].
  destruct (CreateRadAttributeByID dictionary id v) as [t ok].
  destruct ok; cbn [negb] in H.
  - apply (IH _ _ _ _ _ H).
  - exists id. congruence.
Qed.

Lemma decode_Err dictionary bytes e :
  InitialiseRadiusPacketFromBytes dictionary bytes = Err e ->
  e = errorString "Invalid TypeCode" \/
  exists id, e = errorString ("attribute with ID: " ++ itoa (int id)
                              ++ " is not found in dictionary").
Proof.
  unfold InitialiseRadiusPacketFromBytes. intros H.
  pose proof (index_fault (elems bytes) 0) as F0.
  destruct (index (elems bytes) 0) as [c|e0|f]; cbn [bind] in H;
    [|contradiction|discriminate].
  destruct (typeCodeFromUint8 c) as [code ok].
  destruct ok; cbn [negb] in H; [|left; congruence].
  pose proof (index_fault (elems bytes) 1) as F1.
  destruct (index (elems bytes) 1) as [id|e0|f]; cbn [bind] in H;
    [|contradiction|discriminate].
  pose proof (reslice_fault bytes 4 20) as F2.
  destruct (reslice bytes 4 20) as [a|e0|f]; cbn [bind] in H;
    [|contradiction|discriminate].
  destruct (attributesLoop _ _ _ _ _) as [attrs|e0|f] eqn:El; cbn [bind] in H;
    try discriminate.
  right. injection H as <-. apply (attributesLoop_Err _ _ _ _ _ _ El).
Qed.

(** The two searches by code find an attribute together. *)
Lemma attributeByID_byID (attrs : list DictionaryAttribute) (id : byte) (v : list byte) :
  snd (attributeByID attrs id) = snd (byID attrs id v).
Proof.
  induction attrs as [|d attrs IH]; cbn [attributeByID byID]; [reflexivity|].
  destruct (Byte.eqb (da_code d) id); [reflexivity | exact IH].
Qed.

Lemma verifyAttributes_outcome (host : Host) (attrs : list RadiusAttribute) :
  Forall (resolves (dictionary host)) attrs ->
  verifyAttributes utf8_Valid IPString host attrs = Ok tt \/
  exists id, verifyAttributes utf8_Valid IPString host attrs
             = Err (errorString ("Cannot verify original value of attribute with ID "
                                 ++ itoa (int id))).
Proof.
  induction 1 as [|a attrs Ha _ IH]; cbn [verifyAttributes]; [left; reflexivity|].
  destruct (negb (String.eqb (attr_name a) IGNORE_VERIFY_ATTRIBUTE)); [|exact IH].
  unfold DictionaryAttributeByID.
  pose proof (attributeByID_byID (dict_attributes (dictionary host)) (attr_id a)
                (attr_value a)) as Hk.
  unfold resolves, CreateRadAttributeByID in Ha. rewrite Ha in Hk. cbn [snd] in Hk.
  destruct (attributeByID _ _) as [d ok]. cbn [snd] in Hk. subst ok. cbn [negb].
  destruct (VerifyOriginalValue utf8_Valid IPString a (da_codeType d)); cbn [negb].
  - exact IH.
  - right. exists (attr_id a). reflexivity.
Qed.

End HostChecks.

(** X27. The errors of [VerifyPacketAttributes] are those of the decoder,
    for an unknown type code or an attribute id the dictionary does not
    have, and the one of a value that does not verify.  The error for an
    attribute that may not exist in the dictionary is never returned: the
    decoder has looked up every id before.  And the call panics only where
    the decoder does. *)
Theorem X27_VerifyPacketAttributes_outcomes
    (utf8_Valid : list byte -> bool) (IPString : list byte -> string)
    (host : protocol.Host) (packet : Slice) :
  match protocol.VerifyPacketAttributes utf8_Valid IPString host packet with
  | Ok _ => True
  | Err e =>
      e = errorString "Invalid TypeCode" \/
      (exists id, e = errorString ("attribute with ID: " ++ itoa (int id)
                                   ++ " is not found in dictionary")) \/
      (exists id, e = errorString ("Cannot verify original value of attribute with ID "
                                   ++ itoa (int id)))
  | Panic f =>
      protocol.InitialiseRadiusPacketFromBytes (protocol.dictionary host) packet
      = Panic f
  end.
Proof.
  unfold protocol.VerifyPacketAttributes.
  destruct (protocol.InitialiseRadiusPacketFromBytes (protocol.dictionary host) packet)
    as [P|e|f] eqn:E; cbn [bind].
  - pose proof (decoded_wellFormed _ _ _ E) as (_ & _ & Hwf).
    destruct (verifyAttributes_outcome utf8_Valid IPString host
                (protocol.pkt_attributes P)) as [H | [id H]].
    + eapply Forall_impl; [|exact Hwf]. intros a [Hr _]. exact Hr.
    + rewrite H. exact I.
    + rewrite H. right. right. exists id. reflexivity.
  - destruct (decode_Err _ _ _ E) as [H | H]; [left; exact H | right; left; exact H].
  - reflexivity.
Qed.

(** [SetPort] and [Port] go together by message type: the port set
    for [AUTH] is the port of Access-Request, the one set for [ACCT] that of
    Accounting-Request, the one set for [COA] that of CoA-Request; a port set
    for one type leaves the two others and the dictionary as they are.  For
    any other message type [SetPort] returns false and changes nothing, and
    for any other code [Port] returns 0 and false. *)
Lemma SetPort_Port (host : protocol.Host) (port : Z)
    (msgType : protocol.RadiusMsgType) (code : protocol.TypeCode) :
  let host' := fst (protocol.SetPort host port msgType) in
  let ok := snd (protocol.SetPort host port msgType) in
  let request (t : protocol.RadiusMsgType) : protocol.TypeCode :=
    if t =? protocol.AUTH then protocol.AccessRequest
    else if t =? protocol.ACCT then protocol.AccountingRequest
    else protocol.CoARequest in
  protocol.dictionary host' = protocol.dictionary host /\
  (0 <= msgType <= 2 ->
     ok = true /\ protocol.Port host' (request msgType) = (port, true) /\
     forall t, 0 <= t <= 2 -> t <> msgType ->
       protocol.Port host' (request t) = protocol.Port host (request t)) /\
  (~ 0 <= msgType <= 2 -> ok = false /\ host' = host) /\
  (code <> protocol.AccessRequest -> code <> protocol.AccountingRequest ->
   code <> protocol.CoARequest -> protocol.Port host code = (0, false)).
Proof.
  cbv zeta. unfold protocol.SetPort, protocol.Port, protocol.AUTH, protocol.ACCT,
    protocol.COA, protocol.AccessRequest, protocol.AccountingRequest,
    protocol.CoARequest.
  split; [|split; [|split]].
  - destruct (msgType =? 0); [reflexivity|].
    destruct (msgType =? 1); [reflexivity|].
    destruct (msgType =? 2); reflexivity.
  - intros Hm.
    assert (msgType = 0 \/ msgType = 1 \/ msgType = 2) as [-> | [-> | ->]] by lia;
      cbn [Z.eqb Pos.eqb fst snd protocol.authPort protocol.acctPort protocol.coaPort];
      (split; [reflexivity|]); (split; [reflexivity|]);
      intros t Ht Hne;
      (assert (t = 0 \/ t = 1 \/ t = 2) as [-> | [-> | ->]] by lia);
      try contradiction; reflexivity.
  - intros Hm.
    replace (msgType =? 0) with false by (symmetry; apply Z.eqb_neq; lia).
    replace (msgType =? 1) with false by (symmetry; apply Z.eqb_neq; lia).
    replace (msgType =? 2) with false by (symmetry; apply Z.eqb_neq; lia).
    split; reflexivity.
  - intros H0 H3 H11.
    replace (code =? 0) with false by (symmetry; apply Z.eqb_neq; exact H0).
    replace (code =? 3) with false by (symmetry; apply Z.eqb_neq; exact H3).
    replace (code =? 11) with false by (symmetry; apply Z.eqb_neq; exact H11).
    reflexivity.
Qed.

(* ===================================================================== *)
(** * Client and server: reading values back, replies *)
(* ===================================================================== *)

Section Replies.

Import protocol.

Local Arguments firstn : simpl never.
Local Arguments skipn : simpl never.

Lemma byName_attributeByName (attrs : list DictionaryAttribute) (n : string)
    (v : list byte) (d : DictionaryAttribute) :
  attributeByName attrs n = (d, true) ->
  byName attrs n v = (mkRadiusAttribute (da_code d) n v, true) /\ In d attrs.
Proof.
  induction attrs as [|x attrs IH]; cbn [attributeByName byName]; [discriminate|].
  destruct (String.eqb (da_name x) n).
  - intros H. injection H as <-. split; [reflexivity | left; reflexivity].
  - intros H. destruct (IH H) as [E Hin]. split; [exact E | right; exact Hin].
Qed.

Lemma attributeByID_unique (attrs : list DictionaryAttribute) (d : DictionaryAttribute) :
  NoDup (map da_code attrs) -> In d attrs ->
  attributeByID attrs (da_code d) = (d, true).
Proof.
  induction attrs as [|x attrs IH]; intros Hnd Hin; [contradiction|].
  cbn [map] in Hnd. inversion Hnd as [|c l Hnotin Hnd']; subst.
  cbn [attributeByID]. destruct Hin as [-> | Hin].
  - rewrite (proj2 (byte_eqb_eq _ _) eq_refl). reflexivity.
  - destruct (Byte.eqb (da_code x) (da_code d)) eqn:E.
    + apply byte_eqb_eq in E. exfalso. apply Hnotin. rewrite E.
      apply in_map. exact Hin.
    + apply IH; assumption.
Qed.

(** The parts of a reply that the reply authenticator is computed from and
    compared with. *)
Lemma reply_parts (head auth body sp : list byte) :
  len head = 4 -> len auth = 16 ->
  let reply := mkSlice (head ++ auth ++ body) sp in
  reslice reply 0 4 = Ok head /\
  reslice_from reply 20 = Ok body /\
  reslice reply 4 20 = Ok auth /\
  index (elems reply) 1 = Ok (nth 1 head x00) /\
  (len (elems reply) =? 0) = false.
Proof.
  intros Hh Ha reply.
  pose proof (len_nonneg body) as Hb. pose proof (len_nonneg sp) as Hs.
  assert (HL : len (head ++ auth ++ body) = 20 + len body)
    by (rewrite !len_app; lia).
  unfold reslice, reslice_from, cap. cbn [elems spare reply]. rewrite HL.
  replace ((0 <=? 0) && (0 <=? 4) && (4 <=? 20 + len body + len sp)) with true
    by (symmetry; rewrite !andb_true_iff, !Z.leb_le; lia).
  replace ((0 <=? 20) && (20 <=? 20 + len body)) with true
    by (symmetry; rewrite !andb_true_iff, !Z.leb_le; lia).
  replace ((0 <=? 4) && (4 <=? 20) && (20 <=? 20 + len body + len sp)) with true
    by (symmetry; rewrite !andb_true_iff, !Z.leb_le; lia).
  split; [|split; [|split; [|split]]].
  - f_equal. rewrite <- app_assoc. rewrite <- Hh. apply sub_app_l.
  - f_equal. rewrite (app_assoc head auth body).
    replace 20 with (len (head ++ auth)) at 1 by (rewrite len_app; lia).
    replace (20 + len body) with (len (head ++ auth) + len body)
      by (rewrite len_app; lia).
    apply sub_app_r.
  - f_equal. rewrite <- !app_assoc.
    rewrite <- Hh at 1. replace 20 with (len head + len auth) by lia.
    apply sub_middle.
  - destruct head as [|h0 [|h1 [|h2 [|h3 [|h4 head]]]]];
      try (unfold len in Hh; cbn [length] in Hh; lia).
    exact (index_app_head [h0] _ h1).
  - apply Z.eqb_neq. lia.
Qed.

(** A reply that carries, in its bytes 4 to 19, the reply authenticator
    computed from the rest of it passes [VerifyReply]. *)
Lemma reply_authenticator_accepted (c : client.Client)
    (request : RadiusPacket) (head filler body sp sp' : list byte) :
  len head = 4 -> len filler = 16 ->
  nth 1 head x00 = pkt_id request ->
  exists digest,
    server.createReplyAuthenticator (client.secret c)
      (mkSlice (head ++ filler ++ body) sp') (pkt_authenticator request)
    = Ok digest /\
    len digest = 16 /\
    client.VerifyReply c request (mkSlice (head ++ digest ++ body) sp) = Ok true.
Proof.
  intros Hh Hf Hid.
  destruct (reply_parts head filler body sp' Hh Hf) as (F1 & F2 & _ & _ & _).
  unfold server.createReplyAuthenticator. rewrite F1, F2. cbn [bind].
  eexists. split; [reflexivity|].
  set (digest := md5.Sum _).
  assert (Hd : len digest = 16) by (unfold len, digest; rewrite md5_Sum_length; reflexivity).
  split; [exact Hd|].
  destruct (reply_parts head digest body sp Hh Hd) as (G1 & G2 & G3 & G4 & G5).
  unfold client.VerifyReply. rewrite G5, G4. cbn [bind].
  rewrite Hid, (proj2 (byte_eqb_eq _ _) eq_refl). cbn [negb].
  rewrite G1, G2, G3. cbn [bind]. fold digest.
  unfold hmac.Equal. rewrite bytes_eqb_refl. reflexivity.
Qed.

End Replies.

(** X28. An unsigned 32-bit integer comes back through the client: in a
    dictionary whose attribute codes differ from one another, for an
    attribute that the dictionary gives the type [integer] (or [time]),
    [CreateAttributeByName] with the bytes of [IntegerToBytes] returns an
    attribute from which [RadiusAttrOriginalIntegerValue] reads the integer
    back. *)
Theorem X28_integer_through_client (c : client.Client) (name : string)
    (d : protocol.DictionaryAttribute) (n : Z) :
  NoDup (map protocol.da_code
           (protocol.dict_attributes (protocol.dictionary (client.host c)))) ->
  protocol.DictionaryAttributeByName (client.host c) name = (d, true) ->
  protocol.da_codeType d = protocol.Integer \/ protocol.da_codeType d = protocol.Date ->
  0 <= n < 2 ^ 32 ->
  exists a,
    client.CreateAttributeByName c name (tools.IntegerToBytes n) = Ok a /\
    protocol.attr_id a = protocol.da_code d /\
    client.RadiusAttrOriginalIntegerValue c a = Ok n.
Proof.
  intros Hnd Hd Ht Hn. unfold protocol.DictionaryAttributeByName in Hd.
  destruct (byName_attributeByName _ _ (tools.IntegerToBytes n) _ Hd) as [E Hin].
  eexists. split; [|split].
  - unfold client.CreateAttributeByName, protocol.CreateAttributeByName,
      protocol.CreateRadAttributeByName. rewrite E. reflexivity.
  - reflexivity.
  - unfold client.RadiusAttrOriginalIntegerValue, protocol.DictionaryAttributeByID.
    cbn [protocol.attr_id].
    rewrite (attributeByID_unique _ d Hnd Hin). cbn [negb].
    assert (R : tools.BytesToInteger (tools.IntegerToBytes n) = (n, true)).
    { unfold tools.BytesToInteger, tools.IntegerToBytes, len.
      rewrite PutBigEndian_length.
      cbn [Z.of_nat Pos.of_succ_nat Pos.succ Z.eqb Pos.eqb negb].
      rewrite BigEndian_PutBigEndian. rewrite Z.mod_small; [reflexivity|].
      change (256 ^ Z.of_nat 4) with (2 ^ 32). exact Hn. }
    unfold protocol.OriginalIntegerValue. cbn [protocol.attr_value].
    destruct Ht as [-> | ->].
    + rewrite R. reflexivity.
    + unfold tools.BytesToTimestamp.
      unfold tools.BytesToInteger in R. rewrite R. reflexivity.
Qed.

Lemma X28_witness :
  let c := client.InitialiseClient test_dictionary "127.0.0.1" "secret" 1 2 in
  exists a,
    client.CreateAttributeByName c "NAS-Port-Id" (tools.IntegerToBytes 0) = Ok a /\
    protocol.attr_id a = uint8 5 /\
    client.RadiusAttrOriginalIntegerValue c a = Ok 0.
Proof.
  intros c.
  apply (X28_integer_through_client c "NAS-Port-Id"
           (protocol.mkDictionaryAttribute "NAS-Port-Id" EmptyString (uint8 5)
              protocol.Integer) 0).
  - vm_compute. repeat constructor; cbn [In]; intuition discriminate.
  - reflexivity.
  - left. reflexivity.
  - lia.
Defined.

(** X29. The reply authenticator of the server is the one the client
    checks: [VerifyReply] accepts a reply of 20 bytes or more that carries
    the id of the request and, in its bytes 4 to 19, what
    [createReplyAuthenticator] returns for the secret of the client, the
    authenticator of the request and the reply with any 16 bytes in that
    place. *)
Theorem X29_VerifyReply_accepts_reply_authenticator (c : client.Client)
    (request : protocol.RadiusPacket) (head filler body sp sp' : list byte) :
  len head = 4 -> len filler = 16 ->
  nth 1 head x00 = protocol.pkt_id request ->
  exists digest,
    server.createReplyAuthenticator (client.secret c)
      (mkSlice (head ++ filler ++ body) sp') (protocol.pkt_authenticator request)
    = Ok digest /\
    len digest = 16 /\
    client.VerifyReply c request (mkSlice (head ++ digest ++ body) sp) = Ok true.
Proof.
  exact (reply_authenticator_accepted c request head filler body sp sp').
Qed.

Lemma X29_witness :
  let c := client.InitialiseClient test_dictionary "127.0.0.1" "secret" 1 2 in
  let head := bytes_of_ints [5; 43; 0; 29] in
  let body := bytes_of_ints [1; 9; 116; 101; 115; 116; 105; 110; 103] in
  exists digest,
    server.createReplyAuthenticator (client.secret c)
      (mkSlice (head ++ make 16 ++ body) []) (protocol.pkt_authenticator test_packet)
    = Ok digest /\
    len digest = 16 /\
    client.VerifyReply c test_packet (mkSlice (head ++ digest ++ body) []) = Ok true.
Proof.
  intros c head body.
  apply (X29_VerifyReply_accepts_reply_authenticator c test_packet head (make 16)
           body [] []); reflexivity.
Defined.

(** X30. The reply of the server passes the check of the client: for a
    known reply code and a request buffer of 20 bytes or more,
    [CreateReplyPacket] returns a packet with the id of the request and the
    attributes given, and [VerifyReply], with the same secret, accepts the
    bytes of that packet against a request packet that has the id and the
    authenticator of the buffer. *)
Theorem X30_VerifyReply_CreateReplyPacket (c : client.Client)
    (replyCode : protocol.TypeCode) (attributes : list protocol.RadiusAttribute)
    (request : protocol.RadiusPacket) (requestBytes : Slice)
    (r : protocol.Rand) (sp : list byte) :
  snd (protocol.typeCodeToUint8 replyCode) = true ->
  20 <= len (elems requestBytes) ->
  nth 1 (elems requestBytes) x00 = protocol.pkt_id request ->
  sub (elems requestBytes) 4 20 = protocol.pkt_authenticator request ->
  exists reply r' bytes,
    server.CreateReplyPacket replyCode attributes requestBytes (client.secret c) r
    = (Ok reply, r') /\
    protocol.pkt_id reply = protocol.pkt_id request /\
    protocol.pkt_code reply = replyCode /\
    protocol.pkt_attributes reply = attributes /\
    protocol.ToBytes reply r' = ((bytes, true), reply, r') /\
    client.VerifyReply c request (mkSlice bytes sp) = Ok true.
Proof.
  intros Hc Hlen Hid Hauth.
  unfold server.CreateReplyPacket, protocol.InitialiseRadiusPacket.
  destruct (protocol.createPacketId r) as [id0 r0].
  pose proof (createPacketAuthenticator_length r0) as Ha0.
  destruct (protocol.createPacketAuthenticator r0) as [a0 r1]. cbn [fst] in Ha0.
  assert (I1 : index (elems requestBytes) 1 = Ok (protocol.pkt_id request)).
  { rewrite <- Hid. unfold index.
    replace ((0 <=? 1) && (1 <? len (elems requestBytes))) with true
      by (symmetry; rewrite andb_true_iff, Z.leb_le, Z.ltb_lt; lia).
    change (Z.to_nat 1) with 1%nat.
    destruct (elems requestBytes) as [|e0 [|e1 rest]];
      try (unfold len in Hlen; cbn [length] in Hlen; lia).
    reflexivity. }
  rewrite I1.
  set (P0 := protocol.OverrideID
               (protocol.SetAttributes (protocol.mkRadiusPacket id0 replyCode a0 [])
                  attributes) (protocol.pkt_id request)).
  destruct (protocol.typeCodeToUint8 replyCode) as [b ok] eqn:Eb.
  cbn [snd] in Hc. subst ok.
  rewrite (ToBytes_bytes P0 r1 b) by (cbn; try lia; exact Eb).
  assert (R : reslice requestBytes 4 20 = Ok (protocol.pkt_authenticator request)).
  { rewrite <- Hauth. unfold reslice, cap.
    pose proof (len_nonneg (spare requestBytes)).
    replace ((0 <=? 4) && (4 <=? 20)
             && (20 <=? len (elems requestBytes) + len (spare requestBytes)))
      with true by (symmetry; rewrite !andb_true_iff, !Z.leb_le; lia).
    f_equal. unfold sub. change (Z.to_nat (20 - 4)) with 16%nat.
    change (Z.to_nat 4) with 4%nat.
    rewrite skipn_app, firstn_app, length_skipn.
    replace (16 - (length (elems requestBytes) - 4))%nat with 0%nat
      by (unfold len in Hlen; lia).
    rewrite firstn_O. apply app_nil_r. }
  rewrite R. cbn [bind].
  destruct (packetLength_two
              ((20 + len (flat_map protocol.toBytes (protocol.pkt_attributes P0)))
               mod 65536)) as (l1 & l2 & El).
  rewrite El.
  set (head := [b; protocol.pkt_id request; l1; l2]).
  set (body := flat_map protocol.toBytes attributes).
  change (b :: protocol.pkt_id P0 :: [l1; l2]
            ++ protocol.pkt_authenticator P0
            ++ flat_map protocol.toBytes (protocol.pkt_attributes P0))
    with (head ++ a0 ++ body).
  destruct (reply_authenticator_accepted c request head a0 body sp [] eq_refl Ha0 eq_refl)
    as (digest & D1 & D2 & D3).
  rewrite D1. cbn [bind].
  set (reply := protocol.OverrideAuthenticator P0 digest).
  exists reply, r1, (head ++ digest ++ body).
  split; [reflexivity|]. split; [reflexivity|]. split; [reflexivity|].
  split; [reflexivity|]. split; [|exact D3].
  rewrite (ToBytes_bytes reply r1 b) by (cbn; try lia; exact Eb).
  cbn [reply P0 protocol.OverrideAuthenticator protocol.OverrideID
       protocol.SetAttributes protocol.pkt_id protocol.pkt_attributes
       protocol.pkt_authenticator].
  cbn [P0 protocol.OverrideID protocol.SetAttributes protocol.pkt_attributes] in El.
  rewrite El. reflexivity.
Qed.

Lemma X30_witness :
  let c := client.InitialiseClient test_dictionary "127.0.0.1" "secret" 1 2 in
  let attributes :=
    [protocol.mkRadiusAttribute (uint8 1) "User-Name" (bytes_of "testing")] in
  exists reply r' bytes,
    server.CreateReplyPacket protocol.AccountingResponse attributes
      (mkSlice accounting_request []) (client.secret c) counting
    = (Ok reply, r') /\
    protocol.pkt_id reply = protocol.pkt_id test_packet /\
    protocol.pkt_code reply = protocol.AccountingResponse /\
    protocol.pkt_attributes reply = attributes /\
    protocol.ToBytes reply r' = ((bytes, true), reply, r') /\
    client.VerifyReply c test_packet (mkSlice bytes []) = Ok true.
Proof.
  intros c attributes.
  apply (X30_VerifyReply_CreateReplyPacket c protocol.AccountingResponse attributes
           test_packet (mkSlice accounting_request []) counting []).
  - reflexivity.
  - vm_compute. discriminate.
  - reflexivity.
  - reflexivity.
Defined.

(** The reply of the repository's test of [CreateReplyPacket]: the bytes
    the test expects, whatever numbers the generator draws for the id and
    the authenticator that are then replaced. *)
Example CreateReplyPacket_test :
  let attributes :=
    [fst (protocol.CreateRadAttributeByName test_dictionary "User-Name"
            (bytes_of "testing"))] in
  match server.CreateReplyPacket protocol.AccountingResponse attributes
          (mkSlice accounting_request []) "secret" counting with
  | (Ok reply, r) =>
      fst (fst (protocol.ToBytes reply r))
      = (bytes_of_ints
           [5; 43; 0; 29; 109; 214; 15; 125; 92; 239; 190; 144; 171; 115; 202; 187;
            72; 208; 115; 25; 1; 9; 116; 101; 115; 116; 105; 110; 103], true)
  | _ => False
  end.
Proof. vm_compute. reflexivity. Qed.
